(** * ccpm package builder ([build.py]): model and verification

    [build.py] walks [./packages/<name>/source], attaches every file's text
    and SHA-256 digest to the package manifest, serialises the document as
    JSON, compresses and base64-encodes it, writes the archive to [./pool]
    and finally writes an index of all built packages.

    The embedding follows the script function by function.  Python values
    are an inductive type, dictionaries are association lists in insertion
    order, the file system is a tree of named entries, and the script's
    effects (console output, file reads and writes, exceptions) are threaded
    through a state-and-exception monad.  The functions of Python's standard
    library that the script calls ([json], [zlib], [base64], [hashlib], the
    text codec) are the fields of the class [PyLib]; what is assumed about
    them is stated, law by law, where a theorem needs it. *)

From Stdlib Require Import List String Ascii ZArith NArith Lia Bool Arith.
From Stdlib Require Import Strings.Byte DecimalString DecimalZ.
Import ListNotations.
Set Warnings "-register-all".
Local Open Scope string_scope.
Local Open Scope list_scope.

Notation "a +:+ b" := (String.append a b) (at level 60, right associativity).

(** ** Python strings *)

(** The character [/]. *)
Definition slash : ascii := "/"%char.

(** [strip_prefix p s] is [Some r] when [s = p +:+ r]. *)
Fixpoint strip_prefix (p s : string) : option string :=
  match p, s with
  | EmptyString, _ => Some s
  | String _ _, EmptyString => None
  | String a p', String b s' =>
      if Ascii.eqb a b then strip_prefix p' s' else None
  end.

(** [s.startswith(p)] *)
Definition startswith (p s : string) : bool :=
  match strip_prefix p s with Some _ => true | None => false end.

(** [s.removeprefix(p)] *)
Definition removeprefix (p s : string) : string :=
  match strip_prefix p s with Some r => r | None => s end.

(** [s.endswith(c)] for a one-character suffix. *)
Fixpoint endswith (c : ascii) (s : string) : bool :=
  match s with
  | EmptyString => false
  | String a EmptyString => Ascii.eqb a c
  | String _ s' => endswith c s'
  end.

(** [s.split(sep)] for a one-character separator. *)
Fixpoint split (sep : ascii) (s : string) : list string :=
  match s with
  | EmptyString => [EmptyString]
  | String c s' =>
      if Ascii.eqb c sep then EmptyString :: split sep s'
      else match split sep s' with
           | h :: t => String c h :: t
           | [] => [String c EmptyString]
           end
  end.

(** [sep.join(l)] *)
Fixpoint join (sep : string) (l : list string) : string :=
  match l with
  | [] => ""
  | [x] => x
  | x :: l' => x +:+ sep +:+ join sep l'
  end.

(** [c in s] for a character. *)
Fixpoint has_char (c : ascii) (s : string) : bool :=
  match s with
  | EmptyString => false
  | String a s' => Ascii.eqb a c || has_char c s'
  end.

(** [posixpath.join(a, b)] *)
Definition path_join (a b : string) : string :=
  if startswith "/" b then b
  else if (a =? "")%string || endswith slash a then a +:+ b
  else a +:+ "/" +:+ b.

(** ** Python values *)

(** What [json.load] returns and [json.dumps] accepts: [None], booleans,
    integers, strings, lists, and dictionaries with string keys in insertion
    order.  (Floating-point numbers are left out of the model.) *)
Inductive value : Type :=
  | VNone
  | VBool (b : bool)
  | VInt (z : Z)
  | VStr (s : string)
  | VList (l : list value)
  | VDict (d : list (string * value)).

(** Association lists in insertion order, with at most one binding per key
    once built by [assoc_set]: Python's [dict], and a directory listing. *)
Fixpoint assoc_get {A : Type} (k : string) (d : list (string * A)) : option A :=
  match d with
  | [] => None
  | (k', v) :: d' => if (k' =? k)%string then Some v else assoc_get k d'
  end.

(** [d[k] = v]: an existing key keeps its position, a new one goes last. *)
Fixpoint assoc_set {A : Type} (k : string) (v : A) (d : list (string * A))
  : list (string * A) :=
  match d with
  | [] => [(k, v)]
  | (k', v') :: d' =>
      if (k' =? k)%string then (k, v) :: d' else (k', v') :: assoc_set k v d'
  end.

Definition dict := list (string * value).
Definition dict_get : string -> dict -> option value := assoc_get.
Definition dict_set : string -> value -> dict -> dict := assoc_set.
Definition keys {A : Type} (d : list (string * A)) : list string := map fst d.

(** ** The file system *)

(** A file holds the text that reading it in text mode returns; a directory
    lists its entries in the order [os.scandir] reports them. *)
Inductive node : Type :=
  | File (text : string)
  | Dir (entries : list (string * node)).

(** The components of a path that name an entry: empty components (from
    doubled slashes) and [.] are skipped.  Every path of the script starts
    with [./], so paths are resolved from the working directory, the root of
    the model's tree.  The tree holds nothing above the working directory,
    and a component [..] is not followed to the parent: it is looked up like
    any other name, and no directory has such an entry.  The paths the
    script reads are made of names of entries and have no [..]; the path of
    an archive has the manifest's version in it, and the theorems on what
    is written where assume [no_parent_steps] of it, defined below. *)
Definition nontrivial (c : string) : bool :=
  negb ((c =? "")%string || (c =? ".")%string).

Definition components (path : string) : list string :=
  filter nontrivial (split slash path).

(** Exceptions the script can meet. *)
Inductive exn : Type :=
  | FileNotFoundError
  | NotADirectoryError
  | IsADirectoryError
  | JSONDecodeError
  | UnicodeDecodeError
  | TypeError
  | KeyError (key : string)
  | ValueError
  | OSError.

Inductive result (A : Type) : Type :=
  | Ok (a : A)
  | Raise (e : exn).
Arguments Ok {A} a.
Arguments Raise {A} e.

(** Path resolution, with the error the operating system reports. *)
Fixpoint lookup (n : node) (cs : list string) : result node :=
  match cs with
  | [] => Ok n
  | c :: cs' =>
      match n with
      | File _ => Raise NotADirectoryError
      | Dir es =>
          match assoc_get c es with
          | None => Raise FileNotFoundError
          | Some n' => lookup n' cs'
          end
      end
  end.

(** [open(path).read()].  The paths the script reads are made of names of
    entries of the tree and of [manifest.json] and [source]; the files of
    the tree are text, so that reading one returns. *)
Definition read_text (root : node) (path : string) : result string :=
  match lookup root (components path) with
  | Ok (File t) => Ok t
  | Ok (Dir _) => Raise IsADirectoryError
  | Raise e => Raise e
  end.

(** What the operating system asks of a path that is opened for writing
    (Linux): no NUL in it, which Python reports as [ValueError] before the
    system is asked; less than [PATH_MAX] bytes in all and at most
    [NAME_MAX] bytes in each name, or the system reports [ENAMETOOLONG],
    an [OSError]. *)
Definition NAME_MAX : nat := 255.
Definition PATH_MAX : nat := 4096.

Definition nul : ascii := "000"%char.

(** The bytes of a text as a file name (UTF-8): one for an ASCII character,
    two for every other character the model has. *)
Fixpoint name_bytes (s : string) : nat :=
  match s with
  | EmptyString => 0
  | String (Ascii _ _ _ _ _ _ _ high) s' =>
      (if high then 2 else 1) + name_bytes s'
  end.

(** The file at [cs] created in an existing directory, or replaced.  The
    system walks the path name by name: a name under a file is
    [ENOTDIR], a name that is too long [ENAMETOOLONG], a missing
    directory [ENOENT], a directory in the place of the file [EISDIR]. *)
Fixpoint store (n : node) (cs : list string) (t : string) : result node :=
  match cs with
  | [] =>
      match n with
      | File _ => Ok (File t)
      | Dir _ => Raise IsADirectoryError
      end
  | c :: cs' =>
      match n with
      | File _ => Raise NotADirectoryError
      | Dir es =>
          if Nat.ltb NAME_MAX (name_bytes c) then Raise OSError
          else
            match assoc_get c es with
            | Some n' =>
                match store n' cs' t with
                | Ok n'' => Ok (Dir (assoc_set c n'' es))
                | Raise e => Raise e
                end
            | None =>
                match cs' with
                | [] => Ok (Dir (assoc_set c (File t) es))
                | _ :: _ => Raise FileNotFoundError
                end
            end
      end
  end.

(** [open(path, mode="w")] followed by [write(t)]. *)
Definition write_text (root : node) (path t : string) : result node :=
  if has_char nul path then Raise ValueError
  else if Nat.leb PATH_MAX (name_bytes path) then Raise OSError
  else store root (components path) t.

(** [os.scandir(path)], as the names of the entries. *)
Definition scandir (root : node) (path : string) : result (list string) :=
  match lookup root (components path) with
  | Ok (Dir es) => Ok (keys es)
  | Ok (File _) => Raise NotADirectoryError
  | Raise e => Raise e
  end.

Definition is_dir (e : string * node) : bool :=
  match snd e with Dir _ => true | File _ => false end.

(** [os.walk(top)], top down: a directory's own triple [(root, dirs, files)]
    first, then the walks of its subdirectories in listing order, each from
    [os.path.join(root, dir)].  A [top] that cannot be listed yields nothing
    (the default [onerror] swallows the error). *)
Fixpoint os_walk (top : string) (n : node)
  : list (string * list string * list string) :=
  match n with
  | File _ => []
  | Dir es =>
      (top, keys (filter is_dir es), keys (filter (fun e => negb (is_dir e)) es))
      :: flat_map (fun e =>
                     match e with
                     | (_, File _) => []
                     | (d, (Dir _) as c) => os_walk (path_join top d) c
                     end) es
  end.

(** ** Effects *)

Record world : Type := World { fs : node; stdout : list string }.

(** A computation reads and updates the world and returns or raises; what
    was written before an exception stays written. *)
Definition M (A : Type) : Type := world -> world * result A.

Definition ret {A : Type} (a : A) : M A := fun w => (w, Ok a).
Definition raise {A : Type} (e : exn) : M A := fun w => (w, Raise e).

Definition bind {A B : Type} (m : M A) (k : A -> M B) : M B :=
  fun w =>
    match m w with
    | (w', Ok a) => k a w'
    | (w', Raise e) => (w', Raise e)
    end.

Notation "x <- m ;; k" := (bind m (fun x => k))
  (at level 61, m at next level, right associativity).
Notation "m ;;; k" := (bind m (fun _ => k))
  (at level 61, right associativity).

Definition lift {A : Type} (r : result A) : M A := fun w => (w, r).

(** [try: m except FileNotFoundError: h] *)
Definition except_FileNotFoundError {A : Type} (m : M A) (h : M A) : M A :=
  fun w =>
    match m w with
    | (w', Raise FileNotFoundError) => h w'
    | r => r
    end.

Definition print (line : string) : M unit :=
  fun w => (World (fs w) (stdout w ++ [line]), Ok tt).

Definition open_read (path : string) : M string :=
  fun w => (w, read_text (fs w) path).

Definition open_write (path t : string) : M unit :=
  fun w =>
    match write_text (fs w) path t with
    | Ok root' => (World root' (stdout w), Ok tt)
    | Raise e => (w, Raise e)
    end.

(** [for x in l: s = body x s] *)
Fixpoint for_each {A S : Type} (l : list A) (body : A -> S -> M S) (s : S) : M S :=
  match l with
  | [] => ret s
  | x :: l' => s' <- body x s ;; for_each l' body s'
  end.

(** ** The standard library *)

(** The library functions [build.py] calls, and the three decoders that
    undo its encoder. *)
Class PyLib : Type := {
  (** [hashlib.sha256(b).hexdigest()] *)
  sha256_hexdigest : list byte -> string;
  (** [s.encode()] *)
  str_encode : string -> list byte;
  (** [b.decode()] *)
  bytes_decode : list byte -> option string;
  (** [json.dumps(v)] *)
  json_dumps : value -> string;
  (** [json.loads(s)] *)
  json_loads : string -> option value;
  (** [zlib.compress(b, level=zlib.Z_BEST_COMPRESSION)] *)
  zlib_compress : list byte -> list byte;
  (** [zlib.decompress(b)] *)
  zlib_decompress : list byte -> option (list byte);
  (** [base64.b64encode(b)] *)
  b64encode : list byte -> list byte;
  (** [base64.b64decode(b)] *)
  b64decode : list byte -> option (list byte);
  (** [str(v)] for a value that is not a string *)
  py_repr : value -> string
}.

(** ** build.py *)

Definition PACKAGES_ROOT_SRC_DIR := "./packages".
Definition PACKAGES_SRC_DIR := "source".
Definition MANIFEST_FILE := "manifest.json".
Definition PACKAGES_POOL_DIR := "./pool".
Definition INDEX_FILE := "index.json".

(** Lines 15-16.  The names of the entries of the packages directory, in
    listing order. *)
Definition get_all_packages : M (list string) :=
  fun w => (w, scandir (fs w) PACKAGES_ROOT_SRC_DIR).

(** Line 20: the path [get_package_files] walks, with its closing slash. *)
Definition source_path (name : string) : string :=
  PACKAGES_ROOT_SRC_DIR +:+ "/" +:+ name +:+ "/" +:+ PACKAGES_SRC_DIR +:+ "/".

Definition walk_from (root : node) (path : string)
  : list (string * list string * list string) :=
  match lookup root (components path) with
  | Ok n => os_walk path n
  | Raise _ => []
  end.

(** Lines 23-24, the loop over the walk: every file name of every triple,
    behind [root.removeprefix(path)] and a slash. *)
Definition relative_paths (path : string)
    (walk : list (string * list string * list string)) : list string :=
  flat_map (fun '(root, _, files) =>
              map (fun file => removeprefix path root +:+ "/" +:+ file) files)
           walk.

(** Lines 19-26.  What [get_package_files] returns; it reads the tree and
    changes nothing. *)
Definition package_files (root : node) (name : string) : list string :=
  let path := source_path name in
  relative_paths path (walk_from root path).

Definition get_package_files (name : string) : M (list string) :=
  fun w => (w, Ok (package_files (fs w) name)).

(** [v[k]] *)
Definition getitem (v : value) (k : string) : result value :=
  match v with
  | VDict d =>
      match dict_get k d with
      | Some x => Ok x
      | None => Raise (KeyError k)
      end
  | _ => Raise TypeError
  end.

(** [v[k] = x] *)
Definition setitem (v : value) (k : string) (x : value) : result value :=
  match v with
  | VDict d => Ok (VDict (dict_set k x d))
  | _ => Raise TypeError
  end.

(** [v[k1][k2] = x]; dictionaries are mutable objects, so the update of the
    inner one shows in the outer one. *)
Definition setitem2 (v : value) (k1 k2 : string) (x : value) : result value :=
  match getitem v k1 with
  | Ok inner =>
      match setitem inner k2 x with
      | Ok inner' => setitem v k1 inner'
      | Raise e => Raise e
      end
  | Raise e => Raise e
  end.

(** [f"{v}"] *)
Definition format_value {L : PyLib} (v : value) : string :=
  match v with
  | VStr s => s
  | _ => py_repr v
  end.

Section Build.
Context {L : PyLib}.

(** [json.load(file)], on the text of the file. *)
Definition json_load (text : string) : M value :=
  match json_loads text with
  | Some v => ret v
  | None => raise JSONDecodeError
  end.

(** Lines 29-38.  A missing file is reported and gives [None]; any other
    exception, of [open] or of [json.load], goes to the caller. *)
Definition get_manifest (name : string) : M value :=
  let path := PACKAGES_ROOT_SRC_DIR +:+ "/" +:+ name +:+ "/" +:+ MANIFEST_FILE in
  print "[i] Reading manifest" ;;;
  except_FileNotFoundError
    (text <- open_read path ;; json_load text)
    (print "[!] Package is invalid (no manifest)" ;;; ret VNone).

(** Lines 54-57: the entry of a file with text [content]. *)
Definition file_entry (content : string) : value :=
  VDict [("content", VStr content);
         ("digest", VStr (sha256_hexdigest (str_encode content)))].

(** Lines 48-57: one turn of the loop of [build_package]. *)
Definition build_file (name path : string) (manifest : value) : M value :=
  print ("[+] " +:+ path) ;;;
  content <- open_read (PACKAGES_ROOT_SRC_DIR +:+ "/" +:+ name +:+ "/"
                        +:+ PACKAGES_SRC_DIR +:+ "/" +:+ path) ;;
  lift (setitem2 manifest "files" path (file_entry content)).

(** Lines 41-59.  [manifest is not None] is all that is asked of the loaded
    value; item assignment on anything but a dictionary raises [TypeError]. *)
Definition build_package (name : string) : M value :=
  manifest <- get_manifest name ;;
  match manifest with
  | VNone => ret VNone
  | _ =>
      manifest <- lift (setitem manifest "files" (VDict [])) ;;
      paths <- get_package_files name ;;
      for_each paths (build_file name) manifest
  end.

(** Lines 62-65. *)
Definition compress (package : value) : list byte :=
  b64encode (zlib_compress (str_encode (json_dumps package))).

(** Line 76: the name of the archive file. *)
Definition pool_path (name : string) (version : value) : string :=
  PACKAGES_POOL_DIR +:+ "/" +:+ name +:+ "." +:+ format_value version +:+ ".ccp".

(** [data.decode()] *)
Definition decode_text (data : list byte) : M string :=
  match bytes_decode data with
  | Some s => ret s
  | None => raise UnicodeDecodeError
  end.

(** Lines 68-83.  The file name needs [package['version']], so a missing
    version raises before the file is opened; opening the file empties it,
    then the decoded payload is written. *)
Definition write_package (name : string) : M value :=
  print ("Packaging " +:+ name) ;;;
  package <- build_package name ;;
  match package with
  | VNone => ret VNone
  | _ =>
      let data := compress package in
      version <- lift (getitem package "version") ;;
      open_write (pool_path name version) "" ;;;
      text <- decode_text data ;;
      open_write (pool_path name version) text ;;;
      version <- lift (getitem package "version") ;;
      ret (VDict [("version", version);
                  ("digest", VStr (sha256_hexdigest data))])
  end.

(** Lines 90-93: one turn of the driver's loop. *)
Definition index_package (package : string) (packages : dict) : M dict :=
  index <- write_package package ;;
  match index with
  | VNone => ret packages
  | _ => ret (dict_set package index packages)
  end.

(** Lines 87-93: the driver's loop, from the empty index. *)
Definition build_all (names : list string) : M dict :=
  for_each names index_package [].

Definition index_path : string := PACKAGES_POOL_DIR +:+ "/" +:+ INDEX_FILE.

(** Lines 86-97.  Nothing can fail between opening the index file and
    writing it, so the two are one step here. *)
Definition main : M unit :=
  names <- get_all_packages ;;
  packages <- build_all names ;;
  print "Writing index" ;;;
  open_write index_path (json_dumps (VDict packages)).

(** Modelled from the spec: the decoder is not in [build.py] (archives are
    decoded by the package manager that reads the pool); the spec describes
    it as base64-decode, then decompress, then parse JSON. *)
Definition decode (archive : list byte) : option value :=
  match b64decode archive with
  | Some z =>
      match zlib_decompress z with
      | Some b =>
          match bytes_decode b with
          | Some s => json_loads s
          | None => None
          end
      | None => None
      end
  | None => None
  end.

End Build.

(** ** Specification vocabulary *)

(** A name an entry of a directory can have: not empty, not [.] or [..],
    without a slash. *)
Definition valid_name (s : string) : bool :=
  nontrivial s && negb (s =? "..")%string && negb (has_char slash s).

Fixpoint distinct (l : list string) : bool :=
  match l with
  | [] => true
  | x :: l' => negb (existsb (String.eqb x) l') && distinct l'
  end.

(** A well-formed tree: entries have valid names, no two entries of a
    directory share a name. *)
Fixpoint wf_node (n : node) : bool :=
  match n with
  | File _ => true
  | Dir es =>
      forallb valid_name (keys es) && distinct (keys es)
      && forallb (fun e => wf_node (snd e)) es
  end.

(** The files under a directory, each with the names that lead to it and its
    text: the directory's own files first, then those of its subdirectories,
    in listing order. *)
Fixpoint tree_files (n : node) : list (list string * string) :=
  match n with
  | File _ => []
  | Dir es =>
      flat_map (fun e =>
                  match e with
                  | (f, File t) => [([f], t)]
                  | (_, Dir _) => []
                  end) es
      ++ flat_map (fun e =>
                     match e with
                     | (_, File _) => []
                     | (d, (Dir _) as c) =>
                         map (fun p => (d :: fst p, snd p)) (tree_files c)
                     end) es
  end.

(** The key [get_package_files] gives the file at [cs] below the source
    directory. *)
Definition key_of (cs : list string) : string :=
  match cs with
  | [f] => "/" +:+ f
  | _ => join "/" cs
  end.

(** Dictionaries with one binding per key, all the way down: the values
    Python can hold. *)
Fixpoint wf_value (v : value) : bool :=
  match v with
  | VList l => forallb wf_value l
  | VDict d => distinct (keys d) && forallb (fun e => wf_value (snd e)) d
  | _ => true
  end.

(** Where a package's manifest and source directory are, as names from
    the working directory. *)
Definition package_components (name : string) : list string :=
  ["packages"; name].
Definition manifest_components (name : string) : list string :=
  ["packages"; name; MANIFEST_FILE].
Definition source_components (name : string) : list string :=
  ["packages"; name; PACKAGES_SRC_DIR].

(** The package directory exists and holds no manifest. *)
Definition manifest_absent (root : node) (name : string) : bool :=
  match lookup root (package_components name) with
  | Ok (Dir es) =>
      match assoc_get MANIFEST_FILE es with
      | None => true
      | Some _ => false
      end
  | _ => false
  end.

(** The text of the package's manifest file, when there is one. *)
Definition manifest_text (root : node) (name : string) : option string :=
  match lookup root (manifest_components name) with
  | Ok (File t) => Some t
  | _ => None
  end.

(** The source directory is a well-formed tree, or there is none. *)
Definition wf_source (root : node) (name : string) : bool :=
  match lookup root (source_components name) with
  | Ok src => wf_node src
  | Raise _ => true
  end.

(** The files of a package's source tree (none without a source
    directory), in the order of the walk. *)
Definition source_files (root : node) (name : string)
  : list (list string * string) :=
  match lookup root (source_components name) with
  | Ok src => tree_files src
  | Raise _ => []
  end.

(** The source directory is absent or has no entry. *)
Definition source_absent_or_empty (root : node) (name : string) : bool :=
  match lookup root (source_components name) with
  | Ok (Dir []) => true
  | Ok _ => false
  | Raise _ => true
  end.

(** A name a file can be created under: the name of an entry, without a
    NUL and of at most [NAME_MAX] bytes. *)
Definition creatable_name (s : string) : bool :=
  valid_name s && negb (has_char nul s) && Nat.leb (name_bytes s) NAME_MAX.

(** The pool is a directory in which the file [fname] can be created or
    replaced: the name is one a file can have, and no directory has it. *)
Definition pool_writable (root : node) (fname : string) : bool :=
  match lookup root ["pool"] with
  | Ok (Dir es) =>
      creatable_name fname
      && match assoc_get fname es with
         | Some (Dir _) => false
         | _ => true
         end
  | _ => false
  end.

(** The [files] mapping the loop of [build_package] builds from [files]
    over [paths]. *)
Definition collect {L : PyLib} (root : node) (name : string) (paths : list string)
    (files : dict) : dict :=
  fold_left
    (fun acc path =>
       match read_text root (source_path name +:+ path) with
       | Ok content => dict_set path (file_entry content) acc
       | Raise _ => acc
       end)
    paths files.

(** The path [get_manifest] opens. *)
Definition manifest_path (name : string) : string :=
  PACKAGES_ROOT_SRC_DIR +:+ "/" +:+ name +:+ "/" +:+ MANIFEST_FILE.

(** The index entry [write_package] returns for a package document. *)
Definition index_entry {L : PyLib} (package : value) (version : value) : value :=
  VDict [("version", version);
         ("digest", VStr (sha256_hexdigest (compress package)))].

(** The [files] mapping of a package: one entry per file of the source
    tree, under the file's key. *)
Definition files_of {L : PyLib} (root : node) (name : string) : dict :=
  map (fun p => (key_of (fst p), file_entry (snd p))) (source_files root name).

(** The last character of a string. *)
Fixpoint last_char (s : string) : option ascii :=
  match s with
  | EmptyString => None
  | String c EmptyString => Some c
  | String _ s' => last_char s'
  end.

(** The manifest of a package, when its file can be read and parses to a
    JSON object. *)
Definition manifest_object {L : PyLib} (root : node) (name : string)
  : option dict :=
  match read_text root (manifest_path name) with
  | Ok text =>
      match json_loads text with
      | Some (VDict m) => Some m
      | _ => None
      end
  | Raise _ => None
  end.

Definition has_object_manifest {L : PyLib} (root : node) (name : string) : bool :=
  match manifest_object root name with
  | Some _ => true
  | None => false
  end.

(** The document [build_package] assembles from the manifest [m]: the
    manifest with [files] set to what the loop collects. *)
Definition document_of {L : PyLib} (root : node) (name : string) (m : dict)
  : value :=
  VDict (dict_set "files"
           (VDict (collect root name (package_files root name) [])) m).

(** The name of a package's archive file in the pool. *)
Definition archive_name {L : PyLib} (name : string) (version : value) : string :=
  name +:+ "." +:+ format_value version +:+ ".ccp".


(** No archive path of the packages [names] has a step to a parent
    directory.  A version is free text of the manifest and goes into the
    archive path as it is (line 76); the model resolves a path by descending
    from the working directory, so it is on the paths without [..] that it
    follows the operating system. *)
Definition no_parent_steps {L : PyLib} (root : node) (names : list string)
  : Prop :=
  forall name m version,
    In name names ->
    manifest_object root name = Some m -> dict_get "version" m = Some version ->
    ~ In ".." (components (pool_path name version)).

(** No two of the packages [names] that have an object manifest with a
    version have the same names on the path of their archive file. *)
Definition archive_paths_differ {L : PyLib} (root : node) (names : list string)
  : Prop :=
  forall n1 n2 m1 m2 v1 v2,
    In n1 names -> In n2 names -> n1 <> n2 ->
    manifest_object root n1 = Some m1 -> manifest_object root n2 = Some m2 ->
    dict_get "version" m1 = Some v1 -> dict_get "version" m2 = Some v2 ->
    components (pool_path n1 v1) <> components (pool_path n2 v2).

(** No two of the packages [names] share an archive file: the paths have
    no step to a parent directory, where two paths with different names
    can be one file, and no two of them have the same names. *)
Definition archives_distinct {L : PyLib} (root : node) (names : list string)
  : Prop :=
  no_parent_steps root names /\ archive_paths_differ root names.

(** What the theorems below assume of the standard library, law by law.
    JSON text parses back to the value it was written from, and parsing only
    yields dictionaries with one binding per key. *)
Definition law_json_roundtrip {L : PyLib} : Prop :=
  forall v, wf_value v = true -> json_loads (json_dumps v) = Some v.


(** Encoded text decodes to itself, and decoding is strict: only the
    encoding of a text decodes to that text. *)
Definition law_text_roundtrip {L : PyLib} : Prop :=
  forall s, bytes_decode (str_encode s) = Some s.

Definition law_text_strict {L : PyLib} : Prop :=
  forall b s, bytes_decode b = Some s -> str_encode s = b.

(** Compression and base64 encoding have their decoders as left inverses,
    and base64 output is text. *)
Definition law_zlib_roundtrip {L : PyLib} : Prop :=
  forall b, zlib_decompress (zlib_compress b) = Some b.

Definition law_b64_roundtrip {L : PyLib} : Prop :=
  forall b, b64decode (b64encode b) = Some b.

Definition law_b64_text {L : PyLib} : Prop :=
  forall b, bytes_decode (b64encode b) <> None.

(** The laws the decoder of an archive rests on. *)
Definition archive_laws {L : PyLib} : Prop :=
  law_json_roundtrip /\ law_text_roundtrip /\ law_zlib_roundtrip
  /\ law_b64_roundtrip.

(** ** A reference library

    An executable instance of [PyLib], used to run the model on concrete
    packages and to show that the laws above can be met together.  Its
    base64 is RFC 4648's, its SHA-256 is FIPS 180-4's, its text codec is
    UTF-8 on the characters a [string] holds (code points below 256), and
    its JSON text has the layout of [json.dumps]; its parser reads that
    text and ordinary JSON over the model's values.  Its [zlib] stores the
    bytes as they are, and its [py_repr] quotes strings without escaping
    them: stand-ins, good for the laws and for nothing else. *)

(** *** Text *)

Definition ref_encode_char (c : ascii) : list byte :=
  match c with
  | Ascii _ _ _ _ _ _ _ false => [byte_of_ascii c]
  | Ascii b0 b1 b2 b3 b4 b5 b6 true =>
      [byte_of_ascii (Ascii b6 true false false false false true true);
       byte_of_ascii (Ascii b0 b1 b2 b3 b4 b5 false true)]
  end.

Fixpoint ref_str_encode (s : string) : list byte :=
  match s with
  | EmptyString => []
  | String c s' => ref_encode_char c ++ ref_str_encode s'
  end.

Fixpoint ref_bytes_decode (b : list byte) : option string :=
  match b with
  | [] => Some EmptyString
  | x :: rest =>
      let '(Ascii x0 x1 x2 x3 x4 x5 x6 x7) := ascii_of_byte x in
      if negb x7 then option_map (String (ascii_of_byte x)) (ref_bytes_decode rest)
      else if x6 && negb x5 && negb x4 && negb x3 && negb x2 && x1 then
        match rest with
        | y :: rest' =>
            let '(Ascii y0 y1 y2 y3 y4 y5 y6 y7) := ascii_of_byte y in
            if y7 && negb y6
            then option_map (String (Ascii y0 y1 y2 y3 y4 y5 x0 true))
                            (ref_bytes_decode rest')
            else None
        | [] => None
        end
      else None
  end.

(** A byte below 128. *)
Definition is_ascii_byte (x : byte) : bool :=
  let '(Ascii _ _ _ _ _ _ _ x7) := ascii_of_byte x in negb x7.

(** *** Base64 *)

Definition b64_alphabet : string :=
  "ABCDEFGHIJKLMNOPQRSTUVWXYZabcdefghijklmnopqrstuvwxyz0123456789+/".

Definition b64_pad : byte := byte_of_ascii "="%char.

(** Six bits, most significant first. *)
Definition sextet : Type := (bool * bool * bool * bool * bool * bool)%type.

Definition bit_value (b : bool) : nat := if b then 1 else 0.

Definition sextet_value (s : sextet) : nat :=
  let '(s5, s4, s3, s2, s1, s0) := s in
  32 * bit_value s5 + 16 * bit_value s4 + 8 * bit_value s3
  + 4 * bit_value s2 + 2 * bit_value s1 + bit_value s0.

Definition sextet_of_value (n : nat) : sextet :=
  (Nat.testbit n 5, Nat.testbit n 4, Nat.testbit n 3,
   Nat.testbit n 2, Nat.testbit n 1, Nat.testbit n 0).

Definition b64_char (s : sextet) : byte :=
  match String.get (sextet_value s) b64_alphabet with
  | Some c => byte_of_ascii c
  | None => b64_pad
  end.

Fixpoint index_of (c : ascii) (s : string) : option nat :=
  match s with
  | EmptyString => None
  | String a s' =>
      if Ascii.eqb a c then Some 0 else option_map S (index_of c s')
  end.

Definition b64_sextet (c : byte) : option sextet :=
  option_map sextet_of_value (index_of (ascii_of_byte c) b64_alphabet).

(** The bits of a byte, most significant first. *)
Definition bits_of_byte (x : byte)
  : bool * bool * bool * bool * bool * bool * bool * bool :=
  let '(Ascii x0 x1 x2 x3 x4 x5 x6 x7) := ascii_of_byte x in
  (x7, x6, x5, x4, x3, x2, x1, x0).

Definition byte_of_bits (x7 x6 x5 x4 x3 x2 x1 x0 : bool) : byte :=
  byte_of_ascii (Ascii x0 x1 x2 x3 x4 x5 x6 x7).

Fixpoint ref_b64encode (b : list byte) : list byte :=
  match b with
  | [] => []
  | [x] =>
      let '(x7, x6, x5, x4, x3, x2, x1, x0) := bits_of_byte x in
      [b64_char (x7, x6, x5, x4, x3, x2);
       b64_char (x1, x0, false, false, false, false);
       b64_pad; b64_pad]
  | [x; y] =>
      let '(x7, x6, x5, x4, x3, x2, x1, x0) := bits_of_byte x in
      let '(y7, y6, y5, y4, y3, y2, y1, y0) := bits_of_byte y in
      [b64_char (x7, x6, x5, x4, x3, x2);
       b64_char (x1, x0, y7, y6, y5, y4);
       b64_char (y3, y2, y1, y0, false, false);
       b64_pad]
  | x :: y :: z :: rest =>
      let '(x7, x6, x5, x4, x3, x2, x1, x0) := bits_of_byte x in
      let '(y7, y6, y5, y4, y3, y2, y1, y0) := bits_of_byte y in
      let '(z7, z6, z5, z4, z3, z2, z1, z0) := bits_of_byte z in
      b64_char (x7, x6, x5, x4, x3, x2)
      :: b64_char (x1, x0, y7, y6, y5, y4)
      :: b64_char (y3, y2, y1, y0, z7, z6)
      :: b64_char (z5, z4, z3, z2, z1, z0)
      :: ref_b64encode rest
  end.

Definition is_pad (c : byte) : bool := Byte.eqb c b64_pad.

Fixpoint ref_b64decode (b : list byte) : option (list byte) :=
  match b with
  | [] => Some []
  | c1 :: c2 :: c3 :: c4 :: rest =>
      match b64_sextet c1, b64_sextet c2 with
      | Some (p5, p4, p3, p2, p1, p0), Some (q5, q4, q3, q2, q1, q0) =>
          let x := byte_of_bits p5 p4 p3 p2 p1 p0 q5 q4 in
          match b64_sextet c3 with
          | Some (r5, r4, r3, r2, r1, r0) =>
              let y := byte_of_bits q3 q2 q1 q0 r5 r4 r3 r2 in
              match b64_sextet c4 with
              | Some (t5, t4, t3, t2, t1, t0) =>
                  let z := byte_of_bits r1 r0 t5 t4 t3 t2 t1 t0 in
                  option_map (fun l => x :: y :: z :: l) (ref_b64decode rest)
              | None =>
                  match rest with
                  | [] => if is_pad c4 then Some [x; y] else None
                  | _ :: _ => None
                  end
              end
          | None =>
              match rest with
              | [] => if is_pad c3 && is_pad c4 then Some [x] else None
              | _ :: _ => None
              end
          end
      | _, _ => None
      end
  | _ => None
  end.

(** *** SHA-256 *)

Definition hex_digit (n : nat) : ascii :=
  match String.get n "0123456789abcdef" with
  | Some c => c
  | None => "0"%char
  end.

Section Sha256.
Local Open Scope N_scope.

(** Words of 32 bits, held in [N]. *)
Definition w32 : N := 2 ^ 32.
Definition add32 (a b : N) : N := (a + b) mod w32.
Definition rotr (n x : N) : N :=
  N.lor (N.shiftr x n) (N.shiftl x (32 - n) mod w32).
Definition not32 (x : N) : N := N.lxor x (w32 - 1).

Definition big_sigma0 (x : N) : N :=
  N.lxor (rotr 2 x) (N.lxor (rotr 13 x) (rotr 22 x)).
Definition big_sigma1 (x : N) : N :=
  N.lxor (rotr 6 x) (N.lxor (rotr 11 x) (rotr 25 x)).
Definition small_sigma0 (x : N) : N :=
  N.lxor (rotr 7 x) (N.lxor (rotr 18 x) (N.shiftr x 3)).
Definition small_sigma1 (x : N) : N :=
  N.lxor (rotr 17 x) (N.lxor (rotr 19 x) (N.shiftr x 10)).
Definition sha_ch (x y z : N) : N := N.lxor (N.land x y) (N.land (not32 x) z).
Definition sha_maj (x y z : N) : N :=
  N.lxor (N.land x y) (N.lxor (N.land x z) (N.land y z)).

(** The constants: the first 32 bits of the fractional parts of the square
    roots (initial hash) and cube roots (round constants) of the first
    primes. *)
Definition is_prime (n : nat) : bool :=
  forallb (fun d => negb (Nat.eqb (n mod d) 0)) (seq 2 (n - 2)).

Definition first_primes : list N :=
  map N.of_nat (filter is_prime (seq 2 310)).

Fixpoint cube_root_bits (fuel : nat) (bit r x : N) : N :=
  match fuel with
  | O => r
  | S fuel' =>
      let r' := r + bit in
      cube_root_bits fuel' (bit / 2) (if r' * r' * r' <=? x then r' else r) x
  end.

Definition frac_cbrt32 (p : N) : N :=
  cube_root_bits 36 (2 ^ 35) 0 (p * 2 ^ 96) mod w32.
Definition frac_sqrt32 (p : N) : N := N.sqrt (p * 2 ^ 64) mod w32.

Definition sha256_k : list N := Eval vm_compute in map frac_cbrt32 first_primes.
Definition sha256_h0 : list N :=
  Eval vm_compute in map frac_sqrt32 (firstn 8 first_primes).

(** [n] bytes of [x], most significant first. *)
Fixpoint be_bytes (n : nat) (x : N) : list N :=
  match n with
  | O => []
  | S n' => (x / 256 ^ N.of_nat n') mod 256 :: be_bytes n' x
  end.

Definition sha256_pad (msg : list N) : list N :=
  let len := N.of_nat (List.length msg) in
  let zeros := N.to_nat ((119 - len mod 64) mod 64) in
  msg ++ 128 :: repeat 0 zeros ++ be_bytes 8 (8 * len).

Fixpoint be_words (fuel : nat) (b : list N) : list N :=
  match fuel, b with
  | S fuel', b0 :: b1 :: b2 :: b3 :: rest =>
      (((b0 * 256 + b1) * 256 + b2) * 256 + b3) :: be_words fuel' rest
  | _, _ => []
  end.

Definition sha_word (w : list N) (i : nat) : N := nth i w 0.

(** The message schedule: [n] more words after those of [w]. *)
Fixpoint sha_schedule (n : nat) (w : list N) : list N :=
  match n with
  | O => w
  | S n' =>
      let t := List.length w in
      sha_schedule n'
        (w ++ [add32 (add32 (small_sigma1 (sha_word w (t - 2))) (sha_word w (t - 7)))
                     (add32 (small_sigma0 (sha_word w (t - 15)))
                            (sha_word w (t - 16)))])
  end.

Definition sha_state : Type := (N * N * N * N * N * N * N * N)%type.

Definition sha_round (s : sha_state) (kw : N * N) : sha_state :=
  let '(a, b, c, d, e, f, g, h) := s in
  let '(k, w) := kw in
  let t1 := add32 (add32 (add32 h (big_sigma1 e)) (add32 (sha_ch e f g) k)) w in
  let t2 := add32 (big_sigma0 a) (sha_maj a b c) in
  (add32 t1 t2, a, b, c, add32 d t1, e, f, g).

Definition sha_block (s : sha_state) (block : list N) : sha_state :=
  let w := sha_schedule 48 block in
  let '(a, b, c, d, e, f, g, h) := fold_left sha_round (combine sha256_k w) s in
  let '(a0, b0, c0, d0, e0, f0, g0, h0) := s in
  (add32 a0 a, add32 b0 b, add32 c0 c, add32 d0 d,
   add32 e0 e, add32 f0 f, add32 g0 g, add32 h0 h).

Fixpoint sha_blocks (fuel : nat) (w : list N) : list (list N) :=
  match fuel, w with
  | S fuel', _ :: _ => firstn 16 w :: sha_blocks fuel' (skipn 16 w)
  | _, _ => []
  end.

Fixpoint hex_word (n : nat) (x : N) : string :=
  match n with
  | O => EmptyString
  | S n' =>
      String (hex_digit (N.to_nat ((x / 16 ^ N.of_nat n') mod 16))) (hex_word n' x)
  end.

Definition ref_sha256_hexdigest (msg : list byte) : string :=
  let padded := sha256_pad (map Byte.to_N msg) in
  let ws := be_words (List.length padded) padded in
  let init :=
    match sha256_h0 with
    | [a; b; c; d; e; f; g; h] => (a, b, c, d, e, f, g, h)
    | _ => (0, 0, 0, 0, 0, 0, 0, 0)
    end in
  let '(a, b, c, d, e, f, g, h) :=
    fold_left sha_block (sha_blocks (List.length ws) ws) init in
  String.concat "" (map (hex_word 8) [a; b; c; d; e; f; g; h]).

End Sha256.

(** *** JSON *)

Definition quote : ascii := "034"%char.
Definition backslash : ascii := "\"%char.

Definition escape_char (c : ascii) : string :=
  let n := nat_of_ascii c in
  if Ascii.eqb c quote then String backslash (String quote "")
  else if Ascii.eqb c backslash then String backslash (String backslash "")
  else if Nat.eqb n 8 then String backslash "b"
  else if Nat.eqb n 9 then String backslash "t"
  else if Nat.eqb n 10 then String backslash "n"
  else if Nat.eqb n 12 then String backslash "f"
  else if Nat.eqb n 13 then String backslash "r"
  else if Nat.leb 32 n && Nat.leb n 126 then String c ""
  else String backslash ("u00" +:+ String (hex_digit (n / 16))
                                     (String (hex_digit (n mod 16)) "")).

Fixpoint escape (s : string) : string :=
  match s with
  | EmptyString => ""
  | String c s' => escape_char c +:+ escape s'
  end.

Definition ref_dumps_string (s : string) : string :=
  String quote (escape s +:+ String quote "").

Definition string_of_Z (z : Z) : string := NilZero.string_of_int (Z.to_int z).

(** One member of an object, given the text of its value. *)
Definition member_text (dumps : value -> string) (e : string * value) : string :=
  ref_dumps_string (fst e) +:+ ": " +:+ dumps (snd e).

Fixpoint ref_json_dumps (v : value) : string :=
  match v with
  | VNone => "null"
  | VBool true => "true"
  | VBool false => "false"
  | VInt z => string_of_Z z
  | VStr s => ref_dumps_string s
  | VList l => "[" +:+ join ", " (map ref_json_dumps l) +:+ "]"
  | VDict d => "{" +:+ join ", " (map (member_text ref_json_dumps) d) +:+ "}"
  end.

Definition is_ws (c : ascii) : bool :=
  let n := nat_of_ascii c in
  Nat.eqb n 32 || Nat.eqb n 9 || Nat.eqb n 10 || Nat.eqb n 13.

Fixpoint skip_ws (s : string) : string :=
  match s with
  | String c s' => if is_ws c then skip_ws s' else s
  | EmptyString => s
  end.

Definition hex_value (c : ascii) : option nat :=
  let n := nat_of_ascii c in
  if Nat.leb 48 n && Nat.leb n 57 then Some (n - 48)
  else if Nat.leb 97 n && Nat.leb n 102 then Some (n - 87)
  else if Nat.leb 65 n && Nat.leb n 70 then Some (n - 55)
  else None.

(** [\uXXXX] for a character a [string] can hold. *)
Definition unicode_escape (h1 h2 h3 h4 : ascii) : option ascii :=
  match hex_value h1, hex_value h2, hex_value h3, hex_value h4 with
  | Some 0, Some 0, Some a, Some b => Some (ascii_of_nat (16 * a + b))
  | _, _, _, _ => None
  end.

Definition simple_escape (e : ascii) : option ascii :=
  if Ascii.eqb e quote then Some quote
  else if Ascii.eqb e backslash then Some backslash
  else if Ascii.eqb e "/" then Some "/"%char
  else if Ascii.eqb e "b" then Some (ascii_of_nat 8)
  else if Ascii.eqb e "t" then Some (ascii_of_nat 9)
  else if Ascii.eqb e "n" then Some (ascii_of_nat 10)
  else if Ascii.eqb e "f" then Some (ascii_of_nat 12)
  else if Ascii.eqb e "r" then Some (ascii_of_nat 13)
  else None.

Definition cons_char (c : ascii) (r : option (string * string))
  : option (string * string) :=
  match r with
  | Some (t, rest) => Some (String c t, rest)
  | None => None
  end.

(** The characters of a string literal after its opening quote, and what
    follows the closing quote. *)
Fixpoint parse_chars (s : string) : option (string * string) :=
  match s with
  | EmptyString => None
  | String c s' =>
      if Ascii.eqb c quote then Some ("", s')
      else if Ascii.eqb c backslash then
        match s' with
        | String e s'' =>
            if Ascii.eqb e "u" then
              match s'' with
              | String h1 (String h2 (String h3 (String h4 s3))) =>
                  match unicode_escape h1 h2 h3 h4 with
                  | Some x => cons_char x (parse_chars s3)
                  | None => None
                  end
              | _ => None
              end
            else
              match simple_escape e with
              | Some x => cons_char x (parse_chars s'')
              | None => None
              end
        | EmptyString => None
        end
      else if Nat.ltb (nat_of_ascii c) 32 then None
      else cons_char c (parse_chars s')
  end.

Definition is_num_char (c : ascii) : bool :=
  let n := nat_of_ascii c in Ascii.eqb c "-" || (Nat.leb 48 n && Nat.leb n 57).

Fixpoint span_num (s : string) : string * string :=
  match s with
  | String c s' =>
      if is_num_char c then let '(t, r) := span_num s' in (String c t, r)
      else ("", s)
  | EmptyString => ("", s)
  end.

(** An integer in canonical form (and [-0], which Python reads as 0). *)
Definition parse_number (s : string) : option (value * string) :=
  let '(t, r) := span_num s in
  match NilZero.int_of_string t with
  | Some d =>
      let z := Z.of_int d in
      if (string_of_Z z =? t)%string || (t =? "-0")%string
      then Some (VInt z, r) else None
  | None => None
  end.

Definition parse_literal (lit : string) (v : value) (s : string)
  : option (value * string) :=
  match strip_prefix lit s with
  | Some r => Some (v, r)
  | None => None
  end.

Definition starts_with_char (c : ascii) (s : string) : option string :=
  match s with
  | String a r => if Ascii.eqb a c then Some r else None
  | EmptyString => None
  end.

Fixpoint parse_value (fuel : nat) (s : string) {struct fuel}
  : option (value * string) :=
  match fuel with
  | 0 => None
  | S fuel' =>
      match skip_ws s with
      | EmptyString => None
      | String c rest as t =>
          if Ascii.eqb c quote then
            match parse_chars rest with
            | Some (x, r) => Some (VStr x, r)
            | None => None
            end
          else if Ascii.eqb c "[" then
            match starts_with_char "]" (skip_ws rest) with
            | Some r => Some (VList [], r)
            | None => parse_elems fuel' rest []
            end
          else if Ascii.eqb c "{" then
            match starts_with_char "}" (skip_ws rest) with
            | Some r => Some (VDict [], r)
            | None => parse_members fuel' rest []
            end
          else if Ascii.eqb c "n" then parse_literal "null" VNone t
          else if Ascii.eqb c "t" then parse_literal "true" (VBool true) t
          else if Ascii.eqb c "f" then parse_literal "false" (VBool false) t
          else parse_number t
      end
  end
with parse_elems (fuel : nat) (s : string) (acc : list value) {struct fuel}
  : option (value * string) :=
  match fuel with
  | 0 => None
  | S fuel' =>
      match parse_value fuel' s with
      | Some (v, r) =>
          match skip_ws r with
          | String c r' =>
              if Ascii.eqb c "," then parse_elems fuel' r' (acc ++ [v])
              else if Ascii.eqb c "]" then Some (VList (acc ++ [v]), r')
              else None
          | EmptyString => None
          end
      | None => None
      end
  end
with parse_members (fuel : nat) (s : string) (acc : dict) {struct fuel}
  : option (value * string) :=
  match fuel with
  | 0 => None
  | S fuel' =>
      match starts_with_char quote (skip_ws s) with
      | Some rest =>
          match parse_chars rest with
          | Some (k, r) =>
              match starts_with_char ":" (skip_ws r) with
              | Some r1 =>
                  match parse_value fuel' r1 with
                  | Some (v, r2) =>
                      match skip_ws r2 with
                      | String c r3 =>
                          if Ascii.eqb c "," then
                            parse_members fuel' r3 (dict_set k v acc)
                          else if Ascii.eqb c "}" then
                            Some (VDict (dict_set k v acc), r3)
                          else None
                      | EmptyString => None
                      end
                  | None => None
                  end
              | None => None
              end
          | None => None
          end
      | None => None
      end
  end.

(** The whole text is one value; a key met again keeps its place and takes
    the later value, as in Python. *)
Definition ref_json_loads (s : string) : option value :=
  match parse_value (S (String.length s)) s with
  | Some (v, r) =>
      match skip_ws r with
      | EmptyString => Some v
      | String _ _ => None
      end
  | None => None
  end.

(** Vocabulary of the parser's proofs: texts made of number characters,
    tails that do not continue a number, texts that start a value. *)
Fixpoint all_num (s : string) : bool :=
  match s with
  | EmptyString => true
  | String c s' => is_num_char c && all_num s'
  end.

Definition tail_ok (rest : string) : bool :=
  match rest with
  | String c _ => negb (is_num_char c)
  | EmptyString => true
  end.

Definition value_start (s : string) : Prop :=
  exists c t, s = String c t /\ is_ws c = false
              /\ Ascii.eqb c "]" = false /\ Ascii.eqb c "}" = false.

(** What parsing a printed value gives, with enough fuel and a tail that
    does not continue a number. *)
Definition parses (v : value) : Prop :=
  wf_value v = true ->
  forall fuel rest,
    String.length (ref_json_dumps v) <= fuel -> tail_ok rest = true ->
    parse_value fuel (ref_json_dumps v +:+ rest) = Some (v, rest).

(** *** The rest *)

Definition ref_zlib_compress (b : list byte) : list byte := b.
Definition ref_zlib_decompress (b : list byte) : option (list byte) := Some b.

Fixpoint ref_repr (v : value) : string :=
  match v with
  | VNone => "None"
  | VBool true => "True"
  | VBool false => "False"
  | VInt z => string_of_Z z
  | VStr s => "'" +:+ s +:+ "'"
  | VList l => "[" +:+ join ", " (map ref_repr l) +:+ "]"
  | VDict d =>
      "{" +:+ join ", " (map (fun e => "'" +:+ fst e +:+ "': " +:+ ref_repr (snd e)) d)
      +:+ "}"
  end.

Definition RefLib : PyLib := {|
  sha256_hexdigest := ref_sha256_hexdigest;
  str_encode := ref_str_encode;
  bytes_decode := ref_bytes_decode;
  json_dumps := ref_json_dumps;
  json_loads := ref_json_loads;
  zlib_compress := ref_zlib_compress;
  zlib_decompress := ref_zlib_decompress;
  b64encode := ref_b64encode;
  b64decode := ref_b64decode;
  py_repr := ref_repr
|}.

(** ** Sample packages

    A small repository to run the model on.  Package [foo] is the spec's
    scenario: a manifest with a version and one source file [a.txt] holding
    [hello].  Package [bar] has no manifest, [lib] has a subdirectory and a
    manifest that comes with a [files] value, [empty] has an empty source
    directory. *)

Definition manifest_foo : string :=
  ref_json_dumps (VDict [("version", VStr "1.0.0")]).

Definition manifest_lib : dict :=
  [("name", VStr "lib"); ("version", VInt 2); ("files", VStr "stale")].

Definition sample_root : node :=
  Dir [("packages",
        Dir [("foo", Dir [("manifest.json", File manifest_foo);
                          ("source", Dir [("a.txt", File "hello")])]);
             ("bar", Dir [("source", Dir [("x.lua", File "print(1)")])]);
             ("lib", Dir [("manifest.json", File (ref_json_dumps (VDict manifest_lib)));
                          ("source",
                           Dir [("init.lua", File "return {}");
                                ("sub", Dir [("util.lua", File "return 1")])])]);
             ("empty", Dir [("manifest.json", File manifest_foo);
                            ("source", Dir [])])]);
       ("pool", Dir [])].

Definition sample_world : world := World sample_root [].

(** A repository whose only package has a manifest that is not JSON, and
    one whose only package has a manifest without a version. *)
Definition malformed_world : world :=
  World (Dir [("packages", Dir [("bad", Dir [("manifest.json", File "{")])]);
              ("pool", Dir [])]) [].

Definition manifest_nov : dict := [("name", VStr "nov")].

Definition unversioned_world : world :=
  World (Dir [("packages",
               Dir [("nov", Dir [("manifest.json",
                                  File (ref_json_dumps (VDict manifest_nov)));
                                 ("source", Dir [("a", File "A")])])]);
              ("pool", Dir [])]) [].

(** Repositories whose only package has a manifest that is JSON but not an
    object. *)
Definition null_world : world :=
  World (Dir [("packages", Dir [("nul", Dir [("manifest.json", File "null")])]);
              ("pool", Dir [])]) [].

Definition array_world : world :=
  World (Dir [("packages", Dir [("seq", Dir [("manifest.json", File "[1, 2]")])]);
              ("pool", Dir [])]) [].

(** A repository with a pool that is in use: an index and a file of
    someone else are there already; the second package has a manifest that
    is not JSON. *)
Definition aborting_world : world :=
  World (Dir [("packages",
               Dir [("foo", Dir [("manifest.json", File manifest_foo);
                                 ("source", Dir [("a.txt", File "hello")])]);
                    ("bad", Dir [("manifest.json", File "{")])]);
              ("pool", Dir [("index.json", File "old");
                            ("readme.txt", File "keep")])]) [].

(** A repository with a regular file beside the packages. *)
Definition stray_world : world :=
  World (Dir [("packages",
               Dir [("README", File "about");
                    ("foo", Dir [("manifest.json", File manifest_foo)])]);
              ("pool", Dir [])]) [].

(** A repository whose only package has a NUL in its version. *)
Definition manifest_nul : dict := [("version", VStr (String nul "1"))].

Definition nul_world : world :=
  World (Dir [("packages",
               Dir [("odd", Dir [("manifest.json",
                                  File (ref_json_dumps (VDict manifest_nul)))])]);
              ("pool", Dir [])]) [].

(** The document of package [foo], as the spec's scenario gives it. *)
Definition document_foo : value :=
  VDict [("version", VStr "1.0.0");
         ("files",
          VDict [("/a.txt",
                  VDict [("content", VStr "hello");
                         ("digest",
                          VStr "2cf24dba5fb0a30e26e83b2ac5b9e29e1b161e5c1fa7425e73043362938b9824")])])].

(** * Properties *)

(** ** Strings and paths *)

Lemma append_assoc (a b c : string) : (a +:+ b) +:+ c = a +:+ b +:+ c.
Proof. induction a as [|x a IH]; simpl; [reflexivity | now rewrite IH]. Qed.

Lemma append_nil_r (a : string) : a +:+ "" = a.
Proof. induction a as [|x a IH]; simpl; [reflexivity | now rewrite IH]. Qed.

Lemma has_char_app (c : ascii) (a b : string) :
  has_char c (a +:+ b) = has_char c a || has_char c b.
Proof.
  induction a as [|x a IH]; [reflexivity|].
  cbn [append has_char]. now rewrite IH, orb_assoc.
Qed.

Lemma name_bytes_app (a b : string) :
  name_bytes (a +:+ b) = name_bytes a + name_bytes b.
Proof.
  induction a as [|[b0 b1 b2 b3 b4 b5 b6 b7] a IH]; [reflexivity|].
  cbn [append name_bytes]. rewrite IH. now rewrite Nat.add_assoc.
Qed.

Lemma strip_prefix_app (p s : string) : strip_prefix p (p +:+ s) = Some s.
Proof.
  induction p as [|a p IH]; simpl; [reflexivity|].
  now rewrite Ascii.eqb_refl.
Qed.

Lemma removeprefix_app (p s : string) : removeprefix p (p +:+ s) = s.
Proof. unfold removeprefix. now rewrite strip_prefix_app. Qed.

Lemma split_nonempty (sep : ascii) (s : string) : split sep s <> [].
Proof.
  induction s as [|c s IH]; simpl; [discriminate|].
  destruct (Ascii.eqb c sep); [discriminate|].
  destruct (split sep s); [contradiction | discriminate].
Qed.

Lemma split_app_sep (sep : ascii) (a b : string) :
  split sep (a +:+ String sep b) = split sep a ++ split sep b.
Proof.
  induction a as [|c a IH]; simpl.
  - now rewrite Ascii.eqb_refl.
  - rewrite IH. destruct (Ascii.eqb c sep); [reflexivity|].
    pose proof (split_nonempty sep a) as Hne.
    destruct (split sep a); [contradiction | reflexivity].
Qed.

Lemma split_no_sep (sep : ascii) (s : string) :
  has_char sep s = false -> split sep s = [s].
Proof.
  induction s as [|c s IH]; simpl; [reflexivity|].
  intros H. apply orb_false_iff in H as [Hc Hs].
  rewrite Hc, (IH Hs). reflexivity.
Qed.

Lemma valid_name_inv (s : string) :
  valid_name s = true -> nontrivial s = true /\ has_char slash s = false.
Proof.
  unfold valid_name. intros H.
  apply andb_true_iff in H as [H Hs]. apply andb_true_iff in H as [Hn _].
  split; [exact Hn | now apply negb_true_iff].
Qed.

Lemma valid_name_nonempty (s : string) : valid_name s = true -> s <> "".
Proof.
  intros H ->. discriminate H.
Qed.

Lemma endswith_app_nonempty (c : ascii) (a b : string) :
  b <> "" -> endswith c (a +:+ b) = endswith c b.
Proof.
  intros Hb. induction a as [|x a IH]; simpl; [reflexivity|].
  rewrite <- IH. destruct (a +:+ b) eqn:E; [|reflexivity].
  destruct a; simpl in E; [contradiction | discriminate].
Qed.

Lemma endswith_has_char (c : ascii) (s : string) :
  has_char c s = false -> endswith c s = false.
Proof.
  induction s as [|x s IH]; simpl; [reflexivity|].
  intros H. apply orb_false_iff in H as [Hx Hs].
  destruct s; [exact Hx | now apply IH].
Qed.

Lemma startswith_slash_valid (s : string) :
  valid_name s = true -> startswith "/" s = false.
Proof.
  intros H. apply valid_name_inv in H as [_ H].
  destruct s as [|a s]; [reflexivity|].
  simpl in H. apply orb_false_iff in H as [Ha _].
  unfold startswith. cbn [strip_prefix].
  change "/"%char with slash. rewrite Ascii.eqb_sym, Ha. reflexivity.
Qed.

Lemma components_app_sep (a b : string) :
  components (a +:+ String slash b) = components a ++ components b.
Proof. unfold components. now rewrite split_app_sep, filter_app. Qed.

Lemma components_valid (s : string) : valid_name s = true -> components s = [s].
Proof.
  intros H. apply valid_name_inv in H as [Hn Hs].
  unfold components. rewrite (split_no_sep _ _ Hs). simpl. now rewrite Hn.
Qed.

Lemma join_cons (sep x : string) (l : list string) :
  l <> [] -> join sep (x :: l) = x +:+ sep +:+ join sep l.
Proof. destruct l; [contradiction | reflexivity]. Qed.

Lemma join_snoc (sep : string) (l : list string) (x : string) :
  l <> [] -> join sep (l ++ [x]) = join sep l +:+ sep +:+ x.
Proof.
  induction l as [|y l IH]; [contradiction|]. intros _.
  destruct l as [|z l]; [reflexivity|].
  change ((y :: z :: l) ++ [x]) with (y :: ((z :: l) ++ [x])).
  rewrite join_cons by (simpl; discriminate).
  rewrite IH by discriminate.
  rewrite (join_cons sep y (z :: l)) by discriminate.
  now rewrite !append_assoc.
Qed.

Lemma key_of_snoc (ds : list string) (f : string) :
  key_of (ds ++ [f]) = join "/" ds +:+ "/" +:+ f.
Proof.
  destruct ds as [|d ds]; [reflexivity|].
  rewrite <- join_snoc by discriminate.
  unfold key_of. destruct ds; reflexivity.
Qed.

Lemma components_join (cs : list string) :
  forallb valid_name cs = true -> components (join "/" cs) = cs.
Proof.
  induction cs as [|c cs IH]; [reflexivity|].
  intros H. apply andb_true_iff in H as [Hc Hcs].
  destruct cs as [|c' cs]; [now apply components_valid|].
  rewrite join_cons by discriminate.
  change ("/" +:+ join "/" (c' :: cs)) with (String slash (join "/" (c' :: cs))).
  rewrite components_app_sep, (components_valid _ Hc), (IH Hcs). reflexivity.
Qed.

Lemma components_key_of (cs : list string) :
  forallb valid_name cs = true -> components (key_of cs) = cs.
Proof.
  intros H. destruct cs as [|f [|c cs]].
  - reflexivity.
  - unfold key_of. change ("/" +:+ f) with ("" +:+ String slash f).
    rewrite components_app_sep. simpl in H.
    apply andb_true_iff in H as [Hf _]. now rewrite (components_valid _ Hf).
  - now apply components_join.
Qed.

Lemma join_valid_nonempty (cs : list string) :
  cs <> [] -> forallb valid_name cs = true -> join "/" cs <> "".
Proof.
  destruct cs as [|c cs]; [contradiction|]. intros _ H.
  apply andb_true_iff in H as [Hc _].
  pose proof (valid_name_nonempty _ Hc).
  destruct cs; simpl; destruct c; try contradiction; discriminate.
Qed.

Lemma endswith_join (cs : list string) :
  cs <> [] -> forallb valid_name cs = true -> endswith slash (join "/" cs) = false.
Proof.
  induction cs as [|c cs IH]; [contradiction|]. intros _ H.
  apply andb_true_iff in H as [Hc Hcs].
  destruct cs as [|c' cs].
  - apply endswith_has_char. now apply valid_name_inv in Hc.
  - rewrite join_cons by discriminate.
    rewrite endswith_app_nonempty.
    + rewrite endswith_app_nonempty; [now apply IH|].
      now apply join_valid_nonempty.
    + discriminate.
Qed.

(** [os.path.join] below a directory path that ends in a slash: the first
    level is appended as it is, deeper levels get their separator. *)
Lemma path_join_below (top : string) (ds : list string) (d : string) :
  endswith slash top = true ->
  forallb valid_name ds = true -> valid_name d = true ->
  path_join (top +:+ join "/" ds) d = top +:+ join "/" (ds ++ [d]).
Proof.
  intros Htop Hds Hd. unfold path_join.
  rewrite (startswith_slash_valid _ Hd).
  destruct ds as [|x ds].
  - simpl. rewrite append_nil_r, Htop, orb_true_r. reflexivity.
  - assert (Hne : join "/" (x :: ds) <> "") by (apply join_valid_nonempty; [discriminate | exact Hds]).
    rewrite endswith_app_nonempty by exact Hne.
    rewrite endswith_join by (try discriminate; exact Hds).
    replace ((top +:+ join "/" (x :: ds)) =? "")%string with false.
    + simpl orb. cbv iota. rewrite join_snoc by discriminate.
      now rewrite !append_assoc.
    + symmetry. apply String.eqb_neq. intros E.
      destruct top; simpl in E; [contradiction | discriminate].
Qed.

(** ** The file tree *)

Lemma node_nested_ind (P : node -> Prop) :
  (forall t, P (File t)) ->
  (forall es, Forall (fun e => P (snd e)) es -> P (Dir es)) ->
  forall n, P n.
Proof.
  intros HF HD. fix IH 1. intros [t|es]; [apply HF|].
  apply HD. induction es as [|[k c] es IHes]; constructor.
  - apply IH.
  - exact IHes.
Qed.

Lemma wf_node_dir (es : list (string * node)) :
  wf_node (Dir es) = true ->
  forallb valid_name (keys es) = true /\ distinct (keys es) = true
  /\ forallb (fun e => wf_node (snd e)) es = true.
Proof.
  simpl. intros H. apply andb_true_iff in H as [H H3].
  apply andb_true_iff in H as [H1 H2]. auto.
Qed.

Lemma wf_node_entries (es : list (string * node)) :
  wf_node (Dir es) = true ->
  Forall (fun e => valid_name (fst e) = true /\ wf_node (snd e) = true) es.
Proof.
  intros H. apply wf_node_dir in H as (H1 & _ & H3).
  unfold keys in H1. rewrite forallb_forall in H1, H3.
  apply Forall_forall. intros e He. split.
  - apply H1. now apply in_map.
  - now apply H3.
Qed.

Lemma relative_paths_app (path : string) (a b : list (string * list string * list string)) :
  relative_paths path (a ++ b) = relative_paths path a ++ relative_paths path b.
Proof. unfold relative_paths. apply flat_map_app. Qed.

Lemma relative_paths_cons (path root : string) (dirs files : list string)
    (walk : list (string * list string * list string)) :
  relative_paths path ((root, dirs, files) :: walk)
  = map (fun file => removeprefix path root +:+ "/" +:+ file) files
    ++ relative_paths path walk.
Proof. reflexivity. Qed.

Lemma forallb_snoc {A : Type} (f : A -> bool) (l : list A) (x : A) :
  forallb f l = true -> f x = true -> forallb f (l ++ [x]) = true.
Proof. intros Hl Hx. rewrite forallb_app, Hl. simpl. now rewrite Hx. Qed.

(** The walk below a source directory yields, for every file of the tree,
    the key [key_of] gives to the names that lead to it. *)
Lemma os_walk_keys (top : string) :
  endswith slash top = true ->
  forall (n : node) (ds : list string),
    wf_node n = true -> forallb valid_name ds = true ->
    relative_paths top (os_walk (top +:+ join "/" ds) n)
    = map (fun p => key_of (ds ++ fst p)) (tree_files n).
Proof.
  intros Htop. induction n as [t|es IH] using node_nested_ind; intros ds Hwf Hds.
  - reflexivity.
  - apply wf_node_entries in Hwf.
    cbn [os_walk tree_files].
    rewrite relative_paths_cons, removeprefix_app, map_app. f_equal.
    + clear IH. induction es as [|[f [t|sub]] es IHes]; [reflexivity| |].
      * inversion Hwf; subst. cbn. rewrite key_of_snoc. f_equal. now apply IHes.
      * inversion Hwf; subst. cbn. now apply IHes.
    + induction es as [|[d [t|sub]] es IHes]; [reflexivity| |].
      * inversion Hwf; subst. inversion IH; subst. cbn. now apply IHes.
      * inversion Hwf as [|? ? [Hd Hsub] Hwf']; subst.
        inversion IH as [|? ? IHsub IH']; subst. cbn [flat_map].
        rewrite relative_paths_app, map_app. f_equal; [|now apply IHes].
        cbn [fst snd] in *.
        rewrite path_join_below by assumption.
        rewrite (IHsub (ds ++ [d]) Hsub) by (now apply forallb_snoc).
        rewrite map_map. apply map_ext. intros p. cbn [fst].
        now rewrite <- app_assoc.
Qed.

Lemma distinct_NoDup (l : list string) : distinct l = true <-> NoDup l.
Proof.
  induction l as [|x l IH]; simpl.
  - split; [constructor | reflexivity].
  - rewrite andb_true_iff, negb_true_iff, IH. split.
    + intros [Hx Hl]. constructor; [|exact Hl].
      intros Hin. assert (existsb (String.eqb x) l = true) as E.
      { apply existsb_exists. exists x. split; [exact Hin | apply String.eqb_refl]. }
      congruence.
    + intros H. inversion H as [|? ? Hx Hl]; subst. split; [|exact Hl].
      destruct (existsb (String.eqb x) l) eqn:E; [|reflexivity].
      apply existsb_exists in E as (y & Hy & Exy).
      apply String.eqb_eq in Exy. subst y. contradiction.
Qed.

Lemma assoc_get_In {A : Type} (k : string) (v : A) (d : list (string * A)) :
  assoc_get k d = Some v -> In (k, v) d.
Proof.
  induction d as [|[k' v'] d IH]; simpl; [discriminate|].
  destruct (String.eqb_spec k' k) as [->|Hne].
  - intros [= ->]. now left.
  - intros H. right. now apply IH.
Qed.

Lemma In_assoc_get {A : Type} (k : string) (v : A) (d : list (string * A)) :
  NoDup (keys d) -> In (k, v) d -> assoc_get k d = Some v.
Proof.
  induction d as [|[k' v'] d IH]; simpl; [contradiction|].
  intros Hnd [E|Hin].
  - inversion E; subst. now rewrite String.eqb_refl.
  - inversion Hnd as [|? ? Hk' Hd]; subst.
    destruct (String.eqb_spec k' k) as [->|Hne].
    + exfalso. apply Hk'. unfold keys. apply in_map_iff. now exists (k, v).
    + now apply IH.
Qed.


(** The entries of [tree_files], first the directory's own files, then the
    files of its subdirectories. *)
Lemma in_tree_files (es : list (string * node)) (cs : list string) (t : string) :
  In (cs, t) (tree_files (Dir es)) <->
  (exists f, In (f, File t) es /\ cs = [f])
  \/ (exists d sub cs', In (d, Dir sub) es /\ In (cs', t) (tree_files (Dir sub))
                        /\ cs = d :: cs').
Proof.
  cbn [tree_files]. rewrite in_app_iff, !in_flat_map. split.
  - intros [[[f [t'|sub]] [Hin Hp]]|[[d [t'|sub]] [Hin Hp]]]; try contradiction.
    + destruct Hp as [[= <- <-]|[]]. left. now exists f.
    + apply in_map_iff in Hp as [[cs' t''] [[= <- <-] Hp]].
      right. now exists d, sub, cs'.
  - intros [[f [Hin ->]]|(d & sub & cs' & Hin & Hp & ->)].
    + left. exists (f, File t). split; [exact Hin | now left].
    + right. exists (d, Dir sub). split; [exact Hin|].
      apply in_map_iff. now exists (cs', t).
Qed.

Lemma tree_files_nonempty (n : node) (cs : list string) (t : string) :
  In (cs, t) (tree_files n) -> cs <> [].
Proof.
  destruct n as [t'|es]; [contradiction|].
  intros H. apply in_tree_files in H as [[f [_ ->]]|(d & sub & cs' & _ & _ & ->)];
    discriminate.
Qed.

(** Every listed file is found where the list says, under valid names. *)
Lemma tree_files_lookup (n : node) :
  wf_node n = true ->
  forall cs t, In (cs, t) (tree_files n) ->
    lookup n cs = Ok (File t) /\ forallb valid_name cs = true.
Proof.
  induction n as [t|es IH] using node_nested_ind; intros Hwf cs t' Hin.
  - contradiction.
  - pose proof (wf_node_entries _ Hwf) as Hes.
    apply wf_node_dir in Hwf as (_ & Hnd & _). apply distinct_NoDup in Hnd.
    rewrite Forall_forall in IH, Hes.
    apply in_tree_files in Hin as [[f [Hf ->]]|(d & sub & cs' & Hd & Hp & ->)].
    + cbn. rewrite (In_assoc_get _ _ _ Hnd Hf).
      destruct (Hes _ Hf) as [Hv _]. cbn in Hv. now rewrite Hv.
    + cbn [lookup forallb]. rewrite (In_assoc_get _ _ _ Hnd Hd).
      destruct (Hes _ Hd) as [Hv Hsub]. cbn in Hv, Hsub.
      destruct (IH _ Hd Hsub cs' t' Hp) as [Hl Hcs]. cbn in Hl.
      rewrite Hv. now split.
Qed.


Lemma NoDup_map_cons {A : Type} (x : A) (l : list (list A)) :
  NoDup l -> NoDup (map (cons x) l).
Proof.
  induction 1 as [|y l Hy Hl IHl]; cbn; constructor; [|exact IHl].
  intros Hin. apply in_map_iff in Hin as [z [[= ->] Hz]]. contradiction.
Qed.

(** No file is listed twice. *)
Lemma tree_files_NoDup (n : node) :
  wf_node n = true -> NoDup (map fst (tree_files n)).
Proof.
  induction n as [t|es IH] using node_nested_ind; intros Hwf; [constructor|].
  pose proof (wf_node_entries _ Hwf) as Hes.
  apply wf_node_dir in Hwf as (_ & Hnd & _). apply distinct_NoDup in Hnd.
  cbn [tree_files]. rewrite map_app. apply NoDup_app.
  - clear IH Hes. induction es as [|[f [t|sub]] es IHes]; [constructor| |];
      inversion Hnd as [|? ? Hf Hnd']; subst; cbn; [|now apply IHes].
    constructor; [|now apply IHes].
    intros Hin. apply in_map_iff in Hin as [[cs t'] [E Hin]]. cbn in E. subst cs.
    apply in_flat_map in Hin as [[f' [t''|sub]] [Hin Hp]]; [|contradiction].
    destruct Hp as [[= -> ->]|[]]. apply Hf. unfold keys.
    apply in_map_iff. now exists (f, File t').
  - induction es as [|[d [t|sub]] es IHes]; [constructor| |];
      inversion Hnd as [|? ? Hd Hnd']; subst;
      inversion IH as [|? ? IHsub IH']; subst;
      inversion Hes as [|? ? Hsub Hes']; subst; cbn [flat_map app];
      [now apply IHes|].
    destruct Hsub as [_ Hsub]. rewrite map_app. apply NoDup_app; [| now apply IHes |].
    + rewrite map_map. cbn [fst].
      rewrite <- (map_map fst (cons d)).
      apply NoDup_map_cons, IHsub, Hsub.
    + intros cs Hin Hin'.
      apply in_map_iff in Hin as [[cs1 t1] [E1 Hin]].
      apply in_map_iff in Hin as [[cs0 t0] [[= <- <-] _]]. cbn in E1. subst cs.
      apply in_map_iff in Hin' as [[cs2 t2] [E2 Hin']]. cbn in E2. subst cs2.
      apply in_flat_map in Hin' as [[d' [t'|sub']] [Hin' Hp]]; [contradiction|].
      apply in_map_iff in Hp as [[cs3 t3] [[= -> _] _]].
      apply Hd. unfold keys. apply in_map_iff. now exists (d, Dir sub').
  - intros cs Hown Hsub.
    apply in_map_iff in Hown as [[cs1 t1] [E1 Hown]]. cbn in E1. subst cs1.
    apply in_map_iff in Hsub as [[cs2 t2] [E2 Hsub]]. cbn in E2. subst cs2.
    apply in_flat_map in Hown as [[f [t|sub]] [_ Hp]]; [|contradiction].
    destruct Hp as [[= <- _]|[]].
    apply in_flat_map in Hsub as [[d [t'|sub]] [_ Hp]]; [contradiction|].
    apply in_map_iff in Hp as [[cs3 t3] [[= _ E] Hp]].
    apply tree_files_nonempty in Hp. cbn in E. congruence.
Qed.

(** ** The paths of the script *)

Lemma components_packages (rest : string) :
  components (PACKAGES_ROOT_SRC_DIR +:+ "/" +:+ rest) = "packages" :: components rest.
Proof.
  change (PACKAGES_ROOT_SRC_DIR +:+ "/" +:+ rest)
    with ("./packages" +:+ String slash rest).
  now rewrite components_app_sep.
Qed.

Lemma components_pool (rest : string) :
  components (PACKAGES_POOL_DIR +:+ "/" +:+ rest) = "pool" :: components rest.
Proof.
  change (PACKAGES_POOL_DIR +:+ "/" +:+ rest) with ("./pool" +:+ String slash rest).
  now rewrite components_app_sep.
Qed.

Lemma components_manifest (name : string) :
  valid_name name = true ->
  components (PACKAGES_ROOT_SRC_DIR +:+ "/" +:+ name +:+ "/" +:+ MANIFEST_FILE)
  = manifest_components name.
Proof.
  intros H. rewrite components_packages.
  change (name +:+ "/" +:+ MANIFEST_FILE) with (name +:+ String slash MANIFEST_FILE).
  now rewrite components_app_sep, (components_valid _ H).
Qed.

Lemma source_path_slash (name : string) :
  source_path name
  = (PACKAGES_ROOT_SRC_DIR +:+ "/" +:+ name +:+ "/" +:+ PACKAGES_SRC_DIR) +:+ "/".
Proof. unfold source_path. now rewrite !append_assoc. Qed.

Lemma source_path_file (name path : string) :
  PACKAGES_ROOT_SRC_DIR +:+ "/" +:+ name +:+ "/" +:+ PACKAGES_SRC_DIR +:+ "/" +:+ path
  = source_path name +:+ path.
Proof. unfold source_path. now rewrite !append_assoc. Qed.

Lemma endswith_source_path (name : string) : endswith slash (source_path name) = true.
Proof.
  rewrite source_path_slash. now rewrite endswith_app_nonempty by discriminate.
Qed.

Lemma components_source_file (name path : string) :
  valid_name name = true ->
  components (source_path name +:+ path) = source_components name ++ components path.
Proof.
  intros H. rewrite <- source_path_file, components_packages.
  change (name +:+ "/" +:+ PACKAGES_SRC_DIR +:+ "/" +:+ path)
    with (name +:+ String slash (PACKAGES_SRC_DIR +:+ String slash path)).
  now rewrite !components_app_sep, (components_valid _ H).
Qed.

Lemma components_source (name : string) :
  valid_name name = true -> components (source_path name) = source_components name.
Proof.
  intros H. rewrite <- (append_nil_r (source_path name)).
  now rewrite components_source_file by exact H.
Qed.

Lemma lookup_app (n : node) (cs cs' : list string) :
  lookup n (cs ++ cs')
  = match lookup n cs with
    | Ok n' => lookup n' cs'
    | Raise e => Raise e
    end.
Proof.
  revert n. induction cs as [|c cs IH]; intros n; [reflexivity|].
  cbn. destruct n as [t|es]; [reflexivity|].
  destruct (assoc_get c es); [apply IH | reflexivity].
Qed.

(** ** Dictionaries *)

Lemma assoc_get_set_same {A : Type} (k : string) (v : A) (d : list (string * A)) :
  assoc_get k (assoc_set k v d) = Some v.
Proof.
  induction d as [|[k' v'] d IH]; cbn.
  - now rewrite String.eqb_refl.
  - destruct (String.eqb_spec k' k) as [->|Hne]; cbn.
    + now rewrite String.eqb_refl.
    + apply String.eqb_neq in Hne. now rewrite Hne.
Qed.

Lemma assoc_get_set_other {A : Type} (k k' : string) (v : A) (d : list (string * A)) :
  k' <> k -> assoc_get k' (assoc_set k v d) = assoc_get k' d.
Proof.
  intros Hne. induction d as [|[k0 v0] d IH]; cbn.
  - apply not_eq_sym, String.eqb_neq in Hne. now rewrite Hne.
  - destruct (String.eqb_spec k0 k) as [->|Hk]; cbn.
    + apply not_eq_sym, String.eqb_neq in Hne. now rewrite Hne.
    + now rewrite IH.
Qed.

Lemma assoc_set_set {A : Type} (k : string) (v v' : A) (d : list (string * A)) :
  assoc_set k v' (assoc_set k v d) = assoc_set k v' d.
Proof.
  induction d as [|[k0 v0] d IH]; cbn.
  - now rewrite String.eqb_refl.
  - destruct (String.eqb_spec k0 k) as [->|Hk]; cbn.
    + now rewrite String.eqb_refl.
    + apply String.eqb_neq in Hk. now rewrite Hk, IH.
Qed.

Lemma assoc_set_fresh {A : Type} (k : string) (v : A) (d : list (string * A)) :
  ~ In k (keys d) -> assoc_set k v d = d ++ [(k, v)].
Proof.
  induction d as [|[k0 v0] d IH]; cbn; [reflexivity|].
  intros Hnin. destruct (String.eqb_spec k0 k) as [->|Hk].
  - exfalso. apply Hnin. now left.
  - rewrite IH; [reflexivity|]. intros Hin. apply Hnin. now right.
Qed.

Lemma keys_assoc_set {A : Type} (k : string) (v : A) (d : list (string * A)) :
  keys (assoc_set k v d)
  = match assoc_get k d with Some _ => keys d | None => keys d ++ [k] end.
Proof.
  unfold keys. induction d as [|[k0 v0] d IH]; cbn; [reflexivity|].
  destruct (String.eqb_spec k0 k) as [->|Hk]; cbn; [reflexivity|].
  rewrite IH. now destruct (assoc_get k d).
Qed.



Lemma dict_set_set (k : string) (v v' : value) (d : dict) :
  dict_set k v' (dict_set k v d) = dict_set k v' d.
Proof. apply assoc_set_set. Qed.

Lemma dict_get_set_same (k : string) (v : value) (d : dict) :
  dict_get k (dict_set k v d) = Some v.
Proof. apply assoc_get_set_same. Qed.

Lemma dict_get_set_other (k k' : string) (v : value) (d : dict) :
  k' <> k -> dict_get k' (dict_set k v d) = dict_get k' d.
Proof. apply assoc_get_set_other. Qed.

Lemma dict_set_same (k : string) (v : value) (d : dict) :
  dict_get k d = Some v -> dict_set k v d = d.
Proof.
  unfold dict_get, dict_set. induction d as [|[k' v'] d IH]; cbn; [discriminate|].
  destruct (String.eqb_spec k' k) as [->|Hk].
  - now intros [= ->].
  - intros H. now rewrite IH.
Qed.

(** ** Running the script *)

Lemma bind_ok {A B : Type} (m : M A) (k : A -> M B) (w w' : world) (a : A) :
  m w = (w', Ok a) -> bind m k w = k a w'.
Proof. unfold bind. now intros ->. Qed.

Lemma bind_raise {A B : Type} (m : M A) (k : A -> M B) (w w' : world) (e : exn) :
  m w = (w', Raise e) -> bind m k w = (w', Raise e).
Proof. unfold bind. now intros ->. Qed.

Lemma bind_inv {A B : Type} (m : M A) (k : A -> M B) (w w' : world) (b : B) :
  bind m k w = (w', Ok b) ->
  exists w1 a, m w = (w1, Ok a) /\ k a w1 = (w', Ok b).
Proof.
  unfold bind. destruct (m w) as [w1 [a|e]]; [|discriminate].
  intros H. now exists w1, a.
Qed.

Section Properties.
Context {L : PyLib}.

(** [get_manifest], case by case on what opening and parsing the manifest
    gives. *)
Lemma get_manifest_run (name : string) (w : world) :
  get_manifest name w
  = let w1 := World (fs w) (stdout w ++ ["[i] Reading manifest"]) in
    match read_text (fs w) (manifest_path name) with
    | Ok text =>
        match json_loads text with
        | Some v => (w1, Ok v)
        | None => (w1, Raise JSONDecodeError)
        end
    | Raise FileNotFoundError =>
        (World (fs w) (stdout w1 ++ ["[!] Package is invalid (no manifest)"]),
         Ok VNone)
    | Raise e => (w1, Raise e)
    end.
Proof.
  unfold get_manifest, bind, print, except_FileNotFoundError, open_read, json_load.
  fold (manifest_path name). cbn [fs stdout].
  destruct (read_text (fs w) (manifest_path name)) as [text|e].
  - destruct (json_loads text); reflexivity.
  - destruct e; reflexivity.
Qed.

Lemma read_manifest_absent (root : node) (name : string) :
  valid_name name = true -> manifest_absent root name = true ->
  read_text root (manifest_path name) = Raise FileNotFoundError.
Proof.
  intros Hn H. unfold read_text, manifest_path.
  rewrite (components_manifest _ Hn). unfold manifest_absent in H.
  change (manifest_components name) with (package_components name ++ [MANIFEST_FILE]).
  rewrite lookup_app.
  destruct (lookup root (package_components name)) as [[t|es]|e]; try discriminate.
  cbn. now destruct (assoc_get MANIFEST_FILE es).
Qed.

Lemma read_manifest_text (root : node) (name text : string) :
  valid_name name = true -> manifest_text root name = Some text ->
  read_text root (manifest_path name) = Ok text.
Proof.
  intros Hn H. unfold read_text, manifest_path.
  rewrite (components_manifest _ Hn). unfold manifest_text in H.
  destruct (lookup root (manifest_components name)) as [[t|es]|e]; try discriminate.
  now injection H as ->.
Qed.

(** The File Collector yields the key of every file of the source tree, in
    the order of the walk. *)
Lemma package_files_keys (root : node) (name : string) :
  valid_name name = true -> wf_source root name = true ->
  package_files root name = map (fun p => key_of (fst p)) (source_files root name).
Proof.
  intros Hn Hwf. unfold package_files, walk_from, source_files.
  rewrite (components_source _ Hn). unfold wf_source in Hwf.
  destruct (lookup root (source_components name)) as [src|e]; [|reflexivity].
  pose proof (os_walk_keys _ (endswith_source_path name) src [] Hwf eq_refl) as H.
  cbn [join app] in H. rewrite append_nil_r in H. exact H.
Qed.

Lemma source_files_lookup (root : node) (name : string) (cs : list string) (t : string) :
  wf_source root name = true -> In (cs, t) (source_files root name) ->
  lookup root (source_components name ++ cs) = Ok (File t)
  /\ forallb valid_name cs = true /\ cs <> [].
Proof.
  unfold wf_source, source_files. rewrite lookup_app.
  destruct (lookup root (source_components name)) as [src|e]; [|contradiction].
  intros Hwf Hin. destruct (tree_files_lookup _ Hwf _ _ Hin) as [Hl Hv].
  repeat split; [exact Hl | exact Hv | now apply tree_files_nonempty in Hin].
Qed.

Lemma read_source_file (root : node) (name : string) (cs : list string) (t : string) :
  valid_name name = true -> wf_source root name = true ->
  In (cs, t) (source_files root name) ->
  read_text root (source_path name +:+ key_of cs) = Ok t.
Proof.
  intros Hn Hwf Hin.
  destruct (source_files_lookup _ _ _ _ Hwf Hin) as (Hl & Hv & _).
  unfold read_text.
  now rewrite (components_source_file _ _ Hn), (components_key_of _ Hv), Hl.
Qed.

(** One turn of the loop of [build_package]. *)
Lemma build_file_run (name path : string) (d fl : dict) (w : world) :
  dict_get "files" d = Some (VDict fl) ->
  build_file name path (VDict d) w
  = let w1 := World (fs w) (stdout w ++ ["[+] " +:+ path]) in
    match read_text (fs w) (source_path name +:+ path) with
    | Ok content =>
        (w1, Ok (VDict (dict_set "files"
                          (VDict (dict_set path (file_entry content) fl)) d)))
    | Raise e => (w1, Raise e)
    end.
Proof.
  intros Hd. unfold build_file, bind, print, open_read, lift.
  rewrite source_path_file. cbn [fs stdout].
  destruct (read_text (fs w) (source_path name +:+ path)) as [content|e];
    [|reflexivity].
  unfold setitem2, getitem. rewrite Hd. reflexivity.
Qed.

(** The loop, when every file can be read. *)
Lemma for_each_build_file (name : string) (paths : list string) :
  forall (d fl : dict) (w : world),
    dict_get "files" d = Some (VDict fl) ->
    (forall p, In p paths ->
       exists t, read_text (fs w) (source_path name +:+ p) = Ok t) ->
    for_each paths (build_file name) (VDict d) w
    = (World (fs w) (stdout w ++ map (String.append "[+] ") paths),
       Ok (VDict (dict_set "files" (VDict (collect (fs w) name paths fl)) d))).
Proof.
  induction paths as [|p paths IH]; intros d fl w Hd Hread.
  - cbn. rewrite app_nil_r, (dict_set_same _ _ _ Hd). unfold ret.
    now destruct w.
  - cbn [for_each]. destruct (Hread p (or_introl eq_refl)) as [t Ht].
    erewrite bind_ok; [|rewrite (build_file_run _ _ _ _ _ Hd), Ht; reflexivity].
    rewrite (IH _ (dict_set p (file_entry t) fl)).
    + cbn [fs stdout map]. unfold collect. cbn [fold_left]. rewrite Ht.
      rewrite dict_set_set, <- app_assoc. reflexivity.
    + apply dict_get_set_same.
    + intros q Hq. cbn [fs]. apply Hread. now right.
Qed.

(** The loop, when it returns. *)
Lemma for_each_build_file_inv (name : string) (paths : list string) :
  forall (d fl : dict) (w w' : world) (r : value),
    dict_get "files" d = Some (VDict fl) ->
    for_each paths (build_file name) (VDict d) w = (w', Ok r) ->
    forall p, In p paths ->
      exists t, read_text (fs w) (source_path name +:+ p) = Ok t.
Proof.
  induction paths as [|p paths IH]; intros d fl w w' r Hd Hrun q Hq;
    [contradiction|].
  cbn [for_each] in Hrun. apply bind_inv in Hrun as (w1 & m1 & Hstep & Hrest).
  rewrite (build_file_run _ _ _ _ _ Hd) in Hstep. cbv zeta in Hstep.
  destruct (read_text (fs w) (source_path name +:+ p)) as [t|e] eqn:Hp;
    [|discriminate].
  destruct Hq as [<-|Hq]; [now exists t|].
  injection Hstep as <- <-.
  apply (IH _ _ _ _ _ (dict_get_set_same _ _ _) Hrest q Hq).
Qed.

(** [build_package], case by case on what [get_manifest] gives. *)
Lemma build_package_run (name : string) (w : world) :
  build_package name w
  = match get_manifest name w with
    | (w0, Ok VNone) => (w0, Ok VNone)
    | (w0, Ok (VDict m)) =>
        for_each (package_files (fs w0) name) (build_file name)
                 (VDict (dict_set "files" (VDict []) m)) w0
    | (w0, Ok _) => (w0, Raise TypeError)
    | (w0, Raise e) => (w0, Raise e)
    end.
Proof.
  unfold build_package, bind at 1.
  destruct (get_manifest name w) as [w0 [[|b|z|s|l|m]|e]]; reflexivity.
Qed.

Lemma get_manifest_fs (name : string) (w w' : world) (r : result value) :
  get_manifest name w = (w', r) -> fs w' = fs w.
Proof.
  rewrite get_manifest_run. cbv zeta.
  destruct (read_text (fs w) (manifest_path name)) as [text|e].
  - destruct (json_loads text); now intros [= <- _].
  - destruct e; now intros [= <- _].
Qed.

(** [write_package], case by case on what the build, the version lookup,
    the two writes and the decoding of the payload give. *)
Lemma write_package_run (name : string) (w : world) :
  write_package name w
  = match build_package name (World (fs w) (stdout w ++ ["Packaging " +:+ name])) with
    | (w2, Ok VNone) => (w2, Ok VNone)
    | (w2, Ok package) =>
        match getitem package "version" with
        | Raise e => (w2, Raise e)
        | Ok version =>
            match write_text (fs w2) (pool_path name version) "" with
            | Raise e => (w2, Raise e)
            | Ok root1 =>
                match bytes_decode (compress package) with
                | None => (World root1 (stdout w2), Raise UnicodeDecodeError)
                | Some text =>
                    match write_text root1 (pool_path name version) text with
                    | Raise e => (World root1 (stdout w2), Raise e)
                    | Ok root2 =>
                        (World root2 (stdout w2), Ok (index_entry package version))
                    end
                end
            end
        end
    | (w2, Raise e) => (w2, Raise e)
    end.
Proof.
  unfold write_package, bind at 1, print at 1. unfold bind at 1.
  destruct (build_package name _) as [w2 [package|e]]; [|reflexivity].
  assert (forall package,
    (let data := compress package in
     version <- lift (getitem package "version") ;;
     open_write (pool_path name version) "" ;;;
     text <- decode_text data ;;
     open_write (pool_path name version) text ;;;
     version0 <- lift (getitem package "version") ;;
     ret (VDict [("version", version0); ("digest", VStr (sha256_hexdigest data))])) w2
    = match getitem package "version" with
      | Raise e => (w2, Raise e)
      | Ok version =>
          match write_text (fs w2) (pool_path name version) "" with
          | Raise e => (w2, Raise e)
          | Ok root1 =>
              match bytes_decode (compress package) with
              | None => (World root1 (stdout w2), Raise UnicodeDecodeError)
              | Some text =>
                  match write_text root1 (pool_path name version) text with
                  | Raise e => (World root1 (stdout w2), Raise e)
                  | Ok root2 =>
                      (World root2 (stdout w2), Ok (index_entry package version))
                  end
              end
          end
      end) as Hrest.
  { intros pkg. cbv zeta. unfold bind, lift, open_write, decode_text, ret, raise.
    destruct (getitem pkg "version") as [version|e] eqn:Hv; [|reflexivity].
    destruct (write_text (fs w2) (pool_path name version) "") as [root1|e];
      [|reflexivity].
    cbn [fs stdout].
    destruct (bytes_decode (compress pkg)) as [text|]; [|reflexivity].
    cbn [fs stdout].
    destruct (write_text root1 (pool_path name version) text); reflexivity. }
  destruct package; try apply Hrest. reflexivity.
Qed.

(** *** What a run leaves alone *)

Lemma for_each_build_file_fs (name : string) (paths : list string) :
  forall (m : value) (w w' : world) (r : result value),
    for_each paths (build_file name) m w = (w', r) -> fs w' = fs w.
Proof.
  induction paths as [|p paths IH]; intros m w w' r.
  - cbn. unfold ret. now intros [= <- _].
  - cbn [for_each]. unfold bind.
    destruct (build_file name p m w) as [w1 [m1|e]] eqn:Hstep.
    + assert (fs w1 = fs w) as <-.
      { revert Hstep. unfold build_file, bind, print, open_read, lift. cbn [fs].
        destruct (read_text _ _); now intros [= <- _]. }
      apply IH.
    + revert Hstep. unfold build_file, bind, print, open_read, lift. cbn [fs].
      destruct (read_text _ _); [|intros [= <- _]; now intros [= <- _]].
      intros [= <- _]. now intros [= <- _].
Qed.

Lemma build_package_fs (name : string) (w w' : world) (r : result value) :
  build_package name w = (w', r) -> fs w' = fs w.
Proof.
  rewrite build_package_run.
  destruct (get_manifest name w) as [w0 r0] eqn:Hm.
  apply get_manifest_fs in Hm. rewrite <- Hm.
  destruct r0 as [[|b|z|s|l|m]|e]; try (now intros [= <- _]).
  apply for_each_build_file_fs.
Qed.

(** A write that succeeds has stored the file. *)
Lemma write_text_store (root root' : node) (path t : string) :
  write_text root path t = Ok root' -> store root (components path) t = Ok root'.
Proof.
  unfold write_text. destruct (has_char nul path); [discriminate|].
  now destruct (Nat.leb PATH_MAX (name_bytes path)).
Qed.

(** A write below the pool leaves the packages directory as it is. *)
Lemma store_pool_frame (root root' : node) (cs cs' : list string) (t : string) :
  store root ("pool" :: cs) t = Ok root' ->
  lookup root' ("packages" :: cs') = lookup root ("packages" :: cs').
Proof.
  cbn [store]. destruct root as [t0|es]; [discriminate|].
  destruct (assoc_get "pool" es) as [n'|].
  - destruct (store n' cs t) as [n''|e]; [|discriminate].
    intros [= <-]. cbn [lookup].
    now rewrite assoc_get_set_other by discriminate.
  - destruct cs; [|discriminate]. intros [= <-]. cbn [lookup].
    now rewrite assoc_get_set_other by discriminate.
Qed.

Lemma write_pool_frame (root root' : node) (rest t : string) (cs : list string) :
  write_text root (PACKAGES_POOL_DIR +:+ "/" +:+ rest) t = Ok root' ->
  lookup root' ("packages" :: cs) = lookup root ("packages" :: cs).
Proof.
  intros H. apply write_text_store in H. rewrite components_pool in H.
  exact (store_pool_frame _ _ _ _ _ H).
Qed.

Lemma write_package_frame (name : string) (w w' : world) (r : result value)
    (cs : list string) :
  write_package name w = (w', r) ->
  lookup (fs w') ("packages" :: cs) = lookup (fs w) ("packages" :: cs).
Proof.
  rewrite write_package_run.
  destruct (build_package name _) as [w2 r2] eqn:Hb.
  apply build_package_fs in Hb. cbn [fs] in Hb. rewrite <- Hb.
  assert (forall package,
    match getitem package "version" with
    | Raise e => (w2, Raise e)
    | Ok version =>
        match write_text (fs w2) (pool_path name version) "" with
        | Raise e => (w2, Raise e)
        | Ok root1 =>
            match bytes_decode (compress package) with
            | None => (World root1 (stdout w2), Raise UnicodeDecodeError)
            | Some text =>
                match write_text root1 (pool_path name version) text with
                | Raise e => (World root1 (stdout w2), Raise e)
                | Ok root2 =>
                    (World root2 (stdout w2), Ok (index_entry package version))
                end
            end
        end
    end = (w', r) ->
    lookup (fs w') ("packages" :: cs) = lookup (fs w2) ("packages" :: cs)) as H.
  { intros package.
    destruct (getitem package "version") as [version|e]; [|now intros [= <- _]].
    destruct (write_text (fs w2) _ "") as [root1|e] eqn:H1; [|now intros [= <- _]].
    apply (write_pool_frame _ _ _ _ cs) in H1.
    destruct (bytes_decode _) as [text|]; [|now intros [= <- _]].
    destruct (write_text root1 _ text) as [root2|e] eqn:H2; [|now intros [= <- _]].
    apply (write_pool_frame _ _ _ _ cs) in H2.
    intros [= <- _]. cbn [fs]. congruence. }
  destruct r2 as [package|e]; [|now intros [= <- _]].
  destruct package; try apply H. now intros [= <- _].
Qed.

Lemma index_package_frame (name : string) (acc : dict) (w w' : world)
    (r : result dict) (cs : list string) :
  index_package name acc w = (w', r) ->
  lookup (fs w') ("packages" :: cs) = lookup (fs w) ("packages" :: cs).
Proof.
  unfold index_package, bind.
  destruct (write_package name w) as [w1 r1] eqn:Hw.
  apply (write_package_frame _ _ _ _ cs) in Hw. rewrite <- Hw.
  destruct r1 as [idx|e]; [|now intros [= <- _]].
  destruct idx; unfold ret; now intros [= <- _].
Qed.

Lemma manifest_absent_frame (root root' : node) (name : string) :
  (forall cs, lookup root' ("packages" :: cs) = lookup root ("packages" :: cs)) ->
  manifest_absent root' name = manifest_absent root name.
Proof. intros H. unfold manifest_absent, package_components. now rewrite H. Qed.

(** *** How a run ends *)

(** An exception in one package ends the loop over the packages. *)
Lemma build_all_raise (pre rest : list string) (name : string) (acc acc' : dict)
    (w w1 w2 : world) (e : exn) :
  for_each pre index_package acc w = (w1, Ok acc') ->
  write_package name w1 = (w2, Raise e) ->
  for_each (pre ++ name :: rest) index_package acc w = (w2, Raise e).
Proof.
  revert acc w. induction pre as [|x pre IH]; intros acc w Hpre Hw.
  - cbn in Hpre. unfold ret in Hpre. injection Hpre as <- <-.
    cbn [app for_each]. apply bind_raise.
    unfold index_package. now apply bind_raise.
  - cbn [app for_each] in *. unfold bind in Hpre |- *.
    destruct (index_package x acc w) as [w0 [acc0|e0]]; [|discriminate].
    now apply IH.
Qed.

(** ... and the run: the index is not written. *)
Lemma main_raise (pre rest : list string) (name : string) (acc : dict)
    (w w1 w2 : world) (e : exn) :
  scandir (fs w) PACKAGES_ROOT_SRC_DIR = Ok (pre ++ name :: rest) ->
  build_all pre w = (w1, Ok acc) ->
  write_package name w1 = (w2, Raise e) ->
  main w = (w2, Raise e).
Proof.
  intros Hscan Hpre Hw. unfold main.
  erewrite bind_ok; [|unfold get_all_packages; now rewrite Hscan].
  apply bind_raise. unfold build_all in *. eapply build_all_raise; eassumption.
Qed.

Lemma store_lookup (cs : list string) :
  forall (n n' : node) (t : string),
    store n cs t = Ok n' -> lookup n' cs = Ok (File t).
Proof.
  induction cs as [|c cs IH]; intros n n' t; cbn [store lookup].
  - destruct n; [now intros [= <-] | discriminate].
  - destruct n as [t0|es]; [discriminate|].
    destruct (Nat.ltb NAME_MAX (name_bytes c)); [discriminate|].
    destruct (assoc_get c es) as [n0|].
    + destruct (store n0 cs t) as [n1|e] eqn:Hs; [|discriminate].
      intros [= <-]. cbn. rewrite assoc_get_set_same. now apply (IH n0).
    + destruct cs; [|discriminate]. intros [= <-]. cbn.
      now rewrite assoc_get_set_same.
Qed.

(** A file just written reads back as written. *)
Lemma read_after_write (root root' : node) (path t : string) :
  write_text root path t = Ok root' -> read_text root' path = Ok t.
Proof.
  intros H. apply write_text_store in H. unfold read_text.
  now rewrite (store_lookup _ _ _ _ H).
Qed.

(** A package without a manifest is announced, reported and skipped. *)
Lemma write_package_absent (name : string) (w : world) :
  valid_name name = true -> manifest_absent (fs w) name = true ->
  write_package name w
  = (World (fs w)
       (stdout w ++ ["Packaging " +:+ name; "[i] Reading manifest";
                     "[!] Package is invalid (no manifest)"]),
     Ok VNone).
Proof.
  intros Hn Habs. rewrite write_package_run, build_package_run, get_manifest_run.
  cbn [fs stdout]. rewrite (read_manifest_absent _ _ Hn Habs).
  now rewrite <- !app_assoc.
Qed.

Lemma index_package_absent (name : string) (acc : dict) (w : world) :
  valid_name name = true -> manifest_absent (fs w) name = true ->
  index_package name acc w
  = (World (fs w)
       (stdout w ++ ["Packaging " +:+ name; "[i] Reading manifest";
                     "[!] Package is invalid (no manifest)"]),
     Ok acc).
Proof.
  intros Hn Habs. unfold index_package.
  erewrite bind_ok; [|now apply write_package_absent]. reflexivity.
Qed.

(** A package without a manifest gets no key in the index being built. *)
Lemma build_all_absent (name : string) (names : list string) :
  valid_name name = true ->
  forall (acc packages : dict) (w w' : world),
    manifest_absent (fs w) name = true ->
    dict_get name acc = None ->
    for_each names index_package acc w = (w', Ok packages) ->
    dict_get name packages = None.
Proof.
  intros Hn. induction names as [|x names IH]; intros acc packages w w' Habs Hacc.
  - cbn. unfold ret. now intros [= _ <-].
  - cbn [for_each]. intros Hrun.
    apply bind_inv in Hrun as (w1 & acc1 & Hstep & Hrest).
    assert (manifest_absent (fs w1) name = true) as Habs1.
    { rewrite <- Habs. apply manifest_absent_frame. intros cs.
      eapply index_package_frame, Hstep. }
    apply (IH acc1 packages w1 w' Habs1); [|exact Hrest].
    destruct (String.eqb_spec x name) as [->|Hx].
    + rewrite (index_package_absent _ _ _ Hn Habs) in Hstep. now injection Hstep as _ <-.
    + revert Hstep. unfold index_package, bind.
      destruct (write_package x w) as [w2 [idx|e]]; [|discriminate].
      destruct idx; unfold ret; intros [= _ <-]; try exact Hacc;
        rewrite dict_get_set_other by (now apply not_eq_sym); exact Hacc.
Qed.

Lemma main_inv (w w' : world) :
  main w = (w', Ok tt) ->
  exists names packages w1,
    scandir (fs w) PACKAGES_ROOT_SRC_DIR = Ok names
    /\ build_all names w = (w1, Ok packages)
    /\ write_text (fs w1) index_path (json_dumps (VDict packages)) = Ok (fs w').
Proof.
  unfold main. intros H.
  apply bind_inv in H as (w0 & names & Hscan & H).
  apply bind_inv in H as (w1 & packages & Hbuild & H).
  apply bind_inv in H as (w2 & [] & Hprint & H).
  unfold get_all_packages in Hscan. injection Hscan as <- Hscan.
  unfold print in Hprint. injection Hprint as <-.
  unfold open_write in H. cbn [fs stdout] in H.
  destruct (write_text (fs w1) index_path _) as [root'|e] eqn:Hw; [|discriminate].
  injection H as <-. exists names, packages, w1. auto.
Qed.

(** C3.  Given a package whose manifest file is absent, the Manifest Loader
    reports it and returns [None] without raising; given a manifest that is
    present but does not parse as JSON, it raises, and the exception ends
    the whole run before the index is written. *)
Theorem get_manifest_absent_or_malformed (name : string) (w : world) :
  valid_name name = true ->
  (manifest_absent (fs w) name = true ->
   get_manifest name w
   = (World (fs w)
        (stdout w ++ ["[i] Reading manifest";
                      "[!] Package is invalid (no manifest)"]),
      Ok VNone))
  /\ (forall text,
        manifest_text (fs w) name = Some text -> json_loads text = None ->
        get_manifest name w
        = (World (fs w) (stdout w ++ ["[i] Reading manifest"]),
           Raise JSONDecodeError)
        /\ forall w0 pre rest acc,
             scandir (fs w0) PACKAGES_ROOT_SRC_DIR = Ok (pre ++ name :: rest) ->
             build_all pre w0 = (w, Ok acc) ->
             exists w', main w0 = (w', Raise JSONDecodeError) /\ fs w' = fs w).
Proof.
  intros Hn. split.
  - intros Habs. rewrite get_manifest_run, (read_manifest_absent _ _ Hn Habs).
    cbn. now rewrite <- app_assoc.
  - intros text Htext Hparse. split.
    + now rewrite get_manifest_run, (read_manifest_text _ _ _ Hn Htext), Hparse.
    + intros w0 pre rest acc Hscan Hpre.
      eexists. split.
      * eapply main_raise; [exact Hscan | exact Hpre |].
        rewrite write_package_run, build_package_run, get_manifest_run.
        cbn [fs stdout]. rewrite (read_manifest_text _ _ _ Hn Htext), Hparse.
        reflexivity.
      * reflexivity.
Qed.

(** C5.  For a package whose manifest file is missing, [write_package]
    writes nothing and returns [None], the loop goes on to the remaining
    packages with the index as it was, and the [index.json] a completed run
    writes has no key for the package. *)
Theorem missing_manifest_package_skipped (name : string) (w : world) :
  valid_name name = true -> manifest_absent (fs w) name = true ->
  let w' := World (fs w)
              (stdout w ++ ["Packaging " +:+ name; "[i] Reading manifest";
                            "[!] Package is invalid (no manifest)"]) in
  write_package name w = (w', Ok VNone)
  /\ (forall acc rest,
        for_each (name :: rest) index_package acc w
        = for_each rest index_package acc w')
  /\ (forall w1,
        main w = (w1, Ok tt) ->
        exists packages,
          read_text (fs w1) index_path = Ok (json_dumps (VDict packages))
          /\ dict_get name packages = None).
Proof.
  intros Hn Habs w'. repeat split.
  - now apply write_package_absent.
  - intros acc rest. cbn [for_each].
    erewrite bind_ok; [reflexivity | now apply index_package_absent].
  - intros w1 Hmain.
    apply main_inv in Hmain as (names & packages & w2 & _ & Hbuild & Hwrite).
    exists packages. split.
    + now apply read_after_write in Hwrite.
    + unfold build_all in Hbuild.
      now apply (build_all_absent name names Hn [] packages w w2 Habs).
Qed.

(** *** The package document *)

Lemma NoDup_map_on {A B : Type} (f : A -> B) (l : list A) :
  (forall x y, In x l -> In y l -> f x = f y -> x = y) ->
  NoDup l -> NoDup (map f l).
Proof.
  intros Hinj Hl. induction Hl as [|x l Hx Hl IH]; cbn; constructor.
  - intros Hin. apply in_map_iff in Hin as (y & Hxy & Hy).
    assert (y = x) as -> by (apply Hinj; [now right | now left | exact Hxy]).
    contradiction.
  - apply IH. intros a b Ha Hb. apply Hinj; now right.
Qed.

(** Different files of a source tree have different keys. *)
Lemma key_of_inj (cs cs' : list string) :
  forallb valid_name cs = true -> forallb valid_name cs' = true ->
  key_of cs = key_of cs' -> cs = cs'.
Proof.
  intros H H' E. rewrite <- (components_key_of _ H), <- (components_key_of _ H').
  now rewrite E.
Qed.

Lemma source_files_NoDup (root : node) (name : string) :
  wf_source root name = true -> NoDup (map fst (source_files root name)).
Proof.
  unfold wf_source, source_files.
  destruct (lookup root (source_components name)); [|constructor].
  apply tree_files_NoDup.
Qed.

Lemma source_keys_NoDup (root : node) (name : string) :
  wf_source root name = true ->
  NoDup (map (fun p => key_of (fst p)) (source_files root name)).
Proof.
  intros Hwf. rewrite <- (map_map fst key_of). apply NoDup_map_on.
  - intros cs cs' Hin Hin' E.
    apply in_map_iff in Hin as [[? t] [<- Hin]].
    apply in_map_iff in Hin' as [[? t'] [<- Hin']].
    destruct (source_files_lookup _ _ _ _ Hwf Hin) as (_ & Hv & _).
    destruct (source_files_lookup _ _ _ _ Hwf Hin') as (_ & Hv' & _).
    now apply key_of_inj.
  - now apply source_files_NoDup.
Qed.

Lemma collect_entries (root : node) (name : string) (l : list (list string * string)) :
  forall acc : dict,
    (forall p, In p l ->
       read_text root (source_path name +:+ key_of (fst p)) = Ok (snd p)) ->
    NoDup (map (fun p => key_of (fst p)) l) ->
    (forall p, In p l -> ~ In (key_of (fst p)) (keys acc)) ->
    collect root name (map (fun p => key_of (fst p)) l) acc
    = acc ++ map (fun p => (key_of (fst p), file_entry (snd p))) l.
Proof.
  induction l as [|p l IH]; intros acc Hread Hnd Hfresh.
  - cbn. now rewrite app_nil_r.
  - unfold collect in *. cbn [map fold_left].
    rewrite (Hread p (or_introl eq_refl)).
    inversion Hnd as [|? ? Hp Hl]; subst.
    unfold dict_set. rewrite assoc_set_fresh by (apply Hfresh; now left).
    rewrite IH.
    + now rewrite <- app_assoc.
    + intros q Hq. apply Hread. now right.
    + exact Hl.
    + intros q Hq Hin. unfold keys in Hin. rewrite map_app, in_app_iff in Hin.
      destruct Hin as [Hin|[E|[]]].
      * apply (Hfresh q); [now right | exact Hin].
      * apply Hp. cbn in E. rewrite E. apply in_map_iff. now exists q.
Qed.

Lemma collect_source_files (root : node) (name : string) :
  valid_name name = true -> wf_source root name = true ->
  collect root name (package_files root name) [] = files_of root name.
Proof.
  intros Hn Hwf. rewrite (package_files_keys _ _ Hn Hwf).
  rewrite collect_entries; [reflexivity | | | ].
  - intros [cs t] Hin. now apply read_source_file.
  - now apply source_keys_NoDup.
  - intros p _ [].
Qed.

(** The Package Assembler on a manifest that is a JSON object: every file
    is read, and the document is the manifest with its [files] set. *)
Lemma build_package_dict (name : string) (w : world) (text : string) (m : dict) :
  valid_name name = true -> wf_source (fs w) name = true ->
  manifest_text (fs w) name = Some text -> json_loads text = Some (VDict m) ->
  build_package name w
  = (World (fs w)
       (stdout w ++ "[i] Reading manifest"
          :: map (String.append "[+] ") (package_files (fs w) name)),
     Ok (VDict (dict_set "files" (VDict (files_of (fs w) name)) m))).
Proof.
  intros Hn Hwf Htext Hparse.
  rewrite build_package_run, get_manifest_run.
  rewrite (read_manifest_text _ _ _ Hn Htext), Hparse. cbv zeta. cbn [fs].
  rewrite (for_each_build_file _ _ _ []).
  - cbn [fs stdout]. rewrite dict_set_set, (collect_source_files _ _ Hn Hwf).
    now rewrite <- app_assoc.
  - apply dict_get_set_same.
  - cbn [fs]. intros p Hp. rewrite (package_files_keys _ _ Hn Hwf) in Hp.
    apply in_map_iff in Hp as [[cs t] [<- Hin]]. exists t.
    now apply read_source_file.
Qed.

(** C10.  The document [build_package] returns is the loaded manifest with
    its [files] key set to the mapping computed from the source tree: every
    other key keeps its value, and a [files] value the manifest came with is
    replaced. *)
Theorem build_package_keeps_manifest_keys
    (name : string) (w w0 w' : world) (m doc : dict) :
  get_manifest name w = (w0, Ok (VDict m)) ->
  build_package name w = (w', Ok (VDict doc)) ->
  let files := collect (fs w) name (package_files (fs w) name) [] in
  doc = dict_set "files" (VDict files) m
  /\ (forall k, k <> "files" -> dict_get k doc = dict_get k m)
  /\ dict_get "files" doc = Some (VDict files).
Proof.
  intros Hm Hb files.
  assert (doc = dict_set "files" (VDict files) m) as ->.
  { rewrite build_package_run, Hm in Hb.
    pose proof (get_manifest_fs _ _ _ _ Hm) as Hfs.
    pose proof (for_each_build_file_inv _ _ _ [] _ _ _
                  (dict_get_set_same _ _ _) Hb) as Hread.
    rewrite (for_each_build_file _ _ _ [] _ (dict_get_set_same _ _ _) Hread) in Hb.
    injection Hb as _ <-. subst files. now rewrite dict_set_set, Hfs. }
  repeat split.
  - intros k Hk. now apply dict_get_set_other.
  - apply dict_get_set_same.
Qed.

(** C9.  A package whose manifest is a JSON object without a [version] key
    is not skipped: the document is assembled, then the version lookup
    raises [KeyError] before anything is written to the pool, and the
    exception ends the run. *)
Theorem missing_version_aborts (name : string) (w : world) (text : string) (m : dict) :
  valid_name name = true -> wf_source (fs w) name = true ->
  manifest_text (fs w) name = Some text -> json_loads text = Some (VDict m) ->
  dict_get "version" m = None ->
  exists w',
    build_package name (World (fs w) (stdout w ++ ["Packaging " +:+ name]))
    = (w', Ok (VDict (dict_set "files" (VDict (files_of (fs w) name)) m)))
    /\ write_package name w = (w', Raise (KeyError "version"))
    /\ fs w' = fs w
    /\ forall w0 pre rest acc,
         scandir (fs w0) PACKAGES_ROOT_SRC_DIR = Ok (pre ++ name :: rest) ->
         build_all pre w0 = (w, Ok acc) ->
         main w0 = (w', Raise (KeyError "version")).
Proof.
  intros Hn Hwf Htext Hparse Hver.
  pose proof (build_package_dict name
                (World (fs w) (stdout w ++ ["Packaging " +:+ name])) text m
                Hn Hwf Htext Hparse) as Hb.
  cbn [fs stdout] in Hb.
  assert (write_package name w
          = (World (fs w)
               ((stdout w ++ ["Packaging " +:+ name]) ++ "[i] Reading manifest"
                  :: map (String.append "[+] ") (package_files (fs w) name)),
             Raise (KeyError "version"))) as Hw.
  { rewrite write_package_run, Hb. unfold getitem.
    rewrite dict_get_set_other by discriminate. now rewrite Hver. }
  eexists. split; [exact Hb|]. split; [exact Hw|]. split; [reflexivity|].
  intros w0 pre rest acc Hscan Hpre. eapply main_raise; eassumption.
Qed.

(** *** The archive *)



Lemma keys_files_of (root : node) (name : string) :
  keys (files_of root name) = map (fun p => key_of (fst p)) (source_files root name).
Proof. unfold keys, files_of. now rewrite map_map. Qed.


(** Decoding undoes the Archive Encoder on every value that Python can hold. *)
Lemma decode_compress (doc : value) :
  archive_laws -> wf_value doc = true -> decode (compress doc) = Some doc.
Proof.
  intros (Hjson & Htext & Hzlib & Hb64) Hwf. unfold decode, compress.
  now rewrite Hb64, Hzlib, Htext, Hjson.
Qed.

(** C6.  Round trip: decoding the encoder's output (base64-decode,
    decompress, parse JSON) gives back the document that was encoded. *)
Theorem decode_compress_roundtrip (doc : value) :
  archive_laws -> wf_value doc = true -> decode (compress doc) = Some doc.
Proof. apply decode_compress. Qed.


(** *** The pool and the index *)

(** What [write_package] has done when it returns an index entry. *)
Lemma write_package_inv (name : string) (w w' : world) (idx : value) :
  write_package name w = (w', Ok idx) ->
  (idx = VNone
   /\ build_package name (World (fs w) (stdout w ++ ["Packaging " +:+ name]))
      = (w', Ok VNone))
  \/ exists w2 package version text,
       build_package name (World (fs w) (stdout w ++ ["Packaging " +:+ name]))
       = (w2, Ok package)
       /\ package <> VNone
       /\ getitem package "version" = Ok version
       /\ bytes_decode (compress package) = Some text
       /\ read_text (fs w') (pool_path name version) = Ok text
       /\ idx = index_entry package version.
Proof.
  rewrite write_package_run.
  destruct (build_package name _) as [w2 [package|e]] eqn:Hb; [|discriminate].
  assert (match getitem package "version" with
          | Raise e => (w2, Raise e)
          | Ok version =>
              match write_text (fs w2) (pool_path name version) "" with
              | Raise e => (w2, Raise e)
              | Ok root1 =>
                  match bytes_decode (compress package) with
                  | None => (World root1 (stdout w2), Raise UnicodeDecodeError)
                  | Some text =>
                      match write_text root1 (pool_path name version) text with
                      | Raise e => (World root1 (stdout w2), Raise e)
                      | Ok root2 =>
                          (World root2 (stdout w2), Ok (index_entry package version))
                      end
                  end
              end
          end = (w', Ok idx) ->
          exists version text,
            getitem package "version" = Ok version
            /\ bytes_decode (compress package) = Some text
            /\ read_text (fs w') (pool_path name version) = Ok text
            /\ idx = index_entry package version) as H.
  { destruct (getitem package "version") as [version|e]; [|discriminate].
    destruct (write_text (fs w2) _ "") as [root1|e]; [|discriminate].
    destruct (bytes_decode _) as [text|]; [|discriminate].
    destruct (write_text root1 _ text) as [root2|e] eqn:H2; [|discriminate].
    intros [= <- <-]. exists version, text. cbn [fs].
    apply read_after_write in H2. auto. }
  destruct package;
    try (intros Hrun; right;
         destruct (H Hrun) as (version & text & Hv & Hd & Hr & Hi);
         eexists w2, _, version, text; repeat split;
         solve [assumption | discriminate]).
  intros [= <- <-]. now left.
Qed.

(** C4.  When [write_package] records a package in the index, the digest of
    the entry is the SHA-256 hex digest of the bytes of the archive file it
    has just written: the file holds the decoded payload, whose bytes are
    the payload itself. *)
Theorem index_digest_is_archive_file_digest
    (name : string) (acc acc' : dict) (w w' : world) :
  law_text_strict ->
  index_package name acc w = (w', Ok acc') ->
  (write_package name w = (w', Ok VNone) /\ acc' = acc)
  \/ exists package version text,
       read_text (fs w') (pool_path name version) = Ok text
       /\ str_encode text = compress package
       /\ dict_get name acc'
          = Some (VDict [("version", version);
                         ("digest", VStr (sha256_hexdigest (str_encode text)))]).
Proof.
  intros Hstrict. unfold index_package. intros Hrun.
  apply bind_inv in Hrun as (w1 & idx & Hw & Hret).
  destruct (write_package_inv _ _ _ _ Hw)
    as [[-> _]|(w2 & package & version & text & _ & _ & _ & Hdec & Hread & ->)].
  - left. unfold ret in Hret. now injection Hret as <- <-.
  - right. unfold index_entry, ret in Hret. injection Hret as <- <-.
    exists package, version, text. rewrite (Hstrict _ _ Hdec).
    repeat split; [exact Hread | apply dict_get_set_same].
Qed.

Lemma pool_path_eq (name : string) (version : value) :
  pool_path name version
  = PACKAGES_POOL_DIR +:+ "/" +:+ (name +:+ "." +:+ format_value version +:+ ".ccp").
Proof. reflexivity. Qed.

(** The write of a file of the pool under a name a file can have. *)
Lemma write_pool_file (es ps : list (string * node)) (fname t : string) :
  assoc_get "pool" es = Some (Dir ps) ->
  creatable_name fname = true ->
  match assoc_get fname ps with
  | Some (Dir _) => false
  | _ => true
  end = true ->
  write_text (Dir es) (PACKAGES_POOL_DIR +:+ "/" +:+ fname) t
  = Ok (Dir (assoc_set "pool" (Dir (assoc_set fname (File t) ps)) es)).
Proof.
  intros Hpool Hc Hf. unfold creatable_name in Hc.
  apply andb_true_iff in Hc as [Hc Hlen]. apply andb_true_iff in Hc as [Hv Hnul].
  apply negb_true_iff in Hnul. apply Nat.leb_le in Hlen.
  unfold write_text. rewrite !has_char_app, Hnul, !name_bytes_app.
  change (has_char nul PACKAGES_POOL_DIR || (has_char nul "/" || false))
    with false. cbv iota.
  change (name_bytes PACKAGES_POOL_DIR) with 6.
  change (name_bytes "/") with 1.
  destruct (Nat.leb_spec PATH_MAX (6 + (1 + name_bytes fname))) as [Hlong|_];
    [unfold PATH_MAX, NAME_MAX in *; lia|].
  rewrite components_pool, (components_valid _ Hv). cbn [store].
  change (Nat.ltb NAME_MAX (name_bytes "pool")) with false. cbv iota.
  rewrite Hpool. cbn [store].
  destruct (Nat.ltb_spec NAME_MAX (name_bytes fname)) as [Hlong|_]; [lia|].
  now destruct (assoc_get fname ps) as [[t2|sub]|].
Qed.

(** A file can be written where the pool takes it, and then again. *)
Lemma write_pool_ok (root : node) (fname t : string) :
  pool_writable root fname = true ->
  exists root',
    write_text root (PACKAGES_POOL_DIR +:+ "/" +:+ fname) t = Ok root'
    /\ pool_writable root' fname = true.
Proof.
  unfold pool_writable. intros H.
  destruct root as [t0|es]; [discriminate|]. cbn [lookup] in H.
  destruct (assoc_get "pool" es) as [[t1|ps]|] eqn:Hpool; try discriminate.
  apply andb_true_iff in H as [Hv Hf].
  exists (Dir (assoc_set "pool" (Dir (assoc_set fname (File t) ps)) es)).
  split.
  - now apply write_pool_file.
  - cbn [lookup]. rewrite !assoc_get_set_same, Hv. reflexivity.
Qed.

Lemma source_empty_wf (root : node) (name : string) :
  source_absent_or_empty root name = true ->
  wf_source root name = true /\ source_files root name = [].
Proof.
  unfold source_absent_or_empty, wf_source, source_files.
  destruct (lookup root (source_components name)) as [[t|[|e es]]|e];
    try discriminate; now split.
Qed.

(** C8.  A package with a valid manifest and no source files, whose
    archive can be created in the pool: the File Collector yields nothing,
    the document's [files] is the empty mapping, and the package is built,
    written to the pool and put in the index. *)
Theorem empty_source_package_indexed
    (name : string) (w : world) (text : string) (m acc : dict) (version : value) :
  law_b64_text ->
  valid_name name = true ->
  manifest_text (fs w) name = Some text -> json_loads text = Some (VDict m) ->
  dict_get "version" m = Some version ->
  source_absent_or_empty (fs w) name = true ->
  pool_writable (fs w) (name +:+ "." +:+ format_value version +:+ ".ccp") = true ->
  let doc := VDict (dict_set "files" (VDict []) m) in
  package_files (fs w) name = []
  /\ (exists w1, build_package name w = (w1, Ok doc))
  /\ exists w' payload,
       write_package name w = (w', Ok (index_entry doc version))
       /\ bytes_decode (compress doc) = Some payload
       /\ read_text (fs w') (pool_path name version) = Ok payload
       /\ index_package name acc w
          = (w', Ok (dict_set name (index_entry doc version) acc)).
Proof.
  intros Hb64 Hn Htext Hparse Hver Hempty Hpool doc. subst doc.
  assert (Hget : getitem (VDict (dict_set "files" (VDict []) m)) "version"
                 = Ok version).
  { unfold getitem. rewrite dict_get_set_other by discriminate. now rewrite Hver. }
  set (d := dict_set "files" (VDict []) m) in *.
  destruct (source_empty_wf _ _ Hempty) as [Hwf Hfiles].
  assert (Hpaths : package_files (fs w) name = []).
  { now rewrite (package_files_keys _ _ Hn Hwf), Hfiles. }
  assert (Hdoc : forall w0, fs w0 = fs w ->
            build_package name w0
            = (World (fs w0) (stdout w0 ++ ["[i] Reading manifest"]), Ok (VDict d))).
  { intros w0 Hfs.
    rewrite (build_package_dict name w0 text m); rewrite ?Hfs; try assumption.
    unfold files_of. now rewrite Hpaths, Hfiles. }
  split; [exact Hpaths|]. split; [eexists; now apply Hdoc|].
  destruct (bytes_decode (compress (VDict d))) as [payload|] eqn:Hdec;
    [|now destruct (Hb64 _ Hdec)].
  destruct (write_pool_ok _ _ "" Hpool) as (root1 & Hw1 & Hpool1).
  destruct (write_pool_ok _ _ payload Hpool1) as (root2 & Hw2 & _).
  assert (Hrun : write_package name w
                 = (World root2 ((stdout w ++ ["Packaging " +:+ name])
                                   ++ ["[i] Reading manifest"]),
                    Ok (index_entry (VDict d) version))).
  { rewrite write_package_run, Hdoc by reflexivity. cbn [fs stdout]. cbv iota.
    rewrite Hget, pool_path_eq, Hw1, Hdec, Hw2. reflexivity. }
  eexists _, payload. split; [exact Hrun|]. split; [reflexivity|]. split.
  - cbn [fs]. rewrite pool_path_eq. now apply read_after_write in Hw2.
  - unfold index_package. erewrite bind_ok; [|exact Hrun]. reflexivity.
Qed.

(** *** Determinism *)

Lemma build_file_any (name path : string) (m : value) (w : world) :
  build_file name path m w
  = (World (fs w) (stdout w ++ ["[+] " +:+ path]),
     match read_text (fs w) (source_path name +:+ path) with
     | Ok content => setitem2 m "files" path (file_entry content)
     | Raise e => Raise e
     end).
Proof.
  unfold build_file, bind, print, open_read, lift. rewrite source_path_file.
  cbn [fs stdout]. now destruct (read_text (fs w) (source_path name +:+ path)).
Qed.

(** The loop's result depends on the worlds only through what the files
    read as. *)
Lemma for_each_build_file_det (name : string) (paths : list string) :
  forall (m : value) (w1 w2 : world),
    (forall p, In p paths ->
       read_text (fs w1) (source_path name +:+ p)
       = read_text (fs w2) (source_path name +:+ p)) ->
    snd (for_each paths (build_file name) m w1)
    = snd (for_each paths (build_file name) m w2).
Proof.
  induction paths as [|p paths IH]; intros m w1 w2 Hread; [reflexivity|].
  cbn [for_each]. unfold bind. rewrite !build_file_any.
  rewrite <- (Hread p (or_introl eq_refl)).
  destruct (match read_text (fs w1) (source_path name +:+ p) with
            | Ok content => setitem2 m "files" p (file_entry content)
            | Raise e => Raise e
            end) as [m'|e]; [|reflexivity].
  apply IH. cbn [fs]. intros q Hq. apply Hread. now right.
Qed.

Lemma build_package_det (name : string) (w1 w2 : world) :
  read_text (fs w1) (manifest_path name) = read_text (fs w2) (manifest_path name) ->
  package_files (fs w1) name = package_files (fs w2) name ->
  (forall p, In p (package_files (fs w1) name) ->
     read_text (fs w1) (source_path name +:+ p)
     = read_text (fs w2) (source_path name +:+ p)) ->
  snd (build_package name w1) = snd (build_package name w2).
Proof.
  intros Hm Hpaths Hread. rewrite !build_package_run, !get_manifest_run, <- Hm.
  cbv zeta. destruct (read_text (fs w1) (manifest_path name)) as [text|e].
  - destruct (json_loads text) as [[|b|z|s|l|m]|]; try reflexivity.
    cbn [fs]. rewrite <- Hpaths. now apply for_each_build_file_det.
  - destruct e; reflexivity.
Qed.

(** When both runs write the package, they return the same index entry and
    leave the same text in the archive file. *)
Lemma write_package_det (name : string) (w1 w2 : world) :
  read_text (fs w1) (manifest_path name) = read_text (fs w2) (manifest_path name) ->
  package_files (fs w1) name = package_files (fs w2) name ->
  (forall p, In p (package_files (fs w1) name) ->
     read_text (fs w1) (source_path name +:+ p)
     = read_text (fs w2) (source_path name +:+ p)) ->
  forall w1' w2' i1 i2,
    write_package name w1 = (w1', Ok i1) ->
    write_package name w2 = (w2', Ok i2) ->
    i1 = i2
    /\ (i1 = VNone
        \/ exists package version payload,
             bytes_decode (compress package) = Some payload
             /\ read_text (fs w1') (pool_path name version) = Ok payload
             /\ read_text (fs w2') (pool_path name version) = Ok payload).
Proof.
  intros Hm Hpaths Hread w1' w2' i1 i2 H1 H2.
  pose proof (build_package_det name
                (World (fs w1) (stdout w1 ++ ["Packaging " +:+ name]))
                (World (fs w2) (stdout w2 ++ ["Packaging " +:+ name]))
                Hm Hpaths Hread) as Hdet.
  destruct (write_package_inv _ _ _ _ H1)
    as [[-> Hb1]|(u1 & p1 & v1 & t1 & Hb1 & Hp1 & Hv1 & Hd1 & Hr1 & ->)];
  destruct (write_package_inv _ _ _ _ H2)
    as [[-> Hb2]|(u2 & p2 & v2 & t2 & Hb2 & Hp2 & Hv2 & Hd2 & Hr2 & ->)];
  rewrite Hb1, Hb2 in Hdet; cbn [snd] in Hdet;
  try (injection Hdet as Hdet; subst).
  - split; [reflexivity | now left].
  - contradiction.
  - contradiction.
  - assert (v2 = v1) as -> by congruence.
    assert (t2 = t1) as -> by congruence.
    split; [reflexivity|]. right. now exists p2, v1, t1.
Qed.

Lemma index_package_det (name : string) (acc : dict) (w1 w2 : world) :
  read_text (fs w1) (manifest_path name) = read_text (fs w2) (manifest_path name) ->
  package_files (fs w1) name = package_files (fs w2) name ->
  (forall p, In p (package_files (fs w1) name) ->
     read_text (fs w1) (source_path name +:+ p)
     = read_text (fs w2) (source_path name +:+ p)) ->
  forall w1' w2' a1 a2,
    index_package name acc w1 = (w1', Ok a1) ->
    index_package name acc w2 = (w2', Ok a2) ->
    a1 = a2.
Proof.
  intros Hm Hpaths Hread w1' w2' a1 a2 H1 H2. unfold index_package in H1, H2.
  apply bind_inv in H1 as (u1 & i1 & Hw1 & Hr1).
  apply bind_inv in H2 as (u2 & i2 & Hw2 & Hr2).
  destruct (write_package_det name w1 w2 Hm Hpaths Hread _ _ _ _ Hw1 Hw2) as [<- _].
  destruct i1; unfold ret in Hr1, Hr2; congruence.
Qed.

(** C7.  Two runs over a package whose manifest reads the same, whose File
    Collector yields the same paths in the same order and whose files read
    the same assemble the same document; when both write the package, the
    index entries (version and digest) are equal, the archive files hold
    the same text, and the index serialises to the same text. *)
Theorem unchanged_package_builds_identically (name : string) (w1 w2 : world) :
  read_text (fs w1) (manifest_path name) = read_text (fs w2) (manifest_path name) ->
  package_files (fs w1) name = package_files (fs w2) name ->
  (forall p, In p (package_files (fs w1) name) ->
     read_text (fs w1) (source_path name +:+ p)
     = read_text (fs w2) (source_path name +:+ p)) ->
  snd (build_package name w1) = snd (build_package name w2)
  /\ (forall w1' w2' i1 i2,
        write_package name w1 = (w1', Ok i1) ->
        write_package name w2 = (w2', Ok i2) ->
        i1 = i2
        /\ (i1 = VNone
            \/ exists package version payload,
                 bytes_decode (compress package) = Some payload
                 /\ read_text (fs w1') (pool_path name version) = Ok payload
                 /\ read_text (fs w2') (pool_path name version) = Ok payload))
  /\ (forall acc w1' w2' a1 a2,
        index_package name acc w1 = (w1', Ok a1) ->
        index_package name acc w2 = (w2', Ok a2) ->
        json_dumps (VDict a1) = json_dumps (VDict a2)).
Proof.
  intros Hm Hpaths Hread.
  split; [now apply build_package_det|].
  split; [now apply write_package_det|].
  intros acc w1' w2' a1 a2 H1 H2.
  now rewrite (index_package_det name acc w1 w2 Hm Hpaths Hread _ _ _ _ H1 H2).
Qed.

(** *** Whole runs *)

Lemma build_all_frame (names : list string) :
  forall (acc : dict) (w w' : world) (r : result dict) (cs : list string),
    for_each names index_package acc w = (w', r) ->
    lookup (fs w') ("packages" :: cs) = lookup (fs w) ("packages" :: cs).
Proof.
  induction names as [|x names IH]; intros acc w w' r cs.
  - cbn. unfold ret. now intros [= <- _].
  - cbn [for_each]. unfold bind.
    destruct (index_package x acc w) as [w1 [acc1|e]] eqn:Hstep.
    + intros Hrest. rewrite (IH _ _ _ _ cs Hrest).
      now apply (index_package_frame _ _ _ _ _ cs) in Hstep.
    + intros [= <- _]. now apply (index_package_frame _ _ _ _ _ cs) in Hstep.
Qed.

(** The build reads [./packages] and writes below [./pool] only: when no
    archive path steps to a parent directory, whatever the run does and
    however it ends, the packages directory is as it was. *)
Theorem main_keeps_packages (w : world) (cs : list string) :
  (forall names,
     scandir (fs w) PACKAGES_ROOT_SRC_DIR = Ok names ->
     no_parent_steps (fs w) names) ->
  lookup (fs (fst (main w))) ("packages" :: cs) = lookup (fs w) ("packages" :: cs).
Proof.
  intros _. unfold main, bind, get_all_packages.
  destruct (scandir (fs w) PACKAGES_ROOT_SRC_DIR) as [names|e]; [|reflexivity].
  destruct (build_all names w) as [w1 [packages|e]] eqn:Hbuild;
    apply (build_all_frame _ _ _ _ _ cs) in Hbuild; [|exact Hbuild].
  unfold print, open_write. cbn [fs stdout].
  destruct (write_text (fs w1) index_path _) as [root'|e] eqn:Hw; cbn [fst fs];
    [|exact Hbuild].
  rewrite <- Hbuild. exact (write_pool_frame _ _ INDEX_FILE _ cs Hw).
Qed.

(** What a package's build reads lies below [./packages]. *)
Lemma read_packages_frame (r1 r2 : node) (rest : string) :
  (forall cs, lookup r1 ("packages" :: cs) = lookup r2 ("packages" :: cs)) ->
  read_text r1 (PACKAGES_ROOT_SRC_DIR +:+ "/" +:+ rest)
  = read_text r2 (PACKAGES_ROOT_SRC_DIR +:+ "/" +:+ rest).
Proof. intros H. unfold read_text. now rewrite components_packages, H. Qed.

Lemma package_files_frame (r1 r2 : node) (name : string) :
  (forall cs, lookup r1 ("packages" :: cs) = lookup r2 ("packages" :: cs)) ->
  package_files r1 name = package_files r2 name.
Proof.
  intros H. unfold package_files, walk_from, source_path.
  now rewrite components_packages, H.
Qed.

Lemma build_all_det (names : list string) :
  forall (acc : dict) (w1 w2 w1' w2' : world) (a1 a2 : dict),
    (forall cs, lookup (fs w1) ("packages" :: cs) = lookup (fs w2) ("packages" :: cs)) ->
    for_each names index_package acc w1 = (w1', Ok a1) ->
    for_each names index_package acc w2 = (w2', Ok a2) ->
    a1 = a2.
Proof.
  induction names as [|x names IH]; intros acc w1 w2 w1' w2' a1 a2 Hfs.
  - cbn. unfold ret. congruence.
  - cbn [for_each]. intros H1 H2.
    apply bind_inv in H1 as (u1 & b1 & Hs1 & Hr1).
    apply bind_inv in H2 as (u2 & b2 & Hs2 & Hr2).
    assert (b1 = b2) as <-.
    { apply (index_package_det x acc w1 w2) with (w1' := u1) (w2' := u2);
        try assumption.
      - now apply read_packages_frame.
      - now apply package_files_frame.
      - intros p _. unfold source_path. rewrite append_assoc.
        now apply read_packages_frame. }
    apply (IH b1 u1 u2 w1' w2'); [|exact Hr1 | exact Hr2].
    intros cs. rewrite (index_package_frame _ _ _ _ _ cs Hs1).
    now rewrite (index_package_frame _ _ _ _ _ cs Hs2).
Qed.

(** Two complete runs over the same packages directory write the same text
    to [index.json], whatever else differs between the two worlds (the
    console, what the pool held before). *)
Theorem runs_write_identical_index (w1 w2 w1' w2' : world) :
  (forall cs, lookup (fs w1) ("packages" :: cs) = lookup (fs w2) ("packages" :: cs)) ->
  main w1 = (w1', Ok tt) -> main w2 = (w2', Ok tt) ->
  exists text,
    read_text (fs w1') index_path = Ok text
    /\ read_text (fs w2') index_path = Ok text.
Proof.
  intros Hfs H1 H2.
  apply main_inv in H1 as (names1 & p1 & u1 & Hscan1 & Hbuild1 & Hwrite1).
  apply main_inv in H2 as (names2 & p2 & u2 & Hscan2 & Hbuild2 & Hwrite2).
  assert (names2 = names1) as ->.
  { unfold scandir, PACKAGES_ROOT_SRC_DIR in Hscan1, Hscan2.
    change (components "./packages") with ["packages"] in Hscan1, Hscan2.
    rewrite Hfs in Hscan1. congruence. }
  assert (p2 = p1) as ->.
  { symmetry. unfold build_all in *.
    now apply (build_all_det names1 [] w1 w2 u1 u2). }
  exists (json_dumps (VDict p1)).
  apply read_after_write in Hwrite1, Hwrite2. now split.
Qed.

(** A manifest that is JSON but not an object: [null] is taken for a missing
    manifest, without the report, and the package is skipped; anything else
    makes the assignment of [files] raise [TypeError]. *)
Theorem non_object_manifest (name : string) (w : world) (text : string) (v : value) :
  valid_name name = true ->
  manifest_text (fs w) name = Some text -> json_loads text = Some v ->
  let w' := World (fs w) (stdout w ++ ["[i] Reading manifest"]) in
  match v with
  | VNone => build_package name w = (w', Ok VNone)
  | VDict _ => True
  | _ => build_package name w = (w', Raise TypeError)
  end.
Proof.
  intros Hn Htext Hparse w'. rewrite build_package_run, get_manifest_run.
  rewrite (read_manifest_text _ _ _ Hn Htext), Hparse.
  destruct v; solve [reflexivity | exact I].
Qed.

(** *** Writes and the files beside them *)

Lemma read_text_file (root : node) (path t : string) :
  read_text root path = Ok t <-> lookup root (components path) = Ok (File t).
Proof.
  unfold read_text.
  destruct (lookup root (components path)) as [[t0|es]|e]; split; congruence.
Qed.

(** Writing a file leaves every other path a file with the text it had, or
    no file as before. *)
Lemma store_other (cs : list string) :
  forall (n n' : node) (t : string) (cs0 : list string) (t0 : string),
    store n cs t = Ok n' -> cs0 <> cs ->
    (lookup n' cs0 = Ok (File t0) <-> lookup n cs0 = Ok (File t0)).
Proof.
  induction cs as [|c cs IH]; intros n n' t cs0 t0; cbn [store].
  - destruct n as [t1|es]; [|discriminate]. intros [= <-] Hne.
    destruct cs0 as [|c0 cs0]; [congruence|]. cbn. split; discriminate.
  - destruct n as [t1|es]; [discriminate|].
    destruct (Nat.ltb NAME_MAX (name_bytes c)); [discriminate|].
    destruct (assoc_get c es) as [n1|] eqn:Hget.
    + destruct (store n1 cs t) as [n1'|e] eqn:Hs; [|discriminate].
      intros [= <-] Hne. destruct cs0 as [|c0 cs0]; [cbn; split; discriminate|].
      cbn [lookup]. destruct (String.eqb_spec c0 c) as [->|Hc].
      * rewrite assoc_get_set_same, Hget. apply (IH _ _ _ _ _ Hs). congruence.
      * now rewrite assoc_get_set_other.
    + destruct cs as [|c1 cs]; [|discriminate]. intros [= <-] Hne.
      destruct cs0 as [|c0 cs0]; [cbn; split; discriminate|].
      cbn [lookup]. destruct (String.eqb_spec c0 c) as [->|Hc].
      * rewrite assoc_get_set_same, Hget.
        destruct cs0; [congruence|]. cbn. split; discriminate.
      * now rewrite assoc_get_set_other.
Qed.

(** A file that has been written can be written again. *)
Lemma store_again (cs : list string) :
  forall (n n' : node) (t t' : string),
    store n cs t = Ok n' -> exists n'', store n' cs t' = Ok n''.
Proof.
  induction cs as [|c cs IH]; intros n n' t t'; cbn [store].
  - destruct n; [|discriminate]. intros [= <-]. now eexists.
  - destruct n as [t1|es]; [discriminate|].
    destruct (Nat.ltb NAME_MAX (name_bytes c)) eqn:Hlen; [discriminate|].
    destruct (assoc_get c es) as [n1|] eqn:Hget.
    + destruct (store n1 cs t) as [n1'|e] eqn:Hs; [|discriminate].
      intros [= <-]. cbn [store]. rewrite assoc_get_set_same.
      destruct (IH _ _ _ t' Hs) as [n2 ->]. now eexists.
    + destruct cs; [|discriminate]. intros [= <-]. cbn [store].
      rewrite assoc_get_set_same. now eexists.
Qed.

Lemma write_again (root root' : node) (path t t' : string) :
  write_text root path t = Ok root' ->
  exists root'', write_text root' path t' = Ok root''.
Proof.
  unfold write_text. destruct (has_char nul path); [discriminate|].
  destruct (Nat.leb PATH_MAX (name_bytes path)); [discriminate|].
  apply store_again.
Qed.

Lemma write_other (root root' : node) (path t : string) (cs0 : list string)
    (t0 : string) :
  write_text root path t = Ok root' -> cs0 <> components path ->
  (lookup root' cs0 = Ok (File t0) <-> lookup root cs0 = Ok (File t0)).
Proof.
  intros H Hne. apply write_text_store in H.
  now apply (store_other _ _ _ _ _ _ H).
Qed.

(** *** The archive is never the index *)

Lemma last_char_app (a b : string) : b <> "" -> last_char (a +:+ b) = last_char b.
Proof.
  intros Hb. induction a as [|c a IH]; [reflexivity|].
  cbn [append last_char]. rewrite <- IH.
  destruct (a +:+ b) eqn:E; [|reflexivity].
  destruct a; cbn in E; [now subst | discriminate].
Qed.

Lemma split_last_char (sep c : ascii) (s : string) :
  last_char s = Some c -> c <> sep ->
  last_char (last (split sep s) "") = Some c.
Proof.
  intros H Hc. revert H. induction s as [|a s IH]; [discriminate|].
  cbn [last_char split]. destruct s as [|b s'].
  - intros [= ->]. destruct (Ascii.eqb_spec c sep); [contradiction|]. reflexivity.
  - intros H. specialize (IH H).
    destruct (split sep (String b s')) as [|h t] eqn:E;
      [now apply split_nonempty in E|].
    destruct (Ascii.eqb a sep); [exact IH|].
    destruct t as [|h' t]; [|exact IH].
    cbn [last] in IH |- *. cbn [last_char]. now destruct h.
Qed.

Lemma components_last_char (s : string) (c : ascii) :
  last_char s = Some c -> c <> slash -> c <> "."%char ->
  last_char (last (components s) "") = Some c.
Proof.
  intros H Hslash Hdot. pose proof (split_last_char slash c s H Hslash) as Hl.
  destruct (exists_last (split_nonempty slash s)) as (l & x & E).
  unfold components. rewrite E in Hl |- *. rewrite last_last in Hl.
  rewrite filter_app. cbn [filter].
  assert (nontrivial x = true) as ->.
  { destruct x as [|a [|b x]]; [discriminate | |].
    - cbn in Hl. injection Hl as ->. unfold nontrivial. cbn.
      destruct (Ascii.eqb_spec c "."); [contradiction | reflexivity].
    - unfold nontrivial. cbn. now destruct (Ascii.eqb a "."). }
  now rewrite last_last.
Qed.

Lemma pool_path_last_char (name : string) (version : value) :
  last_char (pool_path name version) = Some "p"%char.
Proof.
  unfold pool_path. rewrite <- !append_assoc. now rewrite last_char_app.
Qed.

(** No package has [index.json] for its archive: the archive's name ends in
    [.ccp]. *)
Lemma archive_not_index (name : string) (version : value) :
  components index_path <> components (pool_path name version).
Proof.
  intros E. apply (f_equal (fun l => last_char (last l ""))) in E.
  rewrite (components_last_char _ _ (pool_path_last_char name version)) in E;
    discriminate.
Qed.

(** *** One package, case by case *)

Lemma manifest_object_frame (r1 r2 : node) (name : string) :
  (forall cs, lookup r1 ("packages" :: cs) = lookup r2 ("packages" :: cs)) ->
  manifest_object r1 name = manifest_object r2 name.
Proof.
  intros H. unfold manifest_object, manifest_path.
  now rewrite (read_packages_frame r1 r2 _ H).
Qed.

Lemma collect_frame (r1 r2 : node) (name : string) (paths : list string) :
  (forall cs, lookup r1 ("packages" :: cs) = lookup r2 ("packages" :: cs)) ->
  forall acc, collect r1 name paths acc = collect r2 name paths acc.
Proof.
  intros H.
  assert (Hread : forall p, read_text r1 (source_path name +:+ p)
                            = read_text r2 (source_path name +:+ p)).
  { intros p. unfold source_path. rewrite append_assoc.
    now apply read_packages_frame. }
  unfold collect. induction paths as [|p paths IH]; intros acc; [reflexivity|].
  cbn [fold_left]. rewrite Hread. apply IH.
Qed.

Lemma document_of_frame (r1 r2 : node) (name : string) (m : dict) :
  (forall cs, lookup r1 ("packages" :: cs) = lookup r2 ("packages" :: cs)) ->
  document_of r1 name m = document_of r2 name m.
Proof.
  intros H. unfold document_of.
  now rewrite (package_files_frame r1 r2 name H), (collect_frame r1 r2 name _ H).
Qed.

(** What [build_package] returns, when it returns. *)
Lemma build_package_inv (name : string) (w w' : world) (package : value) :
  build_package name w = (w', Ok package) ->
  (package = VNone /\ manifest_object (fs w) name = None)
  \/ exists m,
       manifest_object (fs w) name = Some m
       /\ package = document_of (fs w) name m.
Proof.
  rewrite build_package_run, get_manifest_run. unfold manifest_object.
  cbv zeta.
  destruct (read_text (fs w) (manifest_path name)) as [text|e].
  - destruct (json_loads text) as [[| | | | |m]|]; try discriminate.
    + intros [= _ <-]. now left.
    + cbn [fs]. intros Hb. right. exists m. split; [reflexivity|].
      pose proof (for_each_build_file_inv _ _ _ [] _ _ _
                    (dict_get_set_same _ _ _) Hb) as Hread.
      rewrite (for_each_build_file _ _ _ [] _ (dict_get_set_same _ _ _) Hread)
        in Hb.
      injection Hb as _ <-. unfold document_of. now rewrite dict_set_set.
  - destruct e; try discriminate. intros [= _ <-]. now left.
Qed.

(** What [write_package] does, however it ends: it writes nothing, or the
    package has an object manifest with a version, the archive file has
    been opened, and either the payload is not text or it has been
    written. *)
Lemma write_package_cases (name : string) (w w' : world) (r : result value) :
  write_package name w = (w', r) ->
  (fs w' = fs w
   /\ forall idx, r = Ok idx -> idx = VNone /\ manifest_object (fs w) name = None)
  \/ exists m version root1,
       manifest_object (fs w) name = Some m
       /\ dict_get "version" m = Some version
       /\ write_text (fs w) (pool_path name version) "" = Ok root1
       /\ ((bytes_decode (compress (document_of (fs w) name m)) = None
            /\ fs w' = root1 /\ r = Raise UnicodeDecodeError)
           \/ exists text,
                bytes_decode (compress (document_of (fs w) name m)) = Some text
                /\ write_text root1 (pool_path name version) text = Ok (fs w')
                /\ r = Ok (index_entry (document_of (fs w) name m) version)).
Proof.
  rewrite write_package_run.
  destruct (build_package name _) as [w2 [package|e]] eqn:Hb.
  - pose proof (build_package_fs _ _ _ _ Hb) as Hfs. cbn [fs] in Hfs.
    apply build_package_inv in Hb as [[-> Hm]|(m & Hm & ->)]; cbn [fs] in *.
    + intros [= <- <-]. left. split; [exact Hfs|]. now intros idx [= <-].
    + unfold document_of at 1 2. cbv iota. fold (document_of (fs w) name m).
      unfold getitem, document_of at 1.
      rewrite dict_get_set_other by discriminate.
      fold (document_of (fs w) name m).
      destruct (dict_get "version" m) as [version|] eqn:Hv;
        [|intros [= <- <-]; left; split; [exact Hfs | discriminate]].
      rewrite Hfs.
      destruct (write_text (fs w) (pool_path name version) "") as [root1|e]
        eqn:H1; [|intros [= <- <-]; left; split; [exact Hfs | discriminate]].
      intros Hrun. right. exists m, version, root1.
      repeat split; try assumption. revert Hrun.
      destruct (bytes_decode (compress (document_of (fs w) name m)))
        as [text|] eqn:Hdec; [|intros [= <- <-]; now left].
      destruct (write_again _ _ _ _ text H1) as [root2 H2].
      rewrite H2. intros [= <- <-]. right. now exists text.
  - pose proof (build_package_fs _ _ _ _ Hb) as Hfs. cbn [fs] in Hfs.
    intros [= <- <-]. left. split; [exact Hfs | discriminate].
Qed.

(** A package that fails, fails before anything is written: whatever
    exception ends [write_package], the files are as they were; in
    particular no archive is left opened and empty. *)
Theorem failed_package_writes_nothing (name : string) (w w' : world) (e : exn) :
  law_b64_text -> write_package name w = (w', Raise e) -> fs w' = fs w.
Proof.
  intros Hb64 H.
  apply write_package_cases in H
    as [[Hfs _]|(m & version & root1 & _ & _ & _
                 & [(Hdec & _)|(text & _ & _ & [=])])].
  - exact Hfs.
  - now apply Hb64 in Hdec.
Qed.

(** *** What a run touches *)

Lemma write_package_other (name : string) (w w' : world) (r : result value)
    (cs0 : list string) (t0 : string) :
  write_package name w = (w', r) ->
  (forall m version,
     manifest_object (fs w) name = Some m -> dict_get "version" m = Some version ->
     cs0 <> components (pool_path name version)) ->
  (lookup (fs w') cs0 = Ok (File t0) <-> lookup (fs w) cs0 = Ok (File t0)).
Proof.
  intros H Hne.
  apply write_package_cases in H
    as [[-> _]|(m & version & root1 & Hm & Hv & H1 & Hrest)]; [reflexivity|].
  specialize (Hne m version Hm Hv).
  rewrite <- (write_other _ _ _ _ cs0 t0 H1 Hne).
  destruct Hrest as [(_ & -> & _)|(text & _ & H2 & _)]; [reflexivity|].
  exact (write_other _ _ _ _ cs0 t0 H2 Hne).
Qed.

Lemma index_package_other (name : string) (acc : dict) (w w' : world)
    (r : result dict) (cs0 : list string) (t0 : string) :
  index_package name acc w = (w', r) ->
  (forall m version,
     manifest_object (fs w) name = Some m -> dict_get "version" m = Some version ->
     cs0 <> components (pool_path name version)) ->
  (lookup (fs w') cs0 = Ok (File t0) <-> lookup (fs w) cs0 = Ok (File t0)).
Proof.
  unfold index_package, bind.
  destruct (write_package name w) as [w1 r1] eqn:Hw. intros H Hne.
  pose proof (write_package_other _ _ _ _ cs0 t0 Hw Hne) as Hother.
  destruct r1 as [idx|e]; [|now injection H as <- _].
  destruct idx; unfold ret in H; now injection H as <- _.
Qed.

Lemma build_all_other (cs0 : list string) (t0 : string) (names : list string) :
  forall (acc : dict) (w w' : world) (r : result dict),
    for_each names index_package acc w = (w', r) ->
    (forall name m version,
       In name names ->
       manifest_object (fs w) name = Some m -> dict_get "version" m = Some version ->
       cs0 <> components (pool_path name version)) ->
    (lookup (fs w') cs0 = Ok (File t0) <-> lookup (fs w) cs0 = Ok (File t0)).
Proof.
  induction names as [|x names IH]; intros acc w w' r.
  - cbn. unfold ret. now intros [= <- _].
  - cbn [for_each]. unfold bind.
    destruct (index_package x acc w) as [w1 [acc1|e]] eqn:Hstep; intros H Hne.
    + rewrite (IH _ _ _ _ H).
      * apply (index_package_other _ _ _ _ _ _ _ Hstep).
        intros m version. apply Hne. now left.
      * intros name m version Hin Hm. apply Hne; [now right|].
        rewrite <- Hm. symmetry. apply manifest_object_frame.
        intros cs. exact (index_package_frame _ _ _ _ _ cs Hstep).
    + injection H as <- _. apply (index_package_other _ _ _ _ _ _ _ Hstep).
      intros m version. apply Hne. now left.
Qed.

(** How [main] ends: in the listing, in the loop, or at the index. *)
Lemma main_cases (w w' : world) (r : result unit) :
  main w = (w', r) ->
  (exists e, scandir (fs w) PACKAGES_ROOT_SRC_DIR = Raise e
             /\ w' = w /\ r = Raise e)
  \/ exists names w1,
       scandir (fs w) PACKAGES_ROOT_SRC_DIR = Ok names
       /\ ((exists e, build_all names w = (w1, Raise e)
                      /\ w' = w1 /\ r = Raise e)
           \/ exists packages,
                build_all names w = (w1, Ok packages)
                /\ stdout w' = stdout w1 ++ ["Writing index"]
                /\ ((exists e,
                       write_text (fs w1) index_path (json_dumps (VDict packages))
                       = Raise e
                       /\ fs w' = fs w1 /\ r = Raise e)
                    \/ (write_text (fs w1) index_path (json_dumps (VDict packages))
                        = Ok (fs w')
                        /\ r = Ok tt))).
Proof.
  unfold main, bind, get_all_packages.
  destruct (scandir (fs w) PACKAGES_ROOT_SRC_DIR) as [names|e];
    [|intros [= <- <-]; left; now exists e].
  destruct (build_all names w) as [w1 [packages|e]] eqn:Hbuild; intros H; right;
    exists names, w1; (split; [reflexivity|]);
    [|injection H as <- <-; left; now exists e].
  right. exists packages. split; [exact Hbuild|].
  revert H. unfold print, open_write. cbn [fs stdout].
  destruct (write_text (fs w1) index_path (json_dumps (VDict packages)))
    as [root'|e]; intros [= <- <-]; (split; [reflexivity|]).
  - now right.
  - left. now exists e.
Qed.

(** However a run ends, when no archive path steps to a parent directory,
    a path that is neither [index.json] nor the archive of one of the
    listed packages that has an object manifest with a version is a file
    after the run exactly when it was one before, with the same text:
    nothing else is created, changed or removed. *)
Theorem run_touches_only_archives_and_index
    (w w' : world) (r : result unit) (names : list string)
    (cs : list string) (t : string) :
  scandir (fs w) PACKAGES_ROOT_SRC_DIR = Ok names ->
  no_parent_steps (fs w) names ->
  main w = (w', r) ->
  cs <> components index_path ->
  (forall name m version,
     In name names ->
     manifest_object (fs w) name = Some m -> dict_get "version" m = Some version ->
     cs <> components (pool_path name version)) ->
  (lookup (fs w') cs = Ok (File t) <-> lookup (fs w) cs = Ok (File t)).
Proof.
  intros Hscan _ Hmain Hindex Harchive.
  apply main_cases in Hmain
    as [(e & Hs & _)|(names' & w1 & Hs & Hrest)]; [congruence|].
  assert (names' = names) as -> by congruence.
  assert (Hloop : forall rb, build_all names w = (w1, rb) ->
            lookup (fs w1) cs = Ok (File t) <-> lookup (fs w) cs = Ok (File t)).
  { intros rb Hb. exact (build_all_other cs t names [] w w1 rb Hb Harchive). }
  destruct Hrest as [(e & Hb & -> & _)|(packages & Hb & _ & Hend)];
    [exact (Hloop _ Hb)|].
  rewrite <- (Hloop _ Hb).
  destruct Hend as [(e & _ & -> & _)|[Hw _]]; [reflexivity|].
  exact (write_other _ _ _ _ cs t Hw Hindex).
Qed.

(** A run that ends with an exception has not written the index: after it,
    [index.json] holds what it held before the run, or is still missing,
    while the archives of the packages processed before the failure are in
    the pool. *)
Theorem aborted_run_keeps_index (w w' : world) (e : exn) (t : string) :
  main w = (w', Raise e) ->
  (read_text (fs w') index_path = Ok t <-> read_text (fs w) index_path = Ok t).
Proof.
  intros Hmain. rewrite !read_text_file.
  apply main_cases in Hmain
    as [(e' & _ & -> & _)|(names & w1 & _ & Hrest)]; [reflexivity|].
  assert (Hloop : forall rb, build_all names w = (w1, rb) ->
            lookup (fs w1) (components index_path) = Ok (File t)
            <-> lookup (fs w) (components index_path) = Ok (File t)).
  { intros rb Hb. apply (build_all_other _ t names [] w w1 rb Hb).
    intros name m version _ _ _. apply archive_not_index. }
  destruct Hrest as [(e' & Hb & -> & _)|(packages & Hb & _ & Hend)];
    [exact (Hloop _ Hb)|].
  destruct Hend as [(e' & _ & -> & _)|[_ [=]]]. exact (Hloop _ Hb).
Qed.

(** *** The index of a complete run *)

(** One turn of the driver's loop, when it goes on. *)
Lemma index_package_inv (name : string) (acc acc' : dict) (w w' : world) :
  index_package name acc w = (w', Ok acc') ->
  (manifest_object (fs w) name = None /\ acc' = acc /\ fs w' = fs w)
  \/ exists m version text root1,
       manifest_object (fs w) name = Some m
       /\ dict_get "version" m = Some version
       /\ bytes_decode (compress (document_of (fs w) name m)) = Some text
       /\ write_text (fs w) (pool_path name version) "" = Ok root1
       /\ write_text root1 (pool_path name version) text = Ok (fs w')
       /\ acc' = dict_set name (index_entry (document_of (fs w) name m) version)
                   acc.
Proof.
  unfold index_package. intros H. apply bind_inv in H as (w1 & idx & Hw & Hret).
  apply write_package_cases in Hw
    as [[Hfs Hidx]|(m & version & root1 & Hm & Hv & H1
                    & [(_ & _ & [=])|(text & Hdec & H2 & [= ->])])].
  - destruct (Hidx idx eq_refl) as [-> Hm]. unfold ret in Hret.
    injection Hret as <- <-. left. auto.
  - right. unfold index_entry, ret in Hret. injection Hret as <- <-.
    exists m, version, text, root1. auto 10.
Qed.

Lemma dict_get_keys (k : string) (v : value) (d : dict) :
  dict_get k d = Some v -> In k (keys d).
Proof.
  intros H. apply assoc_get_In in H. unfold keys.
  apply in_map_iff. now exists (k, v).
Qed.

(** The loop of the driver, from the index [acc] with no key among
    [names]: the keys it adds and the entries it sets. *)
Lemma build_all_index (names : list string) :
  forall (acc packages : dict) (w w' : world),
    NoDup names -> (forall n, In n names -> dict_get n acc = None) ->
    for_each names index_package acc w = (w', Ok packages) ->
    keys packages = keys acc ++ filter (has_object_manifest (fs w)) names
    /\ (forall n, ~ In n names -> dict_get n packages = dict_get n acc)
    /\ (forall n m,
          In n names -> manifest_object (fs w) n = Some m ->
          exists version,
            dict_get "version" m = Some version
            /\ dict_get n packages
               = Some (index_entry (document_of (fs w) n m) version)).
Proof.
  induction names as [|x names IH]; intros acc packages w w' Hnd Hfresh.
  - cbn. unfold ret. intros [= _ <-]. rewrite app_nil_r.
    repeat split. contradiction.
  - cbn [for_each]. intros Hrun.
    apply bind_inv in Hrun as (w1 & acc1 & Hstep & Hrest).
    inversion Hnd as [|? ? Hx Hnd']; subst.
    assert (Hframe : forall cs, lookup (fs w1) ("packages" :: cs)
                                = lookup (fs w) ("packages" :: cs))
      by (intros cs; exact (index_package_frame _ _ _ _ _ cs Hstep)).
    assert (Hfilter : filter (has_object_manifest (fs w1)) names
                      = filter (has_object_manifest (fs w)) names).
    { apply filter_ext. intros n. unfold has_object_manifest.
      now rewrite (manifest_object_frame _ _ n Hframe). }
    apply index_package_inv in Hstep
      as [(Hm & -> & _)|(m & version & text & root1 & Hm & Hv & _ & _ & _ & ->)].
    + destruct (IH acc packages w1 w' Hnd'
                  (fun n Hn => Hfresh n (or_intror Hn)) Hrest)
        as (Hkeys & Hout & Hin).
      cbn [filter]. unfold has_object_manifest at 1. rewrite Hm.
      rewrite Hkeys, Hfilter. repeat split.
      * intros n Hn. apply Hout. intros Hn'. apply Hn. now right.
      * intros n m [<-|Hn] Hmn; [congruence|].
        rewrite <- (manifest_object_frame _ _ n Hframe) in Hmn.
        rewrite <- (document_of_frame _ _ n m Hframe). now apply Hin.
    + destruct (IH (dict_set x (index_entry (document_of (fs w) x m) version) acc)
                  packages w1 w' Hnd') as (Hkeys & Hout & Hin); [|exact Hrest|].
      { intros n Hn. rewrite dict_get_set_other by (intros ->; contradiction).
        apply Hfresh. now right. }
      cbn [filter]. unfold has_object_manifest at 1. rewrite Hm.
      rewrite Hkeys, Hfilter. unfold dict_set at 1. rewrite keys_assoc_set.
      fold (dict_get x acc). rewrite (Hfresh x (or_introl eq_refl)).
      rewrite <- app_assoc. repeat split.
      * intros n Hn. rewrite Hout by (intros Hn'; apply Hn; now right).
        apply dict_get_set_other. intros ->. apply Hn. now left.
      * intros n m' [<-|Hn] Hmn.
        -- assert (m' = m) as -> by congruence. exists version.
           split; [exact Hv|]. rewrite (Hout x Hx). apply dict_get_set_same.
        -- rewrite <- (manifest_object_frame _ _ n Hframe) in Hmn.
           rewrite <- (document_of_frame _ _ n m' Hframe). now apply Hin.
Qed.

(** The index a complete run writes, when no archive path steps to a
    parent directory, has one key per listed package whose manifest is a
    JSON object, in listing order, and no other; the entry of a package
    holds the manifest's [version] value as it is, and the digest of the
    archive of the package's document. *)
Theorem index_lists_packages_with_manifest
    (w w' : world) (names : list string) :
  scandir (fs w) PACKAGES_ROOT_SRC_DIR = Ok names -> NoDup names ->
  no_parent_steps (fs w) names ->
  main w = (w', Ok tt) ->
  exists packages,
    read_text (fs w') index_path = Ok (json_dumps (VDict packages))
    /\ keys packages = filter (has_object_manifest (fs w)) names
    /\ forall name m,
         In name names -> manifest_object (fs w) name = Some m ->
         exists version,
           dict_get "version" m = Some version
           /\ dict_get name packages
              = Some (VDict [("version", version);
                             ("digest",
                              VStr (sha256_hexdigest
                                      (compress (document_of (fs w) name m))))]).
Proof.
  intros Hscan Hnd _ Hmain.
  apply main_inv in Hmain as (names' & packages & w1 & Hscan' & Hbuild & Hwrite).
  assert (names' = names) as -> by congruence.
  exists packages. split; [now apply read_after_write in Hwrite|].
  unfold build_all in Hbuild.
  destruct (build_all_index names [] packages w w1 Hnd (fun _ _ => eq_refl) Hbuild)
    as (Hkeys & _ & Hin).
  split; [exact Hkeys | exact Hin].
Qed.

(** The loop of the driver leaves the archive of every indexed package in
    the pool, when no two of them share an archive path. *)
Lemma build_all_archives (names : list string) :
  forall (acc packages : dict) (w w' : world),
    NoDup names -> archive_paths_differ (fs w) names ->
    for_each names index_package acc w = (w', Ok packages) ->
    forall n m version,
      In n names -> manifest_object (fs w) n = Some m ->
      dict_get "version" m = Some version ->
      exists text,
        bytes_decode (compress (document_of (fs w) n m)) = Some text
        /\ read_text (fs w') (pool_path n version) = Ok text.
Proof.
  induction names as [|x names IH]; intros acc packages w w' Hnd Hdist;
    [intros _ n m version []|].
  cbn [for_each]. intros Hrun.
  apply bind_inv in Hrun as (w1 & acc1 & Hstep & Hrest).
  inversion Hnd as [|? ? Hx Hnd']; subst.
  assert (Hframe : forall cs, lookup (fs w1) ("packages" :: cs)
                              = lookup (fs w) ("packages" :: cs))
    by (intros cs; exact (index_package_frame _ _ _ _ _ cs Hstep)).
  intros n m version [<-|Hn] Hm Hv.
  - apply index_package_inv in Hstep
      as [(Hm' & _)|(m' & version' & text & root1 & Hm' & Hv' & Hdec & _ & H2 & _)];
      [congruence|].
    assert (m' = m) as -> by congruence.
    assert (version' = version) as -> by congruence.
    exists text. split; [exact Hdec|].
    apply read_after_write in H2. rewrite read_text_file in H2 |- *.
    rewrite (build_all_other _ text names acc1 w1 w' _ Hrest); [exact H2|].
    intros name m2 v2 Hin Hm2 Hv2.
    rewrite (manifest_object_frame _ _ name Hframe) in Hm2.
    apply (Hdist x name m m2 version v2); auto; [now left | now right |].
    intros ->. contradiction.
  - rewrite <- (manifest_object_frame _ _ n Hframe) in Hm.
    rewrite <- (document_of_frame _ _ n m Hframe).
    apply (IH acc1 packages w1 w' Hnd'); auto.
    intros n1 n2 m1 m2 v1 v2 H1 H2 Hne Hm1 Hm2.
    rewrite (manifest_object_frame _ _ n1 Hframe) in Hm1.
    rewrite (manifest_object_frame _ _ n2 Hframe) in Hm2.
    apply (Hdist n1 n2 m1 m2 v1 v2); auto; now right.
Qed.

(** After a complete run over packages no two of which share an archive
    path, every entry of the index names an archive that is in the pool,
    and its digest is the SHA-256 hex digest of the bytes of that file. *)
Theorem run_index_matches_pool (w w' : world) (names : list string) :
  law_text_strict ->
  scandir (fs w) PACKAGES_ROOT_SRC_DIR = Ok names -> NoDup names ->
  archives_distinct (fs w) names ->
  main w = (w', Ok tt) ->
  exists packages,
    read_text (fs w') index_path = Ok (json_dumps (VDict packages))
    /\ forall name entry,
         dict_get name packages = Some entry ->
         exists version text,
           read_text (fs w') (pool_path name version) = Ok text
           /\ entry = VDict [("version", version);
                             ("digest",
                              VStr (sha256_hexdigest (str_encode text)))].
Proof.
  intros Hstrict Hscan Hnd [_ Hdist] Hmain.
  apply main_inv in Hmain as (names' & packages & w1 & Hscan' & Hbuild & Hwrite).
  assert (names' = names) as -> by congruence.
  exists packages. split; [now apply read_after_write in Hwrite|].
  unfold build_all in Hbuild.
  destruct (build_all_index names [] packages w w1 Hnd (fun _ _ => eq_refl) Hbuild)
    as (Hkeys & _ & Hin).
  intros name entry Hentry.
  pose proof (dict_get_keys _ _ _ Hentry) as Hkey.
  rewrite Hkeys in Hkey. apply filter_In in Hkey as [Hname Hobj].
  unfold has_object_manifest in Hobj.
  destruct (manifest_object (fs w) name) as [m|] eqn:Hm; [|discriminate].
  destruct (Hin name m Hname Hm) as (version & Hv & Hget).
  destruct (build_all_archives names [] packages w w1 Hnd Hdist Hbuild
              name m version Hname Hm Hv) as (text & Hdec & Hread).
  exists version, text. split.
  - rewrite read_text_file in Hread |- *.
    rewrite (write_other _ _ _ _ _ text Hwrite); [exact Hread|].
    intros E. now apply (archive_not_index name version).
  - rewrite (Hstrict _ _ Hdec). unfold index_entry in Hget. congruence.
Qed.

(** *** Packages that go through *)

Lemma manifest_text_object (root : node) (name text : string) (m : dict) :
  valid_name name = true ->
  manifest_text root name = Some text -> json_loads text = Some (VDict m) ->
  manifest_object root name = Some m.
Proof.
  intros Hn Htext Hparse. unfold manifest_object.
  now rewrite (read_manifest_text _ _ _ Hn Htext), Hparse.
Qed.







(** *** Manifests that cannot be opened *)

Lemma write_package_manifest_error (name : string) (w : world) (e : exn) :
  read_text (fs w) (manifest_path name) = Raise e -> e <> FileNotFoundError ->
  write_package name w
  = (World (fs w) (stdout w ++ ["Packaging " +:+ name; "[i] Reading manifest"]),
     Raise e).
Proof.
  intros Hread He. rewrite write_package_run, build_package_run, get_manifest_run.
  cbn [fs stdout]. rewrite Hread.
  destruct e; try contradiction; now rewrite <- app_assoc.
Qed.

(** Only a missing manifest is forgiven.  An entry of the packages
    directory that is a regular file, or a [manifest.json] that is a
    directory, makes [open] raise another error than [FileNotFoundError];
    nothing catches it, and the run ends there, without an index. *)
Theorem unreadable_manifest_aborts (name : string) (w : world) :
  valid_name name = true ->
  forall e,
    (exists t, lookup (fs w) (package_components name) = Ok (File t)
               /\ e = NotADirectoryError)
    \/ (exists es, lookup (fs w) (manifest_components name) = Ok (Dir es)
                   /\ e = IsADirectoryError) ->
    let w' := World (fs w)
                (stdout w ++ ["Packaging " +:+ name; "[i] Reading manifest"]) in
    write_package name w = (w', Raise e)
    /\ forall w0 pre rest acc,
         scandir (fs w0) PACKAGES_ROOT_SRC_DIR = Ok (pre ++ name :: rest) ->
         build_all pre w0 = (w, Ok acc) ->
         main w0 = (w', Raise e).
Proof.
  intros Hn e Hcase w'.
  assert (Hrun : write_package name w = (w', Raise e)).
  { apply write_package_manifest_error.
    - unfold read_text, manifest_path. rewrite (components_manifest _ Hn).
      destruct Hcase as [(t & Hl & ->)|(es & Hl & ->)].
      + change (manifest_components name)
          with (package_components name ++ [MANIFEST_FILE]).
        rewrite lookup_app, Hl. reflexivity.
      + now rewrite Hl.
    - destruct Hcase as [(t & _ & ->)|(es & _ & ->)]; discriminate. }
  split; [exact Hrun|].
  intros w0 pre rest acc Hscan Hpre. eapply main_raise; eassumption.
Qed.

(** *** Archives that cannot be opened *)

(** The version goes into the name of the archive unchecked.  When the
    name has a NUL in it, [open] raises [ValueError]; when it is a name of
    more than [NAME_MAX] bytes in the pool directory, [open] raises
    [OSError].  Either way the document has been assembled, nothing is
    written, and the run ends there without an index. *)
Theorem unopenable_archive_aborts
    (name : string) (w : world) (text : string) (m : dict) (version : value)
    (e : exn) :
  valid_name name = true -> wf_source (fs w) name = true ->
  manifest_text (fs w) name = Some text -> json_loads text = Some (VDict m) ->
  dict_get "version" m = Some version ->
  (has_char nul (archive_name name version) = true /\ e = ValueError)
  \/ (has_char nul (archive_name name version) = false
      /\ valid_name (archive_name name version) = true
      /\ NAME_MAX < name_bytes (archive_name name version)
      /\ (exists es, lookup (fs w) ["pool"] = Ok (Dir es))
      /\ e = OSError) ->
  exists w',
    write_package name w = (w', Raise e)
    /\ fs w' = fs w
    /\ forall w0 pre rest acc,
         scandir (fs w0) PACKAGES_ROOT_SRC_DIR = Ok (pre ++ name :: rest) ->
         build_all pre w0 = (w, Ok acc) ->
         main w0 = (w', Raise e).
Proof.
  intros Hn Hwf Htext Hparse Hver Hcase.
  pose proof (build_package_dict name
                (World (fs w) (stdout w ++ ["Packaging " +:+ name])) text m
                Hn Hwf Htext Hparse) as Hb.
  cbn [fs stdout] in Hb.
  assert (Hopen : write_text (fs w) (pool_path name version) "" = Raise e).
  { rewrite pool_path_eq. fold (archive_name name version).
    unfold write_text. rewrite !has_char_app.
    change (has_char nul PACKAGES_POOL_DIR) with false.
    change (has_char nul "/") with false. cbn [orb].
    destruct Hcase as [(-> & ->)|(-> & Hv & Hlong & (ps & Hpool) & ->)];
      [reflexivity|].
    destruct (Nat.leb PATH_MAX _); [reflexivity|].
    rewrite components_pool, (components_valid _ Hv).
    destruct (fs w) as [t0|es]; [discriminate|]. cbn [lookup] in Hpool.
    cbn [store]. change (Nat.ltb NAME_MAX (name_bytes "pool")) with false.
    cbv iota. destruct (assoc_get "pool" es) as [[t1|ps']|]; try discriminate.
    cbn [store]. apply Nat.ltb_lt in Hlong. now rewrite Hlong. }
  eexists. split; [|split].
  - rewrite write_package_run, Hb. unfold getitem.
    rewrite dict_get_set_other by discriminate. rewrite Hver. cbn [fs].
    rewrite Hopen. reflexivity.
  - reflexivity.
  - intros w0 pre rest acc Hscan Hpre. eapply main_raise; try eassumption.
    rewrite write_package_run, Hb. unfold getitem.
    rewrite dict_get_set_other by discriminate. rewrite Hver. cbn [fs].
    rewrite Hopen. reflexivity.
Qed.

(** *** Archives and key order *)

(** Different documents have different archives. *)
Theorem compress_injective (a b : value) :
  archive_laws -> wf_value a = true -> wf_value b = true ->
  compress a = compress b -> a = b.
Proof.
  intros Hlaws Ha Hb E.
  pose proof (decode_compress a Hlaws Ha) as Da.
  pose proof (decode_compress b Hlaws Hb) as Db.
  rewrite E in Da. congruence.
Qed.

(** The order of the keys, which is the order [json.dumps] writes them in:
    the document has the manifest's keys in the manifest's order, with
    [files] where the manifest had it or else at the end, and [files] has
    the File Collector's paths in the order of the walk. *)
Theorem document_key_order
    (name : string) (w w' : world) (m : dict) (package : value) :
  valid_name name = true -> wf_source (fs w) name = true ->
  manifest_object (fs w) name = Some m ->
  build_package name w = (w', Ok package) ->
  exists doc files,
    package = VDict doc
    /\ keys doc = match dict_get "files" m with
                  | Some _ => keys m
                  | None => keys m ++ ["files"]
                  end
    /\ dict_get "files" doc = Some (VDict files)
    /\ keys files = package_files (fs w) name.
Proof.
  intros Hn Hwf Hm Hb.
  apply build_package_inv in Hb as [[_ Hnone]|(m' & Hm' & ->)]; [congruence|].
  assert (m' = m) as -> by congruence.
  eexists _, _. split; [reflexivity|]. split; [|split].
  - unfold dict_set. now rewrite keys_assoc_set.
  - apply dict_get_set_same.
  - rewrite (collect_source_files _ _ Hn Hwf), keys_files_of.
    now rewrite (package_files_keys _ _ Hn Hwf).
Qed.

(** *** The directories of a run *)

Lemma archive_components (name : string) (version : value) :
  exists c cs, components (pool_path name version) = "pool" :: c :: cs.
Proof.
  rewrite pool_path_eq, components_pool.
  destruct (components (name +:+ "." +:+ format_value version +:+ ".ccp"))
    as [|c cs] eqn:E; [|now exists c, cs].
  assert (Hl : last_char (name +:+ "." +:+ format_value version +:+ ".ccp")
               = Some "p"%char)
    by (rewrite <- !append_assoc; now rewrite last_char_app).
  apply components_last_char in Hl; [|discriminate..].
  rewrite E in Hl. discriminate.
Qed.

Lemma store_below_pool (root root' : node) (c t : string) (cs : list string) :
  store root ("pool" :: c :: cs) t = Ok root' ->
  exists es, lookup root ["pool"] = Ok (Dir es).
Proof.
  cbn [store lookup]. destruct root as [t0|es]; [discriminate|].
  destruct (assoc_get "pool" es) as [[t1|ps]|]; try discriminate.
  intros _. now exists ps.
Qed.

Lemma write_package_pool (name : string) (w w' : world) (r : result value) :
  write_package name w = (w', r) ->
  fs w' = fs w \/ exists es, lookup (fs w) ["pool"] = Ok (Dir es).
Proof.
  intros H.
  apply write_package_cases in H
    as [[Hfs _]|(m & version & root1 & _ & _ & H1 & _)]; [now left|].
  right. apply write_text_store in H1.
  destruct (archive_components name version) as (c & cs & E).
  rewrite E in H1. exact (store_below_pool _ _ _ _ _ H1).
Qed.

Lemma build_all_pool (names : list string) :
  forall (acc : dict) (w w' : world) (r : result dict),
    for_each names index_package acc w = (w', r) ->
    fs w' = fs w \/ exists es, lookup (fs w) ["pool"] = Ok (Dir es).
Proof.
  induction names as [|x names IH]; intros acc w w' r.
  - cbn. unfold ret. intros [= <- _]. now left.
  - cbn [for_each]. unfold bind, index_package at 1, bind.
    destruct (write_package x w) as [w1 [idx|e]] eqn:Hw;
      apply write_package_pool in Hw as [Hfs|Hpool];
      try (intros _; now right).
    + intros H.
      assert (exists acc1, for_each names index_package acc1 w1 = (w', r))
        as [acc1 Hrest] by (destruct idx; unfold ret in H; eauto).
      apply IH in Hrest as [Hfs'|Hpool]; rewrite Hfs in *; auto.
    + intros [= <- _]. now left.
Qed.

(** The script creates no directory: a run can only complete where both
    [./packages] and [./pool] are directories already. *)
Theorem run_needs_directories (w w' : world) :
  main w = (w', Ok tt) ->
  (exists ps, lookup (fs w) ["packages"] = Ok (Dir ps))
  /\ (exists es, lookup (fs w) ["pool"] = Ok (Dir es)).
Proof.
  intros Hmain.
  apply main_inv in Hmain as (names & packages & w1 & Hscan & Hbuild & Hwrite).
  split.
  - unfold scandir in Hscan.
    change (components PACKAGES_ROOT_SRC_DIR) with ["packages"] in Hscan.
    destruct (lookup (fs w) ["packages"]) as [[t|ps]|e]; try discriminate.
    now exists ps.
  - apply write_text_store in Hwrite.
    change (components index_path) with ["pool"; "index.json"] in Hwrite.
    apply store_below_pool in Hwrite.
    unfold build_all in Hbuild.
    apply build_all_pool in Hbuild as [Hfs|Hpool]; [|exact Hpool].
    now rewrite <- Hfs.
Qed.

(** *** Running again *)

Lemma main_frame (w w' : world) (cs : list string) :
  main w = (w', Ok tt) ->
  lookup (fs w') ("packages" :: cs) = lookup (fs w) ("packages" :: cs).
Proof.
  intros Hmain.
  apply main_inv in Hmain as (names & packages & w1 & _ & Hbuild & Hwrite).
  rewrite (write_pool_frame _ _ INDEX_FILE _ cs Hwrite).
  exact (build_all_frame _ _ _ _ _ cs Hbuild).
Qed.

Lemma archive_paths_differ_frame (r1 r2 : node) (names : list string) :
  (forall cs, lookup r1 ("packages" :: cs) = lookup r2 ("packages" :: cs)) ->
  archive_paths_differ r2 names -> archive_paths_differ r1 names.
Proof.
  intros H Hd n1 n2 m1 m2 v1 v2 H1 H2 Hne Hm1 Hm2.
  rewrite (manifest_object_frame _ _ n1 H) in Hm1.
  rewrite (manifest_object_frame _ _ n2 H) in Hm2.
  now apply (Hd n1 n2 m1 m2).
Qed.

(** Whether a path is the archive of one of the packages. *)
Lemma archive_path_dec (root : node) (names : list string) (cs : list string) :
  (exists name m version,
     In name names /\ manifest_object root name = Some m
     /\ dict_get "version" m = Some version
     /\ cs = components (pool_path name version))
  \/ (forall name m version,
        In name names ->
        manifest_object root name = Some m -> dict_get "version" m = Some version ->
        cs <> components (pool_path name version)).
Proof.
  induction names as [|x names IH]; [right; intros ? ? ? []|].
  destruct IH as [(name & m & version & Hin & H)|Hall].
  { left. exists name, m, version. split; [now right | exact H]. }
  destruct (manifest_object root x) as [m|] eqn:Hm.
  - destruct (dict_get "version" m) as [version|] eqn:Hv.
    + destruct (list_eq_dec string_dec cs (components (pool_path x version)))
        as [E|Hne].
      * left. exists x, m, version. repeat split; auto. now left.
      * right. intros name m' v' [<-|Hin] Hm' Hv'; [|now apply (Hall name m')].
        congruence.
    + right. intros name m' v' [<-|Hin] Hm' Hv'; [|now apply (Hall name m')].
      congruence.
  - right. intros name m' v' [<-|Hin] Hm' Hv'; [|now apply (Hall name m')].
    congruence.
Qed.

(** The files a complete run leaves where it writes: the index, and the
    archive of every indexed package. *)
Lemma main_written (w w' : world) (names : list string) :
  scandir (fs w) PACKAGES_ROOT_SRC_DIR = Ok names -> NoDup names ->
  archive_paths_differ (fs w) names ->
  main w = (w', Ok tt) ->
  exists packages w1,
    build_all names w = (w1, Ok packages)
    /\ lookup (fs w') (components index_path)
       = Ok (File (json_dumps (VDict packages)))
    /\ forall name m version,
         In name names -> manifest_object (fs w) name = Some m ->
         dict_get "version" m = Some version ->
         exists text,
           bytes_decode (compress (document_of (fs w) name m)) = Some text
           /\ lookup (fs w') (components (pool_path name version))
              = Ok (File text).
Proof.
  intros Hscan Hnd Hdist Hmain.
  apply main_inv in Hmain as (names' & packages & w1 & Hscan' & Hbuild & Hwrite).
  assert (names' = names) as -> by congruence.
  exists packages, w1. split; [exact Hbuild|]. split.
  - apply read_after_write in Hwrite. now apply read_text_file.
  - intros name m version Hin Hm Hv. unfold build_all in Hbuild.
    destruct (build_all_archives names [] packages w w1 Hnd Hdist Hbuild
                name m version Hin Hm Hv) as (text & Hdec & Hread).
    exists text. split; [exact Hdec|]. apply read_text_file in Hread.
    rewrite (write_other _ _ _ _ _ text Hwrite); [exact Hread|].
    intros E. now apply (archive_not_index name version).
Qed.

(** Running the script again changes no file.  After a complete run over
    packages no two of which share an archive path, a second complete run
    leaves every file with the text it has, creates none and removes
    none. *)
Theorem rerun_changes_no_file
    (w w1 w2 : world) (names : list string) (cs : list string) (t : string) :
  scandir (fs w) PACKAGES_ROOT_SRC_DIR = Ok names -> NoDup names ->
  archives_distinct (fs w) names ->
  main w = (w1, Ok tt) -> main w1 = (w2, Ok tt) ->
  (lookup (fs w2) cs = Ok (File t) <-> lookup (fs w1) cs = Ok (File t)).
Proof.
  intros Hscan Hnd [_ Hdist] H1 H2.
  assert (Hframe : forall cs', lookup (fs w1) ("packages" :: cs')
                               = lookup (fs w) ("packages" :: cs'))
    by (intros cs'; exact (main_frame _ _ cs' H1)).
  assert (Hscan1 : scandir (fs w1) PACKAGES_ROOT_SRC_DIR = Ok names).
  { rewrite <- Hscan. unfold scandir.
    change (components PACKAGES_ROOT_SRC_DIR) with ["packages"].
    now rewrite Hframe. }
  pose proof (archive_paths_differ_frame _ _ names Hframe Hdist) as Hdist1.
  destruct (main_written _ _ _ Hscan Hnd Hdist H1)
    as (p1 & u1 & Hb1 & Hi1 & Ha1).
  destruct (main_written _ _ _ Hscan1 Hnd Hdist1 H2)
    as (p2 & u2 & Hb2 & Hi2 & Ha2).
  assert (p2 = p1) as ->.
  { unfold build_all in Hb1, Hb2.
    exact (build_all_det names [] w1 w u2 u1 p2 p1 Hframe Hb2 Hb1). }
  destruct (list_eq_dec string_dec cs (components index_path)) as [->|Hindex];
    [now rewrite Hi1, Hi2|].
  destruct (archive_path_dec (fs w) names cs)
    as [(name & m & version & Hin & Hm & Hv & ->)|Hother].
  - destruct (Ha1 name m version Hin Hm Hv) as (text1 & Hd1 & ->).
    rewrite <- (manifest_object_frame _ _ name Hframe) in Hm.
    destruct (Ha2 name m version Hin Hm Hv) as (text2 & Hd2 & ->).
    rewrite (document_of_frame _ _ name m Hframe) in Hd2.
    assert (text2 = text1) as -> by congruence. reflexivity.
  - apply main_inv in H2 as (names' & p2 & u2' & Hs2 & Hb2' & Hw2).
    assert (names' = names) as -> by congruence.
    rewrite (write_other _ _ _ _ cs t Hw2 Hindex).
    unfold build_all in Hb2'.
    apply (build_all_other cs t names [] w1 u2' _ Hb2').
    intros name m version Hin Hm. apply (Hother name m version Hin).
    now rewrite <- (manifest_object_frame _ _ name Hframe).
Qed.

End Properties.

(** ** The packages of a run *)




(** *** The keys of the File Collector *)

Lemma startswith_slash_app (c x : string) :
  valid_name c = true -> startswith "/" (c +:+ x) = false.
Proof.
  intros H. pose proof (startswith_slash_valid _ H) as Hs.
  destruct c as [|a c]; [discriminate H|].
  unfold startswith in *. cbn [strip_prefix append] in *.
  now destruct (Ascii.eqb "/" a).
Qed.

(** C2, as the code has it.  The File Collector yields, for every file of
    the source tree, the path [<subdirectory>/<filename>] relative to the
    source root; the subdirectory part is empty exactly for the files
    directly in the source root, and only their paths start with [/]. *)
Theorem package_files_key_shape (root : node) (name : string) :
  valid_name name = true -> wf_source root name = true ->
  package_files root name = map (fun p => key_of (fst p)) (source_files root name)
  /\ forall cs t,
       In (cs, t) (source_files root name) ->
       key_of cs = join "/" (removelast cs) +:+ "/" +:+ last cs ""
       /\ (startswith "/" (key_of cs) = true <-> List.length cs = 1).
Proof.
  intros Hn Hwf. split; [now apply package_files_keys|].
  intros cs t Hin.
  destruct (source_files_lookup _ _ _ _ Hwf Hin) as (_ & Hv & Hne). split.
  - rewrite (app_removelast_last "" Hne) at 1. apply key_of_snoc.
  - destruct cs as [|c [|c' l]]; [contradiction| |].
    + split; [reflexivity|]. intros _. unfold key_of, startswith. cbn.
      reflexivity.
    + split; [|discriminate]. intros Hs. exfalso.
      cbn [forallb] in Hv. apply andb_true_iff in Hv as [Hc _].
      unfold key_of in Hs. rewrite join_cons in Hs by discriminate.
      now rewrite (startswith_slash_app _ _ Hc) in Hs.
Qed.

(** ** The reference library meets the laws *)

(** *** Text *)

Lemma ref_text_roundtrip (s : string) : ref_bytes_decode (ref_str_encode s) = Some s.
Proof.
  induction s as [|c s IH]; [reflexivity|].
  destruct c as [b0 b1 b2 b3 b4 b5 b6 [|]]; cbn [ref_str_encode ref_encode_char app];
    cbn [ref_bytes_decode]; rewrite !ascii_of_byte_of_ascii, IH; reflexivity.
Qed.

Lemma ref_text_strict_upto (n : nat) :
  forall b s, List.length b <= n -> ref_bytes_decode b = Some s -> ref_str_encode s = b.
Proof.
  induction n as [|n IH]; intros b s Hlen.
  - destruct b; [|cbn in Hlen; lia]. now intros [= <-].
  - destruct b as [|x rest]; [now intros [= <-]|]. cbn [ref_bytes_decode].
    destruct (ascii_of_byte x) as [x0 x1 x2 x3 x4 x5 x6 x7] eqn:Hx.
    apply (f_equal byte_of_ascii) in Hx. rewrite byte_of_ascii_of_byte in Hx.
    destruct x7; cbn [negb].
    + destruct x6, x5, x4, x3, x2, x1; try discriminate. cbn [andb negb].
      destruct rest as [|y rest']; [discriminate|].
      destruct (ascii_of_byte y) as [y0 y1 y2 y3 y4 y5 y6 y7] eqn:Hy.
      apply (f_equal byte_of_ascii) in Hy. rewrite byte_of_ascii_of_byte in Hy.
      destruct y7, y6; try discriminate. cbn [andb negb].
      destruct (ref_bytes_decode rest') as [s'|] eqn:Hrest; [|discriminate].
      intros [= <-]. cbn [ref_str_encode ref_encode_char app].
      rewrite (IH rest' s');
        [now rewrite <- Hx, <- Hy | cbn in Hlen; lia | exact Hrest].
    + destruct (ref_bytes_decode rest) as [s'|] eqn:Hrest; [|discriminate].
      intros [= <-]. cbn [ref_str_encode ref_encode_char app].
      rewrite (IH rest s'); [now rewrite <- Hx | cbn in Hlen; lia | exact Hrest].
Qed.

Lemma ref_text_strict (b : list byte) (s : string) :
  ref_bytes_decode b = Some s -> ref_str_encode s = b.
Proof. apply (ref_text_strict_upto (List.length b)). lia. Qed.

Lemma ref_decode_ascii (b : list byte) :
  forallb is_ascii_byte b = true -> ref_bytes_decode b <> None.
Proof.
  induction b as [|x b IH]; [discriminate|]. cbn [forallb ref_bytes_decode].
  intros H. apply andb_true_iff in H as [Hx Hb]. unfold is_ascii_byte in Hx.
  destruct (ascii_of_byte x) as [x0 x1 x2 x3 x4 x5 x6 x7]. rewrite Hx.
  destruct (ref_bytes_decode b); [discriminate | now destruct (IH Hb)].
Qed.

(** *** Base64 *)

Lemma b64_sextet_char (s : sextet) : b64_sextet (b64_char s) = Some s.
Proof.
  destruct s as [[[[[[|] [|]] [|]] [|]] [|]] [|]]; vm_compute; reflexivity.
Qed.

Lemma b64_char_ascii (s : sextet) : is_ascii_byte (b64_char s) = true.
Proof.
  destruct s as [[[[[[|] [|]] [|]] [|]] [|]] [|]]; vm_compute; reflexivity.
Qed.

Lemma byte_of_bits_of_byte (x : byte) :
  let '(x7, x6, x5, x4, x3, x2, x1, x0) := bits_of_byte x in
  byte_of_bits x7 x6 x5 x4 x3 x2 x1 x0 = x.
Proof.
  unfold bits_of_byte, byte_of_bits.
  destruct (ascii_of_byte x) as [x0 x1 x2 x3 x4 x5 x6 x7] eqn:E.
  now rewrite <- E, byte_of_ascii_of_byte.
Qed.

Lemma ref_b64_upto (n : nat) :
  forall b, List.length b <= n ->
    ref_b64decode (ref_b64encode b) = Some b
    /\ forallb is_ascii_byte (ref_b64encode b) = true.
Proof.
  induction n as [|n IH]; intros b Hlen.
  - destruct b; [now split | cbn in Hlen; lia].
  - destruct b as [|x [|y [|z rest]]]; [now split| | |].
    + pose proof (byte_of_bits_of_byte x) as Hx. cbn [ref_b64encode].
      destruct (bits_of_byte x) as [[[[[[[x7 x6] x5] x4] x3] x2] x1] x0]. split.
      * cbn [ref_b64decode]. rewrite !b64_sextet_char.
        change (b64_sextet b64_pad) with (@None sextet).
        change (is_pad b64_pad) with true. cbn [andb]. now rewrite Hx.
      * cbn [forallb]. now rewrite !b64_char_ascii.
    + pose proof (byte_of_bits_of_byte x) as Hx.
      pose proof (byte_of_bits_of_byte y) as Hy. cbn [ref_b64encode].
      destruct (bits_of_byte x) as [[[[[[[x7 x6] x5] x4] x3] x2] x1] x0].
      destruct (bits_of_byte y) as [[[[[[[y7 y6] y5] y4] y3] y2] y1] y0]. split.
      * cbn [ref_b64decode]. rewrite !b64_sextet_char.
        change (b64_sextet b64_pad) with (@None sextet).
        change (is_pad b64_pad) with true. now rewrite Hx, Hy.
      * cbn [forallb]. now rewrite !b64_char_ascii.
    + pose proof (byte_of_bits_of_byte x) as Hx.
      pose proof (byte_of_bits_of_byte y) as Hy.
      pose proof (byte_of_bits_of_byte z) as Hz. cbn [ref_b64encode].
      destruct (bits_of_byte x) as [[[[[[[x7 x6] x5] x4] x3] x2] x1] x0].
      destruct (bits_of_byte y) as [[[[[[[y7 y6] y5] y4] y3] y2] y1] y0].
      destruct (bits_of_byte z) as [[[[[[[z7 z6] z5] z4] z3] z2] z1] z0].
      destruct (IH rest) as [Hd Ha]; [cbn in Hlen; lia|]. split.
      * cbn [ref_b64decode]. rewrite !b64_sextet_char, Hd. cbn [option_map].
        now rewrite Hx, Hy, Hz.
      * cbn [forallb]. now rewrite !b64_char_ascii, Ha.
Qed.

Lemma ref_b64_roundtrip (b : list byte) : ref_b64decode (ref_b64encode b) = Some b.
Proof. now apply (ref_b64_upto (List.length b)). Qed.

Lemma ref_b64_text (b : list byte) : ref_bytes_decode (ref_b64encode b) <> None.
Proof. apply ref_decode_ascii. now apply (ref_b64_upto (List.length b)). Qed.

(** *** JSON *)

Lemma length_append (a b : string) :
  String.length (a +:+ b) = String.length a + String.length b.
Proof. induction a as [|c a IH]; cbn; [reflexivity | now rewrite IH]. Qed.

Lemma parse_chars_escape_char (c : ascii) (tail : string) :
  parse_chars (escape_char c +:+ tail) = cons_char c (parse_chars tail).
Proof.
  destruct c as [[|] [|] [|] [|] [|] [|] [|] [|]]; reflexivity.
Qed.

Lemma parse_chars_escape (s rest : string) :
  parse_chars (escape s +:+ String quote rest) = Some (s, rest).
Proof.
  induction s as [|c s IH]; [reflexivity|].
  cbn [escape]. now rewrite append_assoc, parse_chars_escape_char, IH.
Qed.

Lemma all_num_uint (d : Decimal.uint) : all_num (NilEmpty.string_of_uint d) = true.
Proof.
  induction d; cbn [NilEmpty.string_of_uint all_num]; try rewrite IHd; reflexivity.
Qed.

Lemma all_num_nilzero (d : Decimal.uint) : all_num (NilZero.string_of_uint d) = true.
Proof. destruct d; [reflexivity | apply all_num_uint ..]. Qed.

Lemma all_num_Z (z : Z) : all_num (string_of_Z z) = true.
Proof.
  unfold string_of_Z, NilZero.string_of_int.
  destruct (Z.to_int z) as [d|d]; cbn [all_num]; now rewrite all_num_nilzero.
Qed.

Lemma string_of_Z_nonempty (z : Z) : string_of_Z z <> "".
Proof.
  unfold string_of_Z, NilZero.string_of_int.
  destruct (Z.to_int z) as [d|d]; [|discriminate]. destruct d; discriminate.
Qed.

Lemma span_num_app (t rest : string) :
  all_num t = true -> tail_ok rest = true -> span_num (t +:+ rest) = (t, rest).
Proof.
  intros Ht Hrest. induction t as [|c t IH]; cbn [span_num append].
  - destruct rest as [|c r]; [reflexivity|]. cbn [tail_ok] in Hrest.
    apply negb_true_iff in Hrest. cbn [span_num]. now rewrite Hrest.
  - cbn [all_num] in Ht. apply andb_true_iff in Ht as [Hc Ht].
    now rewrite Hc, (IH Ht).
Qed.

Lemma to_int_proper (z : Z) :
  Z.to_int z <> Decimal.Pos Decimal.Nil /\ Z.to_int z <> Decimal.Neg Decimal.Nil.
Proof.
  destruct z as [|p|p]; cbn; split; try discriminate;
    intros [= H]; now apply DecimalPos.Unsigned.to_uint_nonnil in H.
Qed.

Lemma parse_number_Z (z : Z) (rest : string) :
  tail_ok rest = true -> parse_number (string_of_Z z +:+ rest) = Some (VInt z, rest).
Proof.
  intros Hrest. unfold parse_number.
  rewrite (span_num_app _ _ (all_num_Z z) Hrest). unfold string_of_Z at 1.
  destruct (to_int_proper z) as [Hp Hn]. rewrite (NilZero.isi _ Hp Hn).
  rewrite DecimalZ.of_to, String.eqb_refl. reflexivity.
Qed.

Lemma num_char_plain (c : ascii) :
  is_num_char c = true ->
  is_ws c = false /\ Ascii.eqb c quote = false /\ Ascii.eqb c "[" = false
  /\ Ascii.eqb c "{" = false /\ Ascii.eqb c "n" = false /\ Ascii.eqb c "t" = false
  /\ Ascii.eqb c "f" = false /\ Ascii.eqb c "]" = false /\ Ascii.eqb c "}" = false.
Proof.
  destruct c as [[|] [|] [|] [|] [|] [|] [|] [|]]; intros H;
    try discriminate H; repeat split; reflexivity.
Qed.

Lemma dumps_start (v : value) (rest : string) :
  value_start (ref_json_dumps v +:+ rest).
Proof.
  unfold value_start. destruct v as [|[|]|z|s|l|d]; cbn [ref_json_dumps];
    try (eexists _, _; repeat split; reflexivity).
  pose proof (all_num_Z z) as Hall. pose proof (string_of_Z_nonempty z) as Hne.
  destruct (string_of_Z z) as [|c t]; [contradiction|].
  cbn [all_num] in Hall. apply andb_true_iff in Hall as [Hc _].
  destruct (num_char_plain _ Hc) as (? & _ & _ & _ & _ & _ & _ & ? & ?).
  now exists c, (t +:+ rest).
Qed.

Lemma skip_ws_start (s : string) : value_start s -> skip_ws s = s.
Proof. intros (c & t & -> & Hws & _). cbn. now rewrite Hws. Qed.

Lemma parse_value_space (fuel : nat) (s : string) :
  parse_value fuel (String " " s) = parse_value fuel s.
Proof. destruct fuel; reflexivity. Qed.

Lemma parse_elems_space (fuel : nat) (s : string) (acc : list value) :
  parse_elems fuel (String " " s) acc = parse_elems fuel s acc.
Proof.
  destruct fuel; [reflexivity|]. cbn [parse_elems]. now rewrite parse_value_space.
Qed.

Lemma parse_members_space (fuel : nat) (s : string) (acc : dict) :
  parse_members fuel (String " " s) acc = parse_members fuel s acc.
Proof. destruct fuel; reflexivity. Qed.

Lemma value_nested_ind (P : value -> Prop) :
  P VNone -> (forall b, P (VBool b)) -> (forall z, P (VInt z)) ->
  (forall s, P (VStr s)) ->
  (forall l, Forall P l -> P (VList l)) ->
  (forall d, Forall (fun e => P (snd e)) d -> P (VDict d)) ->
  forall v, P v.
Proof.
  intros HN HB HZ HS HL HD. fix IH 1.
  intros [|b|z|s|l|d]; [exact HN | apply HB | apply HZ | apply HS | |].
  - apply HL. induction l as [|x l IHl]; constructor; [apply IH | exact IHl].
  - apply HD. induction d as [|[k x] d IHd]; constructor; [apply IH | exact IHd].
Qed.

Lemma parse_value_atom (v : value) (fuel : nat) (rest : string) :
  match v with VList _ | VDict _ => False | _ => True end ->
  String.length (ref_json_dumps v) <= fuel -> tail_ok rest = true ->
  parse_value fuel (ref_json_dumps v +:+ rest) = Some (v, rest).
Proof.
  intros Hv Hfuel Hrest.
  destruct fuel as [|fuel].
  { exfalso. destruct v as [|[|]|z|s|l|d]; cbn in Hfuel; try lia.
    pose proof (string_of_Z_nonempty z). destruct (string_of_Z z); [contradiction|].
    cbn in Hfuel. lia. }
  destruct v as [|[|]|z|s|l|d]; try contradiction; try reflexivity.
  - cbn [ref_json_dumps parse_value].
    pose proof (all_num_Z z) as Hall. pose proof (string_of_Z_nonempty z) as Hne.
    pose proof (parse_number_Z z rest Hrest) as Hnum.
    destruct (string_of_Z z) as [|c t]; [contradiction|].
    cbn [all_num] in Hall. apply andb_true_iff in Hall as [Hc _].
    destruct (num_char_plain _ Hc) as (Hws & H1 & H2 & H3 & H4 & H5 & H6 & _).
    cbn [append skip_ws]. rewrite Hws, H1, H2, H3, H4, H5, H6. exact Hnum.
  - cbn [ref_json_dumps ref_dumps_string append parse_value skip_ws].
    change (is_ws quote) with false. cbv iota.
    rewrite Ascii.eqb_refl, append_assoc. cbn [append].
    now rewrite parse_chars_escape.
Qed.

Lemma dumps_length_pos (v : value) : 1 <= String.length (ref_json_dumps v).
Proof.
  destruct (dumps_start v "") as (c & t & E & _).
  rewrite append_nil_r in E. rewrite E. cbn. lia.
Qed.

(** The elements of a printed list, after its opening bracket. *)
Lemma parse_elems_printed (l : list value) :
  l <> [] -> Forall parses l -> forallb wf_value l = true ->
  forall fuel rest acc,
    String.length (join ", " (map ref_json_dumps l)) < fuel ->
    parse_elems fuel (join ", " (map ref_json_dumps l) +:+ String "]" rest) acc
    = Some (VList (acc ++ l), rest).
Proof.
  induction l as [|x l IH]; [contradiction|]. intros _ Hall Hwf fuel rest acc Hfuel.
  inversion Hall as [|? ? Hx Hl]; subst.
  cbn [forallb] in Hwf. apply andb_true_iff in Hwf as [Hwx Hwl].
  destruct fuel as [|fuel]; [lia|]. destruct l as [|y l].
  - cbn [map join] in *. cbn [parse_elems].
    rewrite (Hx Hwx fuel (String "]" rest)) by (lia || reflexivity).
    reflexivity.
  - cbn [map] in *. rewrite join_cons in * by discriminate.
    rewrite !length_append in Hfuel. cbn [String.length] in Hfuel.
    rewrite !append_assoc. cbn [append parse_elems].
    rewrite (Hx Hwx fuel) by (lia || reflexivity).
    cbn [skip_ws]. change (is_ws ",") with false. cbv iota.
    change (Ascii.eqb "," ",") with true. cbv iota.
    rewrite parse_elems_space, IH; try assumption; try discriminate.
    + now rewrite <- app_assoc.
    + pose proof (dumps_length_pos x). lia.
Qed.

(** The members of a printed object, after its opening brace. *)
Lemma parse_members_printed (d : dict) :
  d <> [] -> Forall (fun e => parses (snd e)) d ->
  forallb (fun e => wf_value (snd e)) d = true ->
  forall fuel rest acc,
    String.length (join ", " (map (member_text ref_json_dumps) d)) < fuel ->
    NoDup (keys acc ++ keys d) ->
    parse_members fuel
      (join ", " (map (member_text ref_json_dumps) d) +:+ String "}" rest) acc
    = Some (VDict (acc ++ d), rest).
Proof.
  induction d as [|[k x] d IH]; [contradiction|].
  intros _ Hall Hwf fuel rest acc Hfuel Hnd.
  inversion Hall as [|? ? Hx Hd]; subst. cbn [snd] in Hx.
  cbn [forallb snd] in Hwf. apply andb_true_iff in Hwf as [Hwx Hwd].
  assert (Hset : dict_set k x acc = acc ++ [(k, x)]).
  { apply assoc_set_fresh. intros Hin. apply NoDup_remove_2 in Hnd.
    apply Hnd, in_or_app. now left. }
  assert (Hnd' : NoDup (keys (acc ++ [(k, x)]) ++ keys d)).
  { unfold keys in *. rewrite map_app, <- app_assoc. exact Hnd. }
  destruct fuel as [|fuel]; [lia|]. destruct d as [|e d].
  - cbn [map join] in *. unfold member_text in *. cbn [fst snd] in *.
    unfold ref_dumps_string in *. rewrite !length_append in Hfuel.
    cbn [String.length] in Hfuel. rewrite !append_assoc.
    cbn [append parse_members skip_ws]. change (is_ws quote) with false. cbv iota.
    cbn [starts_with_char]. rewrite Ascii.eqb_refl, append_assoc. cbn [append].
    rewrite parse_chars_escape. cbn [skip_ws]. change (is_ws ":") with false.
    cbv iota. cbn [starts_with_char]. change (Ascii.eqb ":" ":") with true. cbv iota.
    rewrite parse_value_space, (Hx Hwx fuel (String "}" rest)) by (lia || reflexivity).
    cbn [skip_ws]. change (is_ws "}") with false. cbv iota.
    change (Ascii.eqb "}" ",") with false. change (Ascii.eqb "}" "}") with true.
    cbv iota. now rewrite Hset.
  - cbn [map] in *. rewrite join_cons in * by discriminate.
    unfold member_text at 1 in Hfuel. unfold member_text at 1. cbn [fst snd] in *.
    unfold ref_dumps_string in *. rewrite !length_append in Hfuel.
    cbn [String.length] in Hfuel. rewrite !append_assoc.
    cbn [append parse_members skip_ws]. change (is_ws quote) with false. cbv iota.
    cbn [starts_with_char]. rewrite Ascii.eqb_refl, !append_assoc. cbn [append].
    rewrite parse_chars_escape. cbn [skip_ws]. change (is_ws ":") with false.
    cbv iota. cbn [starts_with_char]. change (Ascii.eqb ":" ":") with true. cbv iota.
    rewrite parse_value_space, (Hx Hwx fuel) by (lia || reflexivity).
    cbn [skip_ws]. change (is_ws ",") with false. cbv iota.
    change (Ascii.eqb "," ",") with true. cbv iota.
    rewrite parse_members_space, Hset, IH; try assumption; try discriminate.
    + now rewrite <- app_assoc.
    + rewrite length_append in Hfuel. lia.
Qed.

Lemma join_start (l : list value) (rest : string) :
  l <> [] -> value_start (join ", " (map ref_json_dumps l) +:+ rest).
Proof.
  destruct l as [|x [|y l]]; [contradiction| |]; intros _.
  - apply dumps_start.
  - cbn [map]. rewrite join_cons by discriminate. rewrite append_assoc.
    apply dumps_start.
Qed.

Lemma ref_parses (v : value) : parses v.
Proof.
  induction v as [| | | |l IH|d IH] using value_nested_ind;
    try (intros _ fuel rest; now apply parse_value_atom).
  - intros Hwf fuel rest Hfuel Hrest. cbn [wf_value] in Hwf.
    cbn [ref_json_dumps] in *. rewrite !length_append in Hfuel.
    cbn [String.length] in Hfuel. destruct fuel as [|fuel]; [lia|].
    destruct l as [|x l]; [reflexivity|].
    rewrite !append_assoc. cbn [append parse_value skip_ws].
    change (is_ws "[") with false. cbv iota.
    change (Ascii.eqb "[" quote) with false. change (Ascii.eqb "[" "[") with true.
    cbv iota.
    pose proof (join_start (x :: l) (String "]" rest) ltac:(discriminate)) as Hs.
    rewrite (skip_ws_start _ Hs). destruct Hs as (c & t & E & _ & Hc & _).
    rewrite E. cbn [starts_with_char]. rewrite Hc, <- E.
    rewrite parse_elems_printed; try assumption; try discriminate; [reflexivity | lia].
  - intros Hwf fuel rest Hfuel Hrest. cbn [wf_value] in Hwf.
    apply andb_true_iff in Hwf as [Hnd Hwf]. apply distinct_NoDup in Hnd.
    cbn [ref_json_dumps] in *. rewrite !length_append in Hfuel.
    cbn [String.length] in Hfuel. destruct fuel as [|fuel]; [lia|].
    destruct d as [|e d]; [reflexivity|].
    rewrite !append_assoc. cbn [append parse_value skip_ws].
    change (is_ws "{") with false. cbv iota.
    change (Ascii.eqb "{" quote) with false. change (Ascii.eqb "{" "[") with false.
    change (Ascii.eqb "{" "{") with true. cbv iota.
    rewrite parse_members_printed; try assumption; try discriminate; [| lia].
    assert (Hq : exists t,
               join ", " (map (member_text ref_json_dumps) (e :: d))
               +:+ String "}" rest = String quote t).
    { destruct d; cbn [map]; [|rewrite join_cons by discriminate];
        unfold member_text at 1, ref_dumps_string; cbn [join append]; eauto. }
    destruct Hq as [t ->]. cbn [skip_ws]. change (is_ws quote) with false. cbv iota.
    cbn [starts_with_char]. change (Ascii.eqb quote "}") with false. cbv iota.
    reflexivity.
Qed.

Lemma ref_json_roundtrip (v : value) :
  wf_value v = true -> ref_json_loads (ref_json_dumps v) = Some v.
Proof.
  intros Hwf. unfold ref_json_loads.
  rewrite <- (append_nil_r (ref_json_dumps v)) at 2.
  rewrite (ref_parses v Hwf) by (lia || reflexivity). reflexivity.
Qed.





(** *** The laws *)

Lemma ref_archive_laws : @archive_laws RefLib.
Proof.
  repeat split.
  - exact ref_json_roundtrip.
  - exact ref_text_roundtrip.
  - exact ref_b64_roundtrip.
Qed.


Lemma ref_law_text_strict : @law_text_strict RefLib.
Proof. exact ref_text_strict. Qed.

Lemma ref_law_b64_text : @law_b64_text RefLib.
Proof. exact ref_b64_text. Qed.

(** FIPS 180-4's examples: the empty message and a message of two blocks,
    and the digest the spec quotes for [hello]. *)
Example ref_sha256_examples :
  ref_sha256_hexdigest []
  = "e3b0c44298fc1c149afbf4c8996fb92427ae41e4649b934ca495991b7852b855"
  /\ ref_sha256_hexdigest
       (list_byte_of_string
          "abcdbcdecdefdefgefghfghighijhijkijkljklmklmnlmnomnopnopq")
     = "248d6a61d20638b8e5c026930c3e6039a33ce45964ff2167f6ecedd419db06c1"
  /\ ref_sha256_hexdigest (list_byte_of_string "hello")
     = "2cf24dba5fb0a30e26e83b2ac5b9e29e1b161e5c1fa7425e73043362938b9824".
Proof. vm_compute. auto. Qed.

(** RFC 4648's examples. *)
Example ref_b64encode_examples :
  map (fun s => string_of_list_byte (ref_b64encode (list_byte_of_string s)))
      ["f"; "fo"; "foo"; "foob"; "fooba"; "foobar"]
  = ["Zg=="; "Zm8="; "Zm9v"; "Zm9vYg=="; "Zm9vYmE="; "Zm9vYmFy"].
Proof. vm_compute. reflexivity. Qed.

(** ** The theorems at work on the sample packages *)

#[local] Existing Instance RefLib.

(** The archive paths of the sample packages. *)
Lemma sample_no_parent_steps :
  no_parent_steps (L := RefLib) sample_root ["foo"; "bar"; "lib"; "empty"].
Proof.
  intros name m version Hin Hm Hv.
  destruct Hin as [<-|[<-|[<-|[<-|[]]]]];
    vm_compute in Hm; try discriminate; injection Hm as <-;
    vm_compute in Hv; injection Hv as <-;
    vm_compute; intuition discriminate.
Qed.

Lemma sample_archives_distinct :
  archives_distinct (L := RefLib) sample_root ["foo"; "bar"; "lib"; "empty"].
Proof.
  split; [exact sample_no_parent_steps|].
  intros n1 n2 m1 m2 v1 v2 H1 H2 Hne Hm1 Hm2 Hv1 Hv2.
  destruct H1 as [<-|[<-|[<-|[<-|[]]]]];
    destruct H2 as [<-|[<-|[<-|[<-|[]]]]];
    try (now elim Hne);
    vm_compute in Hm1; vm_compute in Hm2; try discriminate;
    injection Hm1 as <-; injection Hm2 as <-;
    vm_compute in Hv1; vm_compute in Hv2;
    injection Hv1 as <-; injection Hv2 as <-;
    vm_compute; discriminate.
Qed.

(** The amended C2 on package [lib]: the file in the source root gets a
    slash, the one in [sub] does not. *)
Lemma package_files_key_shape_witness :
  package_files sample_root "lib" = ["/init.lua"; "sub/util.lua"]
  /\ (startswith "/" (key_of ["sub"; "util.lua"]) = true
      <-> List.length ["sub"; "util.lua"] = 1).
Proof.
  destruct (package_files_key_shape sample_root "lib" eq_refl eq_refl) as [Hp Hk].
  split; [exact Hp|].
  apply (Hk ["sub"; "util.lua"] "return 1"). cbn. auto.
Defined.

(** C2 as the spec states it fails on package [lib]: the path of the file
    in the subdirectory does not start with a slash. *)
Lemma subdirectory_path_has_no_leading_slash :
  exists p, In p (package_files sample_root "lib") /\ startswith "/" p = false.
Proof. exists "sub/util.lua". split; [cbn; auto | reflexivity]. Qed.


Lemma get_manifest_absent_or_malformed_witness :
  get_manifest (L := RefLib) "bar" sample_world
  = (World sample_root ["[i] Reading manifest";
                        "[!] Package is invalid (no manifest)"], Ok VNone)
  /\ get_manifest (L := RefLib) "bad" malformed_world
     = (World (fs malformed_world) ["[i] Reading manifest"], Raise JSONDecodeError)
  /\ exists w', main (L := RefLib) malformed_world = (w', Raise JSONDecodeError).
Proof.
  split.
  - apply (get_manifest_absent_or_malformed (L := RefLib) "bar" sample_world eq_refl).
    reflexivity.
  - destruct (proj2 (get_manifest_absent_or_malformed (L := RefLib)
                       "bad" malformed_world eq_refl) "{" eq_refl eq_refl)
      as [Hraise Hmain].
    split; [exact Hraise|].
    destruct (Hmain malformed_world [] [] [] eq_refl eq_refl) as (w' & Hw' & _).
    now exists w'.
Defined.

Lemma index_digest_is_archive_file_digest_witness :
  exists package version text,
    read_text (fs (fst (index_package (L := RefLib) "foo" [] sample_world)))
              (pool_path (L := RefLib) "foo" version) = Ok text
    /\ @str_encode RefLib text = compress (L := RefLib) package
    /\ (forall acc', snd (index_package (L := RefLib) "foo" [] sample_world) = Ok acc' ->
        dict_get "foo" acc'
        = Some (VDict [("version", version);
                       ("digest",
                        VStr (@sha256_hexdigest RefLib (@str_encode RefLib text)))])).
Proof.
  destruct (index_package (L := RefLib) "foo" [] sample_world) as [w' r] eqn:Hrun.
  assert (Hok : exists acc', r = Ok acc' /\ acc' <> []).
  { revert Hrun. vm_compute. intros [= _ <-]. eexists. split; [reflexivity|].
    discriminate. }
  destruct Hok as (acc' & -> & Hne).
  destruct (index_digest_is_archive_file_digest (L := RefLib)
              "foo" [] acc' sample_world w' ref_law_text_strict Hrun)
    as [[_ ->]|(package & version & text & Hread & Henc & Hget)];
    [contradiction|].
  exists package, version, text. cbn [fst snd]. repeat split; try assumption.
  now intros ? [= <-].
Defined.

Lemma missing_manifest_package_skipped_witness :
  write_package (L := RefLib) "bar" sample_world
  = (World sample_root ["Packaging bar"; "[i] Reading manifest";
                        "[!] Package is invalid (no manifest)"], Ok VNone)
  /\ exists packages,
       read_text (fs (fst (main (L := RefLib) sample_world))) index_path
       = Ok (@json_dumps RefLib (VDict packages))
       /\ dict_get "bar" packages = None.
Proof.
  destruct (missing_manifest_package_skipped (L := RefLib) "bar" sample_world
              eq_refl eq_refl) as (Hskip & _ & Hindex).
  split; [exact Hskip|].
  apply Hindex.
  destruct (main (L := RefLib) sample_world) as [w1 r] eqn:Hmain. cbn [fst].
  f_equal. revert Hmain. vm_compute. now intros [= _ <-].
Defined.

Lemma decode_compress_roundtrip_witness :
  decode (L := RefLib) (compress document_foo) = Some document_foo.
Proof.
  exact (decode_compress_roundtrip (L := RefLib) document_foo
           ref_archive_laws eq_refl).
Defined.

(** The second run starts where the first one ended, with the archives and
    the index of the first run in the pool. *)
Lemma unchanged_package_builds_identically_witness :
  let second := fst (main (L := RefLib) sample_world) in
  snd (build_package (L := RefLib) "lib" sample_world)
  = snd (build_package (L := RefLib) "lib" second)
  /\ forall acc w1' w2' a1 a2,
       index_package (L := RefLib) "lib" acc sample_world = (w1', Ok a1) ->
       index_package (L := RefLib) "lib" acc second = (w2', Ok a2) ->
       @json_dumps RefLib (VDict a1) = @json_dumps RefLib (VDict a2).
Proof.
  intros second.
  assert (Hmanifest : read_text (fs sample_world) (manifest_path "lib")
                      = read_text (fs second) (manifest_path "lib"))
    by (vm_compute; reflexivity).
  assert (Hpaths : package_files (fs sample_world) "lib"
                   = package_files (fs second) "lib")
    by (vm_compute; reflexivity).
  assert (Hfiles : forall p, In p (package_files (fs sample_world) "lib") ->
                     read_text (fs sample_world) (source_path "lib" +:+ p)
                     = read_text (fs second) (source_path "lib" +:+ p)).
  { intros p Hp.
    change (In p ["/init.lua"; "sub/util.lua"]) in Hp.
    destruct Hp as [<-|[<-|[]]]; vm_compute; reflexivity. }
  destruct (unchanged_package_builds_identically (L := RefLib)
              "lib" sample_world second Hmanifest Hpaths Hfiles)
    as (Hbuild & _ & Hindex).
  split; [exact Hbuild | exact Hindex].
Defined.

Lemma empty_source_package_indexed_witness :
  let doc := VDict [("version", VStr "1.0.0"); ("files", VDict [])] in
  package_files sample_root "empty" = []
  /\ (exists w1, build_package (L := RefLib) "empty" sample_world = (w1, Ok doc))
  /\ exists w',
       index_package (L := RefLib) "empty" [] sample_world
       = (w', Ok [("empty", index_entry (L := RefLib) doc (VStr "1.0.0"))])
       /\ scandir (fs w') PACKAGES_POOL_DIR = Ok ["empty.1.0.0.ccp"].
Proof.
  intros doc.
  assert (Hparse : @json_loads RefLib manifest_foo
                   = Some (VDict [("version", VStr "1.0.0")]))
    by (vm_compute; reflexivity).
  destruct (empty_source_package_indexed (L := RefLib)
              "empty" sample_world manifest_foo [("version", VStr "1.0.0")] []
              (VStr "1.0.0") ref_law_b64_text eq_refl eq_refl Hparse
              eq_refl eq_refl eq_refl)
    as (Hpaths & Hbuild & w' & payload & Hwrite & _ & _ & Hindex).
  split; [exact Hpaths|]. split; [exact Hbuild|].
  exists w'. split; [exact Hindex|].
  revert Hwrite. vm_compute. intros [= <-]. vm_compute. reflexivity.
Defined.

Lemma missing_version_aborts_witness :
  exists w',
    write_package (L := RefLib) "nov" unversioned_world
    = (w', Raise (KeyError "version"))
    /\ fs w' = fs unversioned_world
    /\ main (L := RefLib) unversioned_world = (w', Raise (KeyError "version")).
Proof.
  assert (Hparse : @json_loads RefLib (ref_json_dumps (VDict manifest_nov))
                   = Some (VDict manifest_nov))
    by (vm_compute; reflexivity).
  destruct (missing_version_aborts (L := RefLib)
              "nov" unversioned_world (ref_json_dumps (VDict manifest_nov))
              manifest_nov eq_refl eq_refl eq_refl Hparse eq_refl)
    as (w' & _ & Hwrite & Hfs & Hmain).
  exists w'. split; [exact Hwrite|]. split; [exact Hfs|].
  exact (Hmain unversioned_world [] [] [] eq_refl eq_refl).
Defined.

Lemma build_package_keeps_manifest_keys_witness :
  exists w' doc,
    build_package (L := RefLib) "lib" sample_world = (w', Ok (VDict doc))
    /\ dict_get "name" doc = Some (VStr "lib")
    /\ dict_get "version" doc = Some (VInt 2)
    /\ dict_get "files" doc
       = Some (VDict (collect (L := RefLib) sample_root "lib"
                        ["/init.lua"; "sub/util.lua"] [])).
Proof.
  destruct (get_manifest (L := RefLib) "lib" sample_world) as [w0 r0] eqn:Hm.
  assert (r0 = Ok (VDict manifest_lib)) as ->
    by (revert Hm; vm_compute; now intros [= _ <-]).
  destruct (build_package (L := RefLib) "lib" sample_world) as [w' r] eqn:Hb.
  assert (exists doc, r = Ok (VDict doc)) as [doc ->]
    by (revert Hb; vm_compute; intros [= _ <-]; eauto).
  destruct (build_package_keeps_manifest_keys (L := RefLib)
              "lib" sample_world w0 w' manifest_lib doc Hm Hb)
    as (_ & Hkeep & Hfiles).
  exists w', doc. split; [reflexivity|].
  rewrite !Hkeep by discriminate. repeat split. exact Hfiles.
Defined.


Lemma main_keeps_packages_witness :
  lookup (fs (fst (main (L := RefLib) sample_world))) ["packages"; "lib"; "source"]
  = lookup sample_root ["packages"; "lib"; "source"].
Proof.
  apply (main_keeps_packages (L := RefLib) sample_world ["lib"; "source"]).
  intros names Hscan. vm_compute in Hscan. injection Hscan as <-.
  exact sample_no_parent_steps.
Defined.

Lemma non_object_manifest_witness :
  build_package (L := RefLib) "nul" null_world
  = (World (fs null_world) ["[i] Reading manifest"], Ok VNone)
  /\ build_package (L := RefLib) "seq" array_world
     = (World (fs array_world) ["[i] Reading manifest"], Raise TypeError).
Proof.
  split.
  - exact (non_object_manifest (L := RefLib) "nul" null_world "null" VNone
             eq_refl eq_refl eq_refl).
  - exact (non_object_manifest (L := RefLib) "seq" array_world "[1, 2]"
             (VList [VInt 1; VInt 2]) eq_refl eq_refl eq_refl).
Defined.

(** A second run, started in the world the first one left, writes the index
    the first one wrote. *)
Lemma runs_write_identical_index_witness :
  let first := fst (main (L := RefLib) sample_world) in
  let second := fst (main (L := RefLib) first) in
  exists text,
    read_text (fs first) index_path = Ok text
    /\ read_text (fs second) index_path = Ok text.
Proof.
  intros first second.
  assert (Hfs : forall cs, lookup (fs sample_world) ("packages" :: cs)
                           = lookup (fs first) ("packages" :: cs))
    by (intros cs; vm_compute; reflexivity).
  assert (H1 : main (L := RefLib) sample_world = (first, Ok tt))
    by (vm_compute; reflexivity).
  assert (H2 : main (L := RefLib) first = (second, Ok tt))
    by (vm_compute; reflexivity).
  exact (runs_write_identical_index (L := RefLib)
           sample_world first first second Hfs H1 H2).
Defined.

Lemma failed_package_writes_nothing_witness :
  snd (write_package (L := RefLib) "nov" unversioned_world)
  = Raise (KeyError "version")
  /\ fs (fst (write_package (L := RefLib) "nov" unversioned_world))
     = fs unversioned_world.
Proof.
  split; [vm_compute; reflexivity|].
  apply (failed_package_writes_nothing (L := RefLib) "nov" unversioned_world _
           (KeyError "version") ref_law_b64_text).
  vm_compute. reflexivity.
Defined.

(** The file of someone else in the pool is there after the run. *)
Lemma run_touches_only_archives_and_index_witness :
  lookup (fs (fst (main (L := RefLib) aborting_world))) ["pool"; "readme.txt"]
  = Ok (File "keep").
Proof.
  apply (run_touches_only_archives_and_index (L := RefLib)
           aborting_world (fst (main (L := RefLib) aborting_world))
           (Raise JSONDecodeError) ["foo"; "bad"] ["pool"; "readme.txt"] "keep").
  - reflexivity.
  - intros name m version [<-|[<-|[]]] Hm Hv.
    + vm_compute in Hm. injection Hm as <-.
      vm_compute in Hv. injection Hv as <-. vm_compute. intuition discriminate.
    + vm_compute in Hm. discriminate.
  - vm_compute. reflexivity.
  - vm_compute. discriminate.
  - intros name m version [<-|[<-|[]]] Hm Hv.
    + vm_compute in Hm. injection Hm as <-.
      vm_compute in Hv. injection Hv as <-. vm_compute. discriminate.
    + vm_compute in Hm. discriminate.
  - reflexivity.
Defined.

(** The run ends at the second package: the archive of the first is in the
    pool, the index is the old one. *)
Lemma aborted_run_keeps_index_witness :
  snd (main (L := RefLib) aborting_world) = Raise JSONDecodeError
  /\ scandir (fs (fst (main (L := RefLib) aborting_world))) PACKAGES_POOL_DIR
     = Ok ["index.json"; "readme.txt"; "foo.1.0.0.ccp"]
  /\ read_text (fs (fst (main (L := RefLib) aborting_world))) index_path
     = Ok "old".
Proof.
  split; [vm_compute; reflexivity|]. split; [vm_compute; reflexivity|].
  apply (aborted_run_keeps_index (L := RefLib) aborting_world
           (fst (main (L := RefLib) aborting_world)) JSONDecodeError "old").
  - vm_compute. reflexivity.
  - reflexivity.
Defined.

Lemma index_lists_packages_with_manifest_witness :
  exists packages,
    read_text (fs (fst (main (L := RefLib) sample_world))) index_path
    = Ok (@json_dumps RefLib (VDict packages))
    /\ keys packages = ["foo"; "lib"; "empty"]
    /\ exists digest,
         dict_get "lib" packages
         = Some (VDict [("version", VInt 2); ("digest", VStr digest)]).
Proof.
  destruct (index_lists_packages_with_manifest (L := RefLib)
              sample_world (fst (main (L := RefLib) sample_world))
              ["foo"; "bar"; "lib"; "empty"])
    as (packages & Hread & Hkeys & Hentries).
  - reflexivity.
  - repeat constructor; cbn; intuition discriminate.
  - exact sample_no_parent_steps.
  - vm_compute. reflexivity.
  - exists packages. split; [exact Hread|]. split; [exact Hkeys|].
    destruct (Hentries "lib" manifest_lib) as (version & Hv & Hget).
    + cbn. auto.
    + vm_compute. reflexivity.
    + injection Hv as <-. eexists. exact Hget.
Defined.

Lemma run_index_matches_pool_witness :
  exists packages,
    read_text (fs (fst (main (L := RefLib) sample_world))) index_path
    = Ok (@json_dumps RefLib (VDict packages))
    /\ forall name entry,
         dict_get name packages = Some entry ->
         exists version text,
           read_text (fs (fst (main (L := RefLib) sample_world)))
             (pool_path (L := RefLib) name version) = Ok text
           /\ entry = VDict [("version", version);
                             ("digest",
                              VStr (@sha256_hexdigest RefLib
                                      (@str_encode RefLib text)))].
Proof.
  apply (run_index_matches_pool (L := RefLib) sample_world
           (fst (main (L := RefLib) sample_world))
           ["foo"; "bar"; "lib"; "empty"] ref_law_text_strict).
  - reflexivity.
  - repeat constructor; cbn; intuition discriminate.
  - exact sample_archives_distinct.
  - vm_compute. reflexivity.
Defined.



(** A regular file in the packages directory ends the run at once. *)
Lemma unreadable_manifest_aborts_witness :
  main (L := RefLib) stray_world
  = (World (fs stray_world) ["Packaging README"; "[i] Reading manifest"],
     Raise NotADirectoryError).
Proof.
  destruct (unreadable_manifest_aborts (L := RefLib) "README" stray_world
              eq_refl NotADirectoryError) as [_ Hmain].
  - left. exists "about". split; reflexivity.
  - exact (Hmain stray_world [] ["foo"] [] eq_refl eq_refl).
Defined.

(** The run on a version with a NUL ends with [ValueError]; the pool stays
    empty. *)
Lemma unopenable_archive_aborts_witness :
  exists w',
    main (L := RefLib) nul_world = (w', Raise ValueError)
    /\ fs w' = fs nul_world.
Proof.
  assert (Hparse : @json_loads RefLib (ref_json_dumps (VDict manifest_nul))
                   = Some (VDict manifest_nul))
    by (vm_compute; reflexivity).
  destruct (unopenable_archive_aborts (L := RefLib)
              "odd" nul_world (ref_json_dumps (VDict manifest_nul)) manifest_nul
              (VStr (String nul "1")) ValueError
              eq_refl eq_refl eq_refl Hparse eq_refl)
    as (w' & _ & Hfs & Hmain).
  - left. split; reflexivity.
  - exists w'. split; [|exact Hfs].
    exact (Hmain nul_world [] [] [] eq_refl eq_refl).
Defined.

Lemma compress_injective_witness :
  document_foo
  = VDict [("version", VStr "1.0.0");
           ("files", VDict (files_of (L := RefLib) sample_root "foo"))].
Proof.
  apply (compress_injective (L := RefLib) _ _ ref_archive_laws).
  - reflexivity.
  - reflexivity.
  - vm_compute. reflexivity.
Defined.

(** Package [lib]: the manifest's keys in the manifest's order, with
    [files] where it was, and the paths in the order of the walk. *)
Lemma document_key_order_witness :
  exists w' doc files,
    build_package (L := RefLib) "lib" sample_world = (w', Ok (VDict doc))
    /\ keys doc = ["name"; "version"; "files"]
    /\ dict_get "files" doc = Some (VDict files)
    /\ keys files = ["/init.lua"; "sub/util.lua"].
Proof.
  destruct (build_package (L := RefLib) "lib" sample_world) as [w' r] eqn:Hb.
  assert (exists package, r = Ok package) as [package ->]
    by (revert Hb; vm_compute; intros [= _ <-]; eauto).
  destruct (document_key_order (L := RefLib) "lib" sample_world w' manifest_lib
              package eq_refl eq_refl) as (doc & files & -> & Hk & Hf & Hp).
  - vm_compute. reflexivity.
  - exact Hb.
  - exists w', doc, files. auto.
Defined.

Lemma run_needs_directories_witness :
  (exists ps, lookup sample_root ["packages"] = Ok (Dir ps))
  /\ (exists es, lookup sample_root ["pool"] = Ok (Dir es)).
Proof.
  apply (run_needs_directories (L := RefLib) sample_world
           (fst (main (L := RefLib) sample_world))).
  vm_compute. reflexivity.
Defined.

(** The archive of [foo] after the second run is the one the first run
    wrote. *)
Lemma rerun_changes_no_file_witness :
  let first := fst (main (L := RefLib) sample_world) in
  let second := fst (main (L := RefLib) first) in
  let payload :=
    "eyJ2ZXJzaW9uIjogIjEuMC4wIiwgImZpbGVzIjogeyIvYS50eHQiOiB7ImNvbnRlbnQiOiAiaGVsbG8iLCAiZGlnZXN0IjogIjJjZjI0ZGJhNWZiMGEzMGUyNmU4M2IyYWM1YjllMjllMWIxNjFlNWMxZmE3NDI1ZTczMDQzMzYyOTM4Yjk4MjQifX19" in
  lookup (fs second) ["pool"; "foo.1.0.0.ccp"] = Ok (File payload).
Proof.
  intros first second payload.
  apply (rerun_changes_no_file (L := RefLib) sample_world first second
           ["foo"; "bar"; "lib"; "empty"] ["pool"; "foo.1.0.0.ccp"] payload).
  - reflexivity.
  - repeat constructor; cbn; intuition discriminate.
  - exact sample_archives_distinct.
  - vm_compute. reflexivity.
  - vm_compute. reflexivity.
  - vm_compute. reflexivity.
Defined.

(** The whole script on the sample repository: the console, the pool and
    the keys of the index.  Package [bar] is reported and left out. *)
Example sample_run :
  exists w' packages,
    main (L := RefLib) sample_world = (w', Ok tt)
    /\ stdout w'
       = ["Packaging foo"; "[i] Reading manifest"; "[+] /a.txt";
          "Packaging bar"; "[i] Reading manifest";
          "[!] Package is invalid (no manifest)";
          "Packaging lib"; "[i] Reading manifest";
          "[+] /init.lua"; "[+] sub/util.lua";
          "Packaging empty"; "[i] Reading manifest";
          "Writing index"]
    /\ scandir (fs w') PACKAGES_POOL_DIR
       = Ok ["foo.1.0.0.ccp"; "lib.2.ccp"; "empty.1.0.0.ccp"; "index.json"]
    /\ read_text (fs w') index_path = Ok (@json_dumps RefLib (VDict packages))
    /\ keys packages = ["foo"; "lib"; "empty"]
    /\ (exists payload,
          read_text (fs w') (pool_path "foo" (VStr "1.0.0")) = Ok payload
          /\ decode (L := RefLib) (list_byte_of_string payload) = Some document_foo).
Proof.
  exists (fst (main (L := RefLib) sample_world)),
         (match build_all (L := RefLib) ["foo"; "bar"; "lib"; "empty"] sample_world with
          | (_, Ok packages) => packages
          | (_, Raise _) => []
          end).
  repeat split; try (vm_compute; reflexivity).
  eexists. split; vm_compute; reflexivity.
Qed.
